(** * p2psimpy: the peer runtime and the population layer

    A shallow embedding of [p2psimpy/peer.py] and [p2psimpy/simulation.py].

    Python objects live in a store: a [Peer] instance is named by its object
    identity (a [nat]), and every dictionary keyed by peers is keyed by that
    identity, as in the source, where [Peer] defines neither [__eq__] nor
    [__hash__].  Methods are functions from a [World] to an [outcome]: a
    normal return, a raised exception (with the world as it was left), or
    [Stuck] when the model has no answer (an identity that names no object,
    or an exhausted recursion budget).

    The collaborators that are not part of these two files (the logger, the
    [Connection] class, service and storage objects, disconnect callbacks,
    the peer factory) are represented by what the core does to them: log
    records and a trace of the calls made on them.  The clock, the message
    queue and the loop [run] that feeds [receive] from it belong to the
    scheduler and are left out, as are [get_latency_delay],
    [get_peers_names] and the methods that only forward to the factory or
    to the clock. *)

From Stdlib Require Import QArith.
From stdpp Require Import gmap strings list fin_maps sorting pretty.

Set Warnings "-clear-no-such-hyp".

Open Scope string_scope.
Open Scope list_scope.
Open Scope nat_scope.

(** ** Data model *)

(** Object identity of a [Peer]. *)
Abbreviation peer_id := nat (only parsing).

(** [Connection(sender, receiver)]: the class lives in [p2psimpy.network];
    the core only builds instances, stores them, reads [bandwidth] and calls
    [send].  [cnx_id] is the identity of the instance. *)
Record Connection := mkConnection {
  cnx_id : nat;
  cnx_sender : peer_id;
  cnx_receiver : peer_id;
}.

(** A message: its concrete class (the dispatch key [type(msg)]), the
    [sender] attribute and an opaque payload. *)
Record Message := mkMessage {
  msg_type : string;
  msg_sender : peer_id;
  msg_payload : nat;
}.

(** What [receive] may be handed: an instance of [BaseMessage] or any other
    object. *)
Inductive pyobj :=
| PMsg (m : Message)
| PObj (n : nat).

(** [Hello(self)] *)
Definition Hello (sender : peer_id) : Message :=
  {| msg_type := "Hello"; msg_sender := sender; msg_payload := 0 |}.

(** A service instance: [svc_class] is [type(service).__name__],
    [svc_handler] and [svc_runner] are the two [isinstance] tests of
    [add_service], [svc_messages] is [service.messages]. *)
Record Service := mkService {
  svc_id : nat;
  svc_class : string;
  svc_handler : bool;
  svc_runner : bool;
  svc_messages : list string;
}.

Record Peer := mkPeer {
  name : string;
  location : string;
  bandwidth_ul : Q;
  bandwidth_dl : Q;
  online : bool;
  connections : gmap nat Connection;
  disconnect_callbacks : list nat;
  handlers : gmap string Service;
  mh_map : gmap string (gset string);
  runners : gmap string Service;
  storage : gmap string nat;
}.

Inductive exn :=
| AssertionError
| AttributeError
| IndexError
| KeyError
| ValueError
| ZeroDivisionError
| PyException (text : string).

Inductive level := Info | Warning | Error.

Inductive log_text :=
| LConnecting (other : peer_id)
| LBreaking (other : peer_id)
| LReceived (ty : string)
| LNoHandler (ty : string)
| LNotConnected (receiver : peer_id)
| LNoStorage (storage_name : string)
| LInitBootstrap
| LCreating (peer_num : nat) (peer_type : string).

(** A record written by a logger; [lr_peer] is [None] for the simulation's
    own logger. *)
Record log_record := mkLog {
  lr_peer : option peer_id;
  lr_level : level;
  lr_text : log_text;
}.

(** Calls made by the core on its collaborators. *)
Inductive call :=
| CnxSend (c : Connection) (m : Message) (connect : bool)
| Callback (cb : nat) (self other : peer_id)
| HandleMessage (self : peer_id) (service_id : string) (svc : Service) (m : Message)
| StorageAdd (self : peer_id) (store_obj : nat) (msg_id : nat) (msg : pyobj)
| RunnerStart (self : peer_id) (svc : Service).

(** The [Simulation] object: [peers] is the dictionary from peer type to
    the list of peers of that type, in insertion order; [bootstrap_peers] is
    [None] as long as the attribute has not been assigned. *)
Record Simulation := mkSimulation {
  peers : list (string * list peer_id);
  bootstrap_peers : option (list peer_id);
}.

Record World := mkWorld {
  sim : Simulation;
  heap : gmap nat Peer;
  next_cnx : nat;
  rng : list nat;
  logs : list log_record;
  calls : list call;
}.

Inductive outcome (A : Type) :=
| Ok (a : A) (w : World)
| Raise (e : exn) (w : World)
| Stuck.
Arguments Ok {A} a w.
Arguments Raise {A} e w.
Arguments Stuck {A}.

(** ** The state-and-exception monad of method bodies *)

Definition M (A : Type) : Type := World -> outcome A.

Definition ret {A} (a : A) : M A := fun w => Ok a w.

Definition bind {A B} (m : M A) (k : A -> M B) : M B :=
  fun w =>
    match m w with
    | Ok a w' => k a w'
    | Raise e w' => Raise e w'
    | Stuck => Stuck
    end.

Notation "'do' x <- m ; k" := (bind m (fun x => k))
  (at level 10, x name, m at level 100, k at level 200).
Notation "m ;; k" := (bind m (fun _ => k))
  (at level 100, k at level 200, right associativity).

Definition raise {A} (e : exn) : M A := fun w => Raise e w.

Definition stuck {A} : M A := fun _ => Stuck.

(** Dereference a peer. *)
Definition get_peer (p : peer_id) : M Peer :=
  fun w => match heap w !! p with
           | Some x => Ok x w
           | None => Stuck
           end.

Definition set_heap (h : gmap nat Peer) (w : World) : World :=
  {| sim := sim w; heap := h; next_cnx := next_cnx w; rng := rng w;
     logs := logs w; calls := calls w |}.

(** Update the fields of a live peer in place. *)
Definition modify_peer (p : peer_id) (f : Peer -> Peer) : M unit :=
  fun w => match heap w !! p with
           | Some x => Ok tt (set_heap (<[p := f x]> (heap w)) w)
           | None => Stuck
           end.

Definition add_log (r : log_record) (w : World) : World :=
  {| sim := sim w; heap := heap w; next_cnx := next_cnx w; rng := rng w;
     logs := logs w ++ [r]; calls := calls w |}.

Definition add_call (c : call) (w : World) : World :=
  {| sim := sim w; heap := heap w; next_cnx := next_cnx w; rng := rng w;
     logs := logs w; calls := calls w ++ [c] |}.

Definition bump_cnx (w : World) : World :=
  {| sim := sim w; heap := heap w; next_cnx := S (next_cnx w); rng := rng w;
     logs := logs w; calls := calls w |}.

Definition set_sim (s : Simulation) (w : World) : World :=
  {| sim := s; heap := heap w; next_cnx := next_cnx w; rng := rng w;
     logs := logs w; calls := calls w |}.

Definition set_rng (r : list nat) (w : World) : World :=
  {| sim := sim w; heap := heap w; next_cnx := next_cnx w; rng := r;
     logs := logs w; calls := calls w |}.

(** [self.logger.<level>(...)] *)
Definition write_log (p : option peer_id) (l : level) (t : log_text) : M unit :=
  fun w => Ok tt (add_log (mkLog p l t) w).

(** A call on a collaborator. *)
Definition emit (c : call) : M unit :=
  fun w => Ok tt (add_call c w).

(** [Connection(self, other)]: a fresh instance. *)
Definition new_connection (self other : peer_id) : M Connection :=
  fun w => Ok (mkConnection (next_cnx w) self other) (bump_cnx w).

(** [for x in l: body(x)] *)
Fixpoint for_each {A} (l : list A) (body : A -> M unit) : M unit :=
  match l with
  | [] => ret tt
  | x :: l' => body x ;; for_each l' body
  end.

(** ** Peer *)

Definition set_connections (c : gmap nat Connection) (p : Peer) : Peer :=
  {| name := name p; location := location p;
     bandwidth_ul := bandwidth_ul p; bandwidth_dl := bandwidth_dl p;
     online := online p; connections := c;
     disconnect_callbacks := disconnect_callbacks p;
     handlers := handlers p; mh_map := mh_map p; runners := runners p;
     storage := storage p |}.

Definition set_disconnect_callbacks (c : list nat) (p : Peer) : Peer :=
  {| name := name p; location := location p;
     bandwidth_ul := bandwidth_ul p; bandwidth_dl := bandwidth_dl p;
     online := online p; connections := connections p;
     disconnect_callbacks := c;
     handlers := handlers p; mh_map := mh_map p; runners := runners p;
     storage := storage p |}.

Definition set_handlers (h : gmap string Service) (p : Peer) : Peer :=
  {| name := name p; location := location p;
     bandwidth_ul := bandwidth_ul p; bandwidth_dl := bandwidth_dl p;
     online := online p; connections := connections p;
     disconnect_callbacks := disconnect_callbacks p;
     handlers := h; mh_map := mh_map p; runners := runners p;
     storage := storage p |}.

Definition set_mh_map (m : gmap string (gset string)) (p : Peer) : Peer :=
  {| name := name p; location := location p;
     bandwidth_ul := bandwidth_ul p; bandwidth_dl := bandwidth_dl p;
     online := online p; connections := connections p;
     disconnect_callbacks := disconnect_callbacks p;
     handlers := handlers p; mh_map := m; runners := runners p;
     storage := storage p |}.

Definition set_runners (r : gmap string Service) (p : Peer) : Peer :=
  {| name := name p; location := location p;
     bandwidth_ul := bandwidth_ul p; bandwidth_dl := bandwidth_dl p;
     online := online p; connections := connections p;
     disconnect_callbacks := disconnect_callbacks p;
     handlers := handlers p; mh_map := mh_map p; runners := r;
     storage := storage p |}.

Definition set_storage (s : gmap string nat) (p : Peer) : Peer :=
  {| name := name p; location := location p;
     bandwidth_ul := bandwidth_ul p; bandwidth_dl := bandwidth_dl p;
     online := online p; connections := connections p;
     disconnect_callbacks := disconnect_callbacks p;
     handlers := handlers p; mh_map := mh_map p; runners := runners p;
     storage := s |}.

(** [Peer.__init__]: the fields of a new peer. *)
Definition Peer_init (nm loc : string) (ul dl : Q) : Peer :=
  {| name := nm; location := loc; bandwidth_ul := ul; bandwidth_dl := dl;
     online := true; connections := ∅; disconnect_callbacks := [];
     handlers := ∅; mh_map := ∅; runners := ∅; storage := ∅ |}.

(** Allocation of a new peer object. *)
Definition new_peer (nm loc : string) (ul dl : Q) : M peer_id :=
  fun w => let p := fresh (dom (heap w)) in
           Ok p (set_heap (<[p := Peer_init nm loc ul dl]> (heap w)) w).

(** [is_connected]: [other in self.connections] *)
Definition is_connected (self other : peer_id) : M bool :=
  do ps <- get_peer self;
  ret (bool_decide (other ∈ dom (connections ps))).

(** [bootstrap_connect] *)
Definition bootstrap_connect (self other : peer_id) : M unit :=
  do cnx <- new_connection self other;
  emit (CnxSend cnx (Hello self) true).

(** [connect]; [fuel] bounds the depth of the reciprocal recursion. *)
Fixpoint connect (fuel : nat) (self other : peer_id) : M unit :=
  match fuel with
  | O => stuck
  | S fuel' =>
      do c <- is_connected self other;
      if negb c then
        write_log (Some self) Info (LConnecting other) ;;
        do cnx <- new_connection self other;
        modify_peer self (fun p => set_connections (<[other := cnx]> (connections p)) p) ;;
        do c' <- is_connected other self;
        if negb c' then connect fuel' other self
        else ret tt
      else ret tt
  end.

(** [disconnect] *)
Fixpoint disconnect (fuel : nat) (self other : peer_id) : M unit :=
  match fuel with
  | O => stuck
  | S fuel' =>
      do c <- is_connected self other;
      if c then
        write_log (Some self) Warning (LBreaking other) ;;
        modify_peer self (fun p => set_connections (delete other (connections p)) p) ;;
        do c' <- is_connected other self;
        (if c' then disconnect fuel' other self else ret tt) ;;
        do ps <- get_peer self;
        for_each (disconnect_callbacks ps) (fun cb => emit (Callback cb self other))
      else ret tt
  end.

(** [receive] *)
Definition receive (self : peer_id) (msg : pyobj) : M unit :=
  do _ <- get_peer self;
  match msg with
  | PObj _ => raise AssertionError
  | PMsg m =>
      write_log (Some self) Info (LReceived (msg_type m)) ;;
      do ps <- get_peer self;
      match mh_map ps !! msg_type m with
      | None =>
          write_log (Some self) Error (LNoHandler (msg_type m)) ;;
          raise (PyException "No handler for the message %s")
      | Some ids =>
          for_each (elements ids) (fun service_id =>
            do ps' <- get_peer self;
            match handlers ps' !! service_id with
            | Some svc => emit (HandleMessage self service_id svc m)
            | None => raise KeyError
            end)
      end
  end.

(** [send] *)
Definition send (self receiver : peer_id) (msg : Message) : M unit :=
  do ps <- get_peer self;
  if negb (bool_decide (msg_sender msg = self)) then raise AssertionError
  else
    match connections ps !! receiver with
    | None =>
        write_log (Some self) Error (LNotConnected receiver) ;;
        raise (PyException "Not connected")
    | Some cnx => emit (CnxSend cnx msg false)
    end.

(** The process-wide random source: [rng] holds the raw draws still to
    come.  [randbelow n] consumes one. *)
Definition randbelow (n : nat) : M nat :=
  fun w =>
    let r := match rng w with [] => 0 | r :: _ => r `mod` n end in
    Ok r (set_rng (tail (rng w)) w).

(** The selection loop of [random.sample] (the branch that works on a copy
    of the population): [j = randbelow(n - i)], [result[i] = pool[j]],
    [pool[j] = pool[n - i - 1]]; the argument is the part of the pool still
    in play. *)
Fixpoint sample_pool {A} (pool : list A) (k : nat) : M (list A) :=
  match k with
  | O => ret []
  | S k' =>
      do j <- randbelow (length pool);
      match pool !! j, last pool with
      | Some x, Some y =>
          do rest <- sample_pool (removelast (<[j := y]> pool)) k';
          ret (x :: rest)
      | _, _ => raise IndexError
      end
  end.

(** [random.sample(population, k)] *)
Definition random_sample {A} (population : list A) (k : Z) : M (list A) :=
  if bool_decide (0 ≤ k ≤ Z.of_nat (length population))%Z
  then sample_pool population (Z.to_nat k)
  else raise ValueError.

(** [random.choice(seq)] *)
Definition random_choice {A} (seq : list A) : M A :=
  match seq with
  | [] => raise IndexError
  | _ =>
      do j <- randbelow (length seq);
      match seq !! j with
      | Some x => ret x
      | None => raise IndexError
      end
  end.

(** [gossip]; [except_set] is [None] when the argument is omitted. *)
Definition gossip (self : peer_id) (msg : Message) (f : Z)
    (except_set : option (gset nat)) : M unit :=
  do ps <- get_peer self;
  let except_set := match except_set with None => ∅ | Some s => s end in
  let gossip_set := dom (connections ps) ∖ except_set in
  do chosen <- random_sample (elements gossip_set)
                 (Z.min f (Z.of_nat (size gossip_set)));
  for_each chosen (fun other => send self other msg).

(** [broadcast] *)
Definition broadcast (self : peer_id) (msg : Message) : M unit :=
  do ps <- get_peer self;
  for_each (elements (dom (connections ps))) (fun other => send self other msg).

(** [add_service] *)
Definition add_service (self : peer_id) (service : Service) : M unit :=
  do _ <- get_peer self;
  let serv_name := svc_class service in
  (if svc_handler service then
     modify_peer self (fun p => set_handlers (<[serv_name := service]> (handlers p)) p) ;;
     for_each (svc_messages service) (fun m =>
       do ps <- get_peer self;
       (if negb (bool_decide (m ∈ dom (mh_map ps))) then
          modify_peer self (fun p => set_mh_map (<[m := ∅]> (mh_map p)) p)
        else ret tt) ;;
       do ps' <- get_peer self;
       match mh_map ps' !! m with
       | Some s => modify_peer self (fun p => set_mh_map (<[m := s ∪ {[serv_name]}]> (mh_map p)) p)
       | None => raise KeyError
       end)
   else ret tt) ;;
  (if svc_runner service then
     modify_peer self (fun p => set_runners (<[serv_name := service]> (runners p)) p)
   else ret tt).

(** [start_all_runners] *)
Definition start_all_runners (self : peer_id) : M unit :=
  do ps <- get_peer self;
  for_each (map_to_list (runners ps)) (fun r => emit (RunnerStart self r.2)).

(** [store] *)
Definition store (self : peer_id) (storage_name : string) (msg_id : nat)
    (msg : pyobj) : M unit :=
  do ps <- get_peer self;
  match storage ps !! storage_name with
  | None =>
      write_log (Some self) Error (LNoStorage storage_name) ;;
      raise (PyException "No storage %s found")
  | Some st => emit (StorageAdd self st msg_id msg)
  end.

(** [add_storage] *)
Definition add_storage (self : peer_id) (storage_name : string) (st : nat) : M unit :=
  modify_peer self (fun p => set_storage (<[storage_name := st]> (storage p)) p).

(** Services observe link loss by appending to [disconnect_callbacks]. *)
Definition add_disconnect_callback (self : peer_id) (cb : nat) : M unit :=
  modify_peer self (fun p => set_disconnect_callbacks (disconnect_callbacks p ++ [cb]) p).

(** ** Simulation *)

(** A Python dictionary with string keys whose order of insertion matters:
    lookup, membership and item assignment. *)
Fixpoint dict_get {V} (k : string) (d : list (string * V)) : option V :=
  match d with
  | [] => None
  | (k', v) :: d' => if bool_decide (k' = k) then Some v else dict_get k d'
  end.

Definition dict_mem {V} (k : string) (d : list (string * V)) : bool :=
  match dict_get k d with Some _ => true | None => false end.

Fixpoint dict_set {V} (k : string) (v : V) (d : list (string * V)) : list (string * V) :=
  match d with
  | [] => [(k, v)]
  | (k', v') :: d' =>
      if bool_decide (k' = k) then (k, v) :: d' else (k', v') :: dict_set k v d'
  end.

(** [networkx.Graph], as its adjacency structure: every node is a key, and
    an edge between [u] and [v] is stored under both, with its weight. *)
Abbreviation Graph := (gmap string (gmap string Q)).

(** [G.add_node(n)] *)
Definition add_node (n : string) (g : Graph) : Graph :=
  match g !! n with
  | Some _ => g
  | None => <[n := ∅]> g
  end.

(** [G.add_edge(u, v, weight=wt)] *)
Definition add_edge (u v : string) (wt : Q) (g : Graph) : Graph :=
  let g1 := add_node v (add_node u g) in
  let g2 := <[u := <[v := wt]> (default ∅ (g1 !! u))]> g1 in
  <[v := <[u := wt]> (default ∅ (g2 !! v))]> g2.

(** [G.number_of_nodes()] *)
Definition number_of_nodes (g : Graph) : nat := size g.

(** [G.degree(n)]: a self-loop counts twice. *)
Definition degree (n : string) (adj : gmap string Q) : nat :=
  size adj + (if bool_decide (n ∈ dom adj) then 1 else 0).

(** [G.number_of_edges()]: half the sum of the degrees. *)
Definition number_of_edges (g : Graph) : nat :=
  sum_list_with (fun na => degree na.1 na.2) (map_to_list g) `div` 2.

(** What [for peer in self.peers] can bind [peer] to: iterating a dictionary
    yields its keys. *)
Inductive pyval :=
| VStr (s : string)
| VPeer (p : peer_id).

(** [v.connections] *)
Definition getattr_connections (v : pyval) : M (gmap nat Connection) :=
  match v with
  | VStr _ => raise AttributeError
  | VPeer p => do ps <- get_peer p; ret (connections ps)
  end.

Fixpoint fold_m {A S} (f : S -> A -> M S) (l : list A) (s : S) : M S :=
  match l with
  | [] => ret s
  | x :: l' => do s' <- f s x; fold_m f l' s'
  end.

Definition get_sim : M Simulation := fun w => Ok (sim w) w.

Definition put_sim (s : Simulation) : M unit := fun w => Ok tt (set_sim s w).

Definition set_peers (d : list (string * list peer_id)) (s : Simulation) : Simulation :=
  {| peers := d; bootstrap_peers := bootstrap_peers s |}.

Definition set_bootstrap_peers (l : list peer_id) (s : Simulation) : Simulation :=
  {| peers := peers s; bootstrap_peers := Some l |}.

(** [Simulation.__init__]: [peers] is an empty dictionary; no assignment to
    [bootstrap_peers] is made. *)
Definition Simulation_init : Simulation :=
  {| peers := []; bootstrap_peers := None |}.

#[global] Instance Qle_dec (x y : Q) : Decision (Qle x y).
Proof.
  destruct (Qlt_le_dec y x) as [H|H].
  - right. by apply Qlt_not_le.
  - by left.
Defined.

(** What the factory decides for a new peer. *)
Record peer_config := mkConfig {
  pc_name : string;
  pc_location : string;
  pc_bandwidth_ul : Q;
  pc_bandwidth_dl : Q;
  pc_services : list Service;
}.

Section Population.

(** The configuration the factory gives to the next peer of a type, the
    argument [nat] being the number of peers created so far. *)
Variable factory : string -> nat -> peer_config.

(** [cnx.bandwidth] *)
Variable bandwidth : Connection -> Q.

(** Modelled from the spec: [PeerFactory.create_peer] is not part of the
    two files; by its contract it returns a new [Peer] pre-wired with the
    services configured for the type. *)
Definition create_peer (peer_type : string) : M peer_id :=
  fun w =>
    let cfg := factory peer_type (size (heap w)) in
    (do p <- new_peer (pc_name cfg) (pc_location cfg)
               (pc_bandwidth_ul cfg) (pc_bandwidth_dl cfg);
     for_each (pc_services cfg) (add_service p) ;;
     ret p) w.

(** The body of the loop of [init_bootstrap_servers]. *)
Definition init_bootstrap_server : M unit :=
  do p <- create_peer "bootstrap";
  do s <- get_sim;
  match bootstrap_peers s with
  | None => raise AttributeError
  | Some bs =>
      put_sim (set_bootstrap_peers (bs ++ [p]) s) ;;
      start_all_runners p
  end.

(** [init_bootstrap_servers] *)
Definition init_bootstrap_servers (num : nat) : M unit :=
  write_log None Info LInitBootstrap ;;
  for_each (seq 0 num) (fun _ => init_bootstrap_server).

(** [start_all_peers] *)
Definition start_all_peers : M unit :=
  do s <- get_sim;
  for_each (map fst (peers s)) (fun t =>
    do s' <- get_sim;
    match dict_get t (peers s') with
    | Some l => for_each l start_all_runners
    | None => raise KeyError
    end).

(** The body of the loop of [add_peers]. *)
Definition add_peer (peer_type : string) : M unit :=
  do p <- create_peer peer_type;
  do s <- get_sim;
  match bootstrap_peers s with
  | None => raise AttributeError
  | Some bs =>
      do bootstrap_server <- random_choice bs;
      bootstrap_connect p bootstrap_server ;;
      do s1 <- get_sim;
      (if negb (dict_mem peer_type (peers s1)) then
         put_sim (set_peers (dict_set peer_type [] (peers s1)) s1)
       else ret tt) ;;
      do s2 <- get_sim;
      match dict_get peer_type (peers s2) with
      | Some l => put_sim (set_peers (dict_set peer_type (l ++ [p]) (peers s2)) s2)
      | None => raise KeyError
      end
  end.

(** [add_peers] *)
Definition add_peers (peer_num : nat) (peer_type : string) : M unit :=
  write_log None Info (LCreating peer_num peer_type) ;;
  for_each (seq 0 peer_num) (fun _ => add_peer peer_type).

(** [get_graph] *)
Definition get_graph (include_bootstrap_peers : bool) : M Graph :=
  do s <- get_sim;
  let current_peers := concat (map snd (peers s)) in
  do current_peers <-
    (if include_bootstrap_peers then
       match bootstrap_peers s with
       | Some bs => ret (current_peers ++ bs)
       | None => raise AttributeError
       end
     else ret current_peers);
  fold_m (fun G peer =>
    do pp <- get_peer peer;
    fold_m (fun G item =>
      do po <- get_peer item.1;
      if include_bootstrap_peers || negb (String.prefix "bootstrap" (name po))
      then ret (add_edge (name pp) (name po) (bandwidth item.2) G)
      else ret G)
      (map_to_list (connections pp)) (add_node (name pp) G))
    current_peers ∅.

(** The loop shared by the two statistics: [for peer in self.peers:
    for c in peer.connections.values(): bws.append(c.bandwidth)]. *)
Definition collect_bandwidths : M (list Q) :=
  do s <- get_sim;
  fold_m (fun bws peer =>
    do cs <- getattr_connections peer;
    ret (bws ++ map (fun item => bandwidth item.2) (map_to_list cs)))
    (map (fun item => VStr item.1) (peers s)) [].

(** [avg_bandwidth] *)
Definition avg_bandwidth : M Q :=
  do bws <- collect_bandwidths;
  match bws with
  | [] => raise ZeroDivisionError
  | _ => ret (Qdiv (foldr Qplus (inject_Z 0) bws)
                   (inject_Z (Z.of_nat (length bws))))
  end.

(** [median_bandwidth] *)
Definition median_bandwidth : M Q :=
  do bws <- collect_bandwidths;
  match merge_sort Qle bws !! (length bws `div` 2) with
  | Some x => ret x
  | None => raise IndexError
  end.

End Population.

(** ** Closed forms and sample worlds used in the statements *)

(** The world after one side of a link has been recorded: the log line, the
    new [Connection] and the entry in [self.connections]. *)
Definition link (self other : peer_id) (w : World) : World :=
  match heap w !! self with
  | Some p =>
      set_heap
        (<[self := set_connections
                     (<[other := mkConnection (next_cnx w) self other]> (connections p)) p]>
           (heap w))
        (bump_cnx (add_log (mkLog (Some self) Info (LConnecting other)) w))
  | None => w
  end.

Definition empty_world : World :=
  {| sim := mkSimulation [] None; heap := ∅; next_cnx := 0; rng := [];
     logs := []; calls := [] |}.

Definition after {A} (m : M A) (w : World) : World :=
  match m w with
  | Ok _ w' => w'
  | Raise _ w' => w'
  | Stuck => w
  end.

(** Two peers, ["a"] (identity 0) and ["b"] (identity 1), just created. *)
Definition two_peers : World :=
  after (new_peer "b" "Tokyo" 10 10) (after (new_peer "a" "Ohio" 10 10) empty_world).

Definition add_calls (cs : list call) (w : World) : World :=
  {| sim := sim w; heap := heap w; next_cnx := next_cnx w; rng := rng w;
     logs := logs w; calls := calls w ++ cs |}.

(** The world after one side of a link has been dropped. *)
Definition unlink (self other : peer_id) (w : World) : World :=
  match heap w !! self with
  | Some p =>
      set_heap
        (<[self := set_connections (delete other (connections p)) p]> (heap w))
        (add_log (mkLog (Some self) Warning (LBreaking other)) w)
  | None => w
  end.

(** The disconnect callbacks of [self], each called with [(self, other)]. *)
Definition fired (self other : peer_id) (p : Peer) : list call :=
  map (fun cb => Callback cb self other) (disconnect_callbacks p).

(** Peers 0 and 1 connected, with callback 7 registered on peer 0 and
    callback 8 on peer 1. *)
Definition linked_peers : World :=
  after (connect 2 0 1)
    (after (add_disconnect_callback 1 8)
       (after (add_disconnect_callback 0 7) two_peers)).

Definition peer_at (w : World) (p : peer_id) : Peer :=
  default (Peer_init "" "" 0 0) (heap w !! p).

Definition value_of {A} (o : outcome A) : option (A + exn) :=
  match o with
  | Ok a _ => Some (inl a)
  | Raise e _ => Some (inr e)
  | Stuck => None
  end.

(** ** Operations on peers, and the worlds they reach *)

Inductive op :=
| OpNewPeer (nm loc : string) (ul dl : Q)
| OpIsConnected (self other : peer_id)
| OpBootstrapConnect (self other : peer_id)
| OpConnect (self other : peer_id)
| OpDisconnect (self other : peer_id)
| OpReceive (self : peer_id) (msg : pyobj)
| OpSend (self receiver : peer_id) (msg : Message)
| OpGossip (self : peer_id) (msg : Message) (f : Z) (except_set : option (gset nat))
| OpBroadcast (self : peer_id) (msg : Message)
| OpAddService (self : peer_id) (service : Service)
| OpStartAllRunners (self : peer_id)
| OpStore (self : peer_id) (storage_name : string) (msg_id : nat) (msg : pyobj)
| OpAddStorage (self : peer_id) (storage_name : string) (st : nat)
| OpAddDisconnectCallback (self : peer_id) (cb : nat).

Definition run_op (fuel : nat) (o : op) : M unit :=
  match o with
  | OpNewPeer nm loc ul dl => do _ <- new_peer nm loc ul dl; ret tt
  | OpIsConnected self other => do _ <- is_connected self other; ret tt
  | OpBootstrapConnect self other => bootstrap_connect self other
  | OpConnect self other => connect fuel self other
  | OpDisconnect self other => disconnect fuel self other
  | OpReceive self msg => receive self msg
  | OpSend self receiver msg => send self receiver msg
  | OpGossip self msg f except_set => gossip self msg f except_set
  | OpBroadcast self msg => broadcast self msg
  | OpAddService self service => add_service self service
  | OpStartAllRunners self => start_all_runners self
  | OpStore self storage_name msg_id msg => store self storage_name msg_id msg
  | OpAddStorage self storage_name st => add_storage self storage_name st
  | OpAddDisconnectCallback self cb => add_disconnect_callback self cb
  end.

(** The peers an operation is called on or handed. *)
Definition op_peers (o : op) : list peer_id :=
  match o with
  | OpNewPeer _ _ _ _ => []
  | OpIsConnected self _ => [self]
  | OpBootstrapConnect self other => [self; other]
  | OpConnect self other => [self; other]
  | OpDisconnect self other => [self; other]
  | OpReceive self _ => [self]
  | OpSend self _ _ => [self]
  | OpGossip self _ _ _ => [self]
  | OpBroadcast self _ => [self]
  | OpAddService self _ => [self]
  | OpStartAllRunners self => [self]
  | OpStore self _ _ _ => [self]
  | OpAddStorage self _ _ => [self]
  | OpAddDisconnectCallback self _ => [self]
  end.

(** The world before anything has been created. *)
Definition initial (r : list nat) : World :=
  {| sim := Simulation_init; heap := ∅; next_cnx := 0; rng := r;
     logs := []; calls := [] |}.

Inductive reachable : World -> Prop :=
| reachable_initial (r : list nat) : reachable (initial r)
| reachable_step (fuel : nat) (o : op) (w : World) :
    reachable w -> reachable (after (run_op fuel o) w).

(** Every service name found in a value of [mh_map] is a key of
    [handlers]. *)
Definition routes_registered (p : Peer) : Prop :=
  ∀ m ids n, mh_map p !! m = Some ids -> n ∈ ids -> n ∈ dom (handlers p).

(** Every handler is stored under its class name and is routed every message
    type it declares. *)
Definition handlers_routed (p : Peer) : Prop :=
  ∀ n s, handlers p !! n = Some s ->
    svc_class s = n
    ∧ ∀ m, m ∈ svc_messages s -> ∃ ids, mh_map p !! m = Some ids ∧ n ∈ ids.

Definition all_peers (J : Peer -> Prop) (w : World) : Prop :=
  ∀ a p, heap w !! a = Some p -> J p.

(** What holds of the outcome of a method body; [stuck_ok] says whether
    having no outcome is acceptable ([True]: partial correctness) or not
    ([False]: the body returns or raises). *)
Definition wp {A} (stuck_ok : Prop) (m : M A) (Q : A -> World -> Prop)
    (R : World -> Prop) (w : World) : Prop :=
  match m w with
  | Ok a w' => Q a w'
  | Raise _ w' => R w'
  | Stuck => stuck_ok
  end.

(** A method body that, when the peers of [D] are live, returns or raises
    and writes to no peer. *)
Definition keeps_heap {A} (D : gset nat) (m : M A) : Prop :=
  ∀ w, D ⊆ dom (heap w) ->
    wp False m (fun _ w' => heap w' = heap w) (fun w' => heap w' = heap w) w.

(** The effect of [add_service] on the peer it is called on. *)
Definition route (serv_name : string) (mh : gmap string (gset string)) (m : string)
    : gmap string (gset string) :=
  <[m := default ∅ (mh !! m) ∪ {[serv_name]}]> mh.

Definition register (service : Service) (p : Peer) : Peer :=
  let serv_name := svc_class service in
  let p1 :=
    if svc_handler service then
      set_mh_map (foldl (route serv_name) (mh_map p) (svc_messages service))
        (set_handlers (<[serv_name := service]> (handlers p)) p)
    else p in
  if svc_runner service then set_runners (<[serv_name := service]> (runners p1)) p1
  else p1.

(** Sample services. *)
Definition ping_handler : Service :=
  {| svc_id := 1; svc_class := "PingHandler"; svc_handler := true;
     svc_runner := false; svc_messages := ["Ping"] |}.

Definition pong_service : Service :=
  {| svc_id := 2; svc_class := "PongService"; svc_handler := true;
     svc_runner := true; svc_messages := ["Pong"; "Ping"] |}.

(** Peers 0 and 1, peer 0 with the two sample services. *)
Definition serviced_peers : World :=
  after (run_op 2 (OpAddService 0 pong_service))
    (after (run_op 2 (OpAddService 0 ping_handler))
       (after (run_op 2 (OpNewPeer "b" "Tokyo" 10 10))
          (after (run_op 2 (OpNewPeer "a" "Ohio" 10 10)) (initial [])))).

(** ** The bootstrap scenario *)

(** [G.has_edge(u, v)] *)
Definition has_edge (g : Graph) (u v : string) : Prop :=
  ∃ adj, g !! u = Some adj ∧ v ∈ dom adj.

Section Scenario.
Variable factory : string -> nat -> peer_config.

(** [init_bootstrap_servers(1); add_peers(3, 'basic'); start_all_peers()] *)
Definition scenario : M unit :=
  init_bootstrap_servers factory 1 ;;
  add_peers factory 3 "basic" ;;
  start_all_peers.

(** The reciprocal leg of the three bootstrap connections: the bootstrap
    peer (identity 0) connects to the ordinary peers (1, 2, 3). *)
Definition complete_bootstrap : M unit :=
  connect 2 0 1 ;; connect 2 0 2 ;; connect 2 0 3.
End Scenario.

(** What one iteration of [add_peers] does to the [peers] dictionary. *)
Definition add_to_type (peer_type : string) (p : peer_id)
    (d : list (string * list peer_id)) : list (string * list peer_id) :=
  let d1 := if dict_mem peer_type d then d else dict_set peer_type [] d in
  dict_set peer_type (default [] (dict_get peer_type d1) ++ [p]) d1.

(** The world of a new [Simulation]. *)
Definition new_simulation (r : list nat) : World := initial r.

(** The same, with [bootstrap_peers] assigned the empty list. *)
Definition prepared_simulation (r : list nat) : World :=
  set_sim (set_bootstrap_peers [] Simulation_init) (initial r).

(** A factory naming the peers after their type and rank, with no
    service. *)
Definition plain_factory (peer_type : string) (n : nat) : peer_config :=
  {| pc_name := peer_type +:+ "_" +:+ pretty n; pc_location := "Ohio";
     pc_bandwidth_ul := 10; pc_bandwidth_dl := 10; pc_services := [] |}.

Definition unit_bandwidth (c : Connection) : Q := 1.

(** The graph [get_graph] builds, as a function of the heap. *)
Definition graph_step (bandwidth : Connection -> Q) (incl : bool)
    (h : gmap nat Peer) (pn : string) (G : Graph) (item : nat * Connection) : Graph :=
  match h !! item.1 with
  | Some po =>
      if incl || negb (String.prefix "bootstrap" (name po))
      then add_edge pn (name po) (bandwidth item.2) G
      else G
  | None => G
  end.

Definition peer_graph (bandwidth : Connection -> Q) (incl : bool)
    (h : gmap nat Peer) (G : Graph) (peer : peer_id) : Graph :=
  match h !! peer with
  | Some pp =>
      foldl (graph_step bandwidth incl h (name pp)) (add_node (name pp) G)
        (map_to_list (connections pp))
  | None => G
  end.

Definition graph_of (bandwidth : Connection -> Q) (incl : bool)
    (h : gmap nat Peer) (current_peers : list peer_id) : Graph :=
  foldl (peer_graph bandwidth incl h) ∅ current_peers.

(** Every peer of the list is live, and so are the peers it is connected
    to. *)
Definition closed_peers (h : gmap nat Peer) (l : list peer_id) : Prop :=
  Forall (fun p => ∃ pp, h !! p = Some pp
                         ∧ ∀ o, o ∈ dom (connections pp) -> o ∈ dom h) l.

(** [x] has [y] among the keys of its connections. *)
Definition lists (w : World) (x y : peer_id) : Prop :=
  ∃ px, heap w !! x = Some px ∧ y ∈ dom (connections px).

(** Connection symmetry: whoever is listed lists back. *)
Definition reciprocal (w : World) : Prop :=
  ∀ x y, lists w x y -> lists w y x.

(** ** Further definitions *)

(** The peers recorded under a type, none if the type is unknown. *)
Definition peers_of (peer_type : string) (s : Simulation) : list peer_id :=
  default [] (dict_get peer_type (peers s)).

(** Every stored connection was built by its owner for the peer it is stored
    under. *)
Definition endpoints_match (w : World) : Prop :=
  ∀ a pa b c, heap w !! a = Some pa -> connections pa !! b = Some c ->
    cnx_sender c = a ∧ cnx_receiver c = b.

(** The service tables hold what [add_service] puts there: handlers and
    runners under their class name, with the capability that put them
    there; and no message type is routed to an empty set. *)
Definition tables_typed (p : Peer) : Prop :=
  (∀ n s, handlers p !! n = Some s -> svc_class s = n ∧ svc_handler s = true)
  ∧ (∀ n s, runners p !! n = Some s -> svc_class s = n ∧ svc_runner s = true)
  ∧ (∀ m ids, mh_map p !! m = Some ids -> ids ≠ ∅).

(** The Hello a new peer sends to a bootstrap server. *)
Definition hello_to (bs : list peer_id) (p : peer_id) (c : call) : Prop :=
  ∃ b n, b ∈ bs ∧ c = CnxSend (mkConnection n p b) (Hello p) true.

(** Three peers: 0 connected to 1 and to 2. *)
Definition three_peers : World :=
  after (run_op 2 (OpConnect 0 2))
    (after (run_op 2 (OpConnect 0 1))
       (after (run_op 2 (OpNewPeer "c" "Paris" 10 10))
          (after (run_op 2 (OpNewPeer "b" "Tokyo" 10 10))
             (after (run_op 2 (OpNewPeer "a" "Ohio" 10 10)) (initial []))))).

(** A simulation with one bootstrap peer and two ordinary peers, the
    bootstrap peer connected to both. *)
Definition small_network : World :=
  after (connect 2 0 2)
    (after (connect 2 0 1)
       (after (add_peers plain_factory 2 "basic")
          (after (init_bootstrap_servers plain_factory 1) (prepared_simulation [4; 7])))).


(** A prepared simulation after [init_bootstrap_servers(1)]. *)
Definition bootstrapped : World :=
  after (init_bootstrap_servers plain_factory 1) (prepared_simulation [4; 7]).

(** The test [get_graph] makes before adding an edge to [other]. *)
Definition passes (incl : bool) (po : Peer) : bool :=
  incl || negb (String.prefix "bootstrap" (name po)).

(** Some peer of the list named [u] lists a peer named [v] that passes the
    test. *)
Definition linked_names (incl : bool) (h : gmap nat Peer) (l : list peer_id)
    (u v : string) : Prop :=
  ∃ p pp o po, p ∈ l ∧ h !! p = Some pp ∧ o ∈ dom (connections pp)
               ∧ h !! o = Some po ∧ passes incl po = true
               ∧ name pp = u ∧ name po = v.

(** Some peer of the list is named [n]. *)
Definition named (h : gmap nat Peer) (l : list peer_id) (n : string) : Prop :=
  ∃ p pp, p ∈ l ∧ h !! p = Some pp ∧ name pp = n.

(** The neighbours of a node. *)
Definition adj (g : Graph) (a : string) : gmap string Q := default ∅ (g !! a).

(** ** Reasoning about method bodies *)

Lemma bind_Ok {A B} (m : M A) (k : A -> M B) (w w' : World) (a : A) :
  m w = Ok a w' -> bind m k w = k a w'.
Proof. intros H. unfold bind. by rewrite H. Qed.

Lemma bind_Raise {A B} (m : M A) (k : A -> M B) (w w' : World) (e : exn) :
  m w = Raise e w' -> bind m k w = Raise e w'.
Proof. intros H. unfold bind. by rewrite H. Qed.

Lemma bind_assoc {A B C} (m : M A) (k : A -> M B) (k' : B -> M C) (w : World) :
  bind (bind m k) k' w = bind m (fun a => bind (k a) k') w.
Proof. unfold bind. by destruct (m w). Qed.

Lemma get_peer_run (w : World) (a : peer_id) (p : Peer) :
  heap w !! a = Some p -> get_peer a w = Ok p w.
Proof. intros H. unfold get_peer. by rewrite H. Qed.

Lemma modify_peer_run (w : World) (a : peer_id) (f : Peer -> Peer) (p : Peer) :
  heap w !! a = Some p ->
  modify_peer a f w = Ok tt (set_heap (<[a := f p]> (heap w)) w).
Proof. intros H. unfold modify_peer. by rewrite H. Qed.

Lemma is_connected_run (w : World) (a b : peer_id) (p : Peer) :
  heap w !! a = Some p ->
  is_connected a b w = Ok (bool_decide (b ∈ dom (connections p))) w.
Proof.
  intros H. unfold is_connected. by rewrite (bind_Ok _ _ _ _ _ (get_peer_run _ _ _ H)).
Qed.

Ltac heap_lookup :=
  cbn [heap set_heap add_log add_call bump_cnx set_rng set_sim];
  repeat first [ rewrite lookup_insert_eq | rewrite lookup_insert_ne by done ];
  first [ reflexivity | eassumption ].

Ltac mstep :=
  first
    [ erewrite bind_Ok by (first [ eapply is_connected_run; heap_lookup
                                 | eapply get_peer_run; heap_lookup
                                 | eapply modify_peer_run; heap_lookup
                                 | reflexivity ]) ];
  cbv beta.


Lemma connect_listed (fuel : nat) (w : World) (a b : peer_id) (p : Peer) :
  heap w !! a = Some p -> b ∈ dom (connections p) ->
  connect (S fuel) a b w = Ok tt w.
Proof.
  intros Ha Hb. cbn [connect]. mstep.
  by rewrite bool_decide_eq_true_2.
Qed.

Lemma connect_half (fuel : nat) (w : World) (a b : peer_id) (pa pb : Peer) :
  heap w !! a = Some pa -> heap w !! b = Some pb ->
  b ∉ dom (connections pa) -> a ∈ dom (connections pb) ∨ a = b ->
  connect (S fuel) a b w = Ok tt (link a b w).
Proof.
  intros Ha Hb Hab Hba. cbn [connect]. mstep.
  rewrite bool_decide_eq_false_2 by done. cbn [negb].
  do 3 mstep.
  unfold link. rewrite Ha.
  destruct (decide (a = b)) as [->|Hne].
  - mstep. cbn [connections set_connections].
    rewrite bool_decide_eq_true_2; [done|]. clear Hba. set_solver.
  - mstep. destruct Hba as [Hin|Heq]; [|done].
    by rewrite bool_decide_eq_true_2.
Qed.

Lemma link_lookup_self (w : World) (a b : peer_id) (p : Peer) :
  heap w !! a = Some p ->
  heap (link a b w) !! a
  = Some (set_connections (<[b := mkConnection (next_cnx w) a b]> (connections p)) p).
Proof. intros H. unfold link. rewrite H. cbn. by rewrite lookup_insert_eq. Qed.

Lemma link_lookup_other (w : World) (a b c : peer_id) :
  c ≠ a -> heap (link a b w) !! c = heap w !! c.
Proof.
  intros H. unfold link. destruct (heap w !! a); [|done].
  cbn. by rewrite lookup_insert_ne.
Qed.

Lemma link_logs (w : World) (a b : peer_id) (p : Peer) :
  heap w !! a = Some p ->
  logs (link a b w) = logs w ++ [mkLog (Some a) Info (LConnecting b)].
Proof. intros H. unfold link. by rewrite H. Qed.

Lemma link_calls (w : World) (a b : peer_id) : calls (link a b w) = calls w.
Proof. unfold link. by destruct (heap w !! a). Qed.

Lemma connect_full (fuel : nat) (w : World) (a b : peer_id) (pa pb : Peer) :
  heap w !! a = Some pa -> heap w !! b = Some pb -> a ≠ b ->
  b ∉ dom (connections pa) -> a ∉ dom (connections pb) ->
  connect (S (S fuel)) a b w = Ok tt (link b a (link a b w)).
Proof.
  intros Ha Hb Hne Hab Hba.
  change (connect (S (S fuel)) a b) with
    (do c <- is_connected a b;
     if negb c then
       write_log (Some a) Info (LConnecting b) ;;
       do cnx <- new_connection a b;
       modify_peer a (fun p => set_connections (<[b := cnx]> (connections p)) p) ;;
       do c' <- is_connected b a;
       if negb c' then connect (S fuel) b a else ret tt
     else ret tt).
  mstep. rewrite bool_decide_eq_false_2 by done. cbn [negb].
  do 4 mstep. rewrite bool_decide_eq_false_2 by done. cbn [negb].
  assert (Hw : set_heap
      (<[a:=set_connections
              (<[b:={| cnx_id := next_cnx (add_log (mkLog (Some a) Info (LConnecting b)) w);
                       cnx_sender := a; cnx_receiver := b |}]> (connections pa)) pa]>
         (heap (bump_cnx (add_log (mkLog (Some a) Info (LConnecting b)) w))))
      (bump_cnx (add_log (mkLog (Some a) Info (LConnecting b)) w)) = link a b w).
  { unfold link. by rewrite Ha. }
  rewrite Hw.
  eapply connect_half.
  - by rewrite link_lookup_other.
  - by apply link_lookup_self.
  - done.
  - left. cbn. set_solver.
Qed.

(** ** Worlds used as concrete instances *)




(** ** Connection management *)

(** The outcome of [connect] on two distinct live peers, in a world where
    [B] lists [A] whenever [A] lists [B]. *)
Lemma connect_outcome (fuel : nat) (w : World) (A B : peer_id) (pa pb : Peer) :
  A ≠ B ->
  heap w !! A = Some pa -> heap w !! B = Some pb ->
  (is_connected A B w = Ok true w -> is_connected B A w = Ok true w) ->
  2 ≤ fuel ->
  ∃ w', connect fuel A B w = Ok tt w'
      ∧ is_connected A B w' = Ok true w'
      ∧ is_connected B A w' = Ok true w'
      ∧ ∃ new, logs w' = logs w ++ new
          ∧ (mkLog (Some B) Info (LConnecting A) ∈ new
             ↔ is_connected B A w = Ok false w).
Proof.
  intros Hne Ha Hb Hrec Hfuel.
  destruct fuel as [|[|fuel]]; [lia..|].
  rewrite (is_connected_run _ _ _ _ Ha), (is_connected_run _ _ _ _ Hb) in Hrec.
  rewrite (is_connected_run _ _ _ _ Hb).
  destruct (decide (B ∈ dom (connections pa))) as [Hab|Hab].
  - assert (Hba : A ∈ dom (connections pb)).
    { rewrite (bool_decide_eq_true_2 _ Hab) in Hrec.
      specialize (Hrec eq_refl). injection Hrec as Hrec.
      by apply bool_decide_eq_true in Hrec. }
    exists w. rewrite (connect_listed _ _ _ _ _ Ha Hab).
    rewrite (is_connected_run _ _ _ _ Ha), (is_connected_run _ _ _ _ Hb).
    rewrite (bool_decide_eq_true_2 _ Hab), (bool_decide_eq_true_2 _ Hba).
    repeat split. exists []. split; [by rewrite app_nil_r|].
    split; [intros H; by apply elem_of_nil in H|discriminate].
  - destruct (decide (A ∈ dom (connections pb))) as [Hba|Hba].
    + rewrite (bool_decide_eq_true_2 _ Hba).
      exists (link A B w).
      rewrite (connect_half _ _ _ _ _ _ Ha Hb Hab (or_introl Hba)).
      rewrite (is_connected_run _ _ _ _ (link_lookup_self _ _ _ _ Ha)).
      erewrite is_connected_run by (rewrite link_lookup_other; eauto).
      rewrite !bool_decide_eq_true_2; [|done|cbn; set_solver].
      repeat split. eexists. split; [by eapply link_logs|].
      split; [|discriminate].
      intros H. apply list_elem_of_singleton in H. congruence.
    + rewrite (bool_decide_eq_false_2 _ Hba).
      exists (link B A (link A B w)).
      rewrite (connect_full _ _ _ _ _ _ Ha Hb Hne Hab Hba).
      assert (Hb1 : heap (link A B w) !! B = Some pb)
        by (by rewrite link_lookup_other).
      pose proof (link_lookup_self _ _ B _ Ha) as Ha1.
      erewrite (is_connected_run _ A) by (rewrite link_lookup_other; eauto).
      rewrite (is_connected_run _ _ _ _ (link_lookup_self _ _ A _ Hb1)).
      rewrite !bool_decide_eq_true_2; [|cbn; set_solver..].
      repeat split. eexists. split.
      { rewrite (link_logs _ _ _ _ Hb1), (link_logs _ _ _ _ Ha), <- app_assoc. done. }
      split; [done|]. intros _. set_solver.
Qed.

(** C1. In a world where B lists A whenever A lists B, for distinct peers A
    and B the call A.connect(B) returns (a recursion budget of 2 is enough),
    afterwards A.is_connected(B) and B.is_connected(A) both return true, and
    the reciprocal B.connect(A), seen by its "Connecting to" log line, runs
    exactly when B did not list A. *)
Theorem connect_symmetric (fuel : nat) (w : World) (A B : peer_id) (pa pb : Peer) :
  A ≠ B ->
  heap w !! A = Some pa -> heap w !! B = Some pb ->
  (is_connected A B w = Ok true w -> is_connected B A w = Ok true w) ->
  2 ≤ fuel ->
  ∃ w', connect fuel A B w = Ok tt w'
      ∧ is_connected A B w' = Ok true w'
      ∧ is_connected B A w' = Ok true w'
      ∧ ∃ new, logs w' = logs w ++ new
          ∧ (mkLog (Some B) Info (LConnecting A) ∈ new
             ↔ is_connected B A w = Ok false w).
Proof. apply connect_outcome. Qed.

Lemma connect_symmetric_witness :
  ∃ w', connect 2 0 1 two_peers = Ok tt w'
      ∧ is_connected 0 1 w' = Ok true w'
      ∧ is_connected 1 0 w' = Ok true w'
      ∧ ∃ new, logs w' = logs two_peers ++ new
          ∧ (mkLog (Some 1) Info (LConnecting 0) ∈ new
             ↔ is_connected 1 0 two_peers = Ok false two_peers).
Proof.
  eapply (connect_symmetric 2 two_peers 0 1); [lia|reflexivity|reflexivity| |lia].
  vm_compute. discriminate.
Defined.




Lemma add_calls_nil (w : World) : add_calls [] w = w.
Proof. destruct w. unfold add_calls. cbn. by rewrite app_nil_r. Qed.

Lemma add_calls_cons (c : call) (cs : list call) (w : World) :
  add_calls cs (add_call c w) = add_calls (c :: cs) w.
Proof. unfold add_calls, add_call. cbn. by rewrite <- app_assoc. Qed.

Lemma for_each_emit {A} (f : A -> call) (l : list A) (w : World) :
  for_each l (fun x => emit (f x)) w = Ok tt (add_calls (map f l) w).
Proof.
  revert w. induction l as [|x l IH]; intros w; cbn [for_each map].
  - by rewrite add_calls_nil.
  - erewrite bind_Ok by reflexivity. by rewrite IH, add_calls_cons.
Qed.

Lemma unlink_lookup_self (w : World) (a b : peer_id) (p : Peer) :
  heap w !! a = Some p ->
  heap (unlink a b w) !! a = Some (set_connections (delete b (connections p)) p).
Proof. intros H. unfold unlink. rewrite H. cbn. by rewrite lookup_insert_eq. Qed.

Lemma unlink_lookup_other (w : World) (a b c : peer_id) :
  c ≠ a -> heap (unlink a b w) !! c = heap w !! c.
Proof.
  intros H. unfold unlink. destruct (heap w !! a); [|done].
  cbn. by rewrite lookup_insert_ne.
Qed.

Lemma unlink_calls (w : World) (a b : peer_id) : calls (unlink a b w) = calls w.
Proof. unfold unlink. by destruct (heap w !! a). Qed.

Lemma disconnect_unlisted (fuel : nat) (w : World) (a b : peer_id) (p : Peer) :
  heap w !! a = Some p -> b ∉ dom (connections p) ->
  disconnect (S fuel) a b w = Ok tt w.
Proof.
  intros Ha Hb. cbn [disconnect]. mstep.
  by rewrite bool_decide_eq_false_2.
Qed.

Lemma disconnect_half (fuel : nat) (w : World) (a b : peer_id) (pa pb : Peer) :
  heap w !! a = Some pa -> heap w !! b = Some pb ->
  b ∈ dom (connections pa) -> a ∉ dom (connections pb) ∨ a = b ->
  disconnect (S fuel) a b w
  = Ok tt (add_calls (fired a b pa) (unlink a b w)).
Proof.
  intros Ha Hb Hab Hba. cbn [disconnect]. mstep.
  rewrite bool_decide_eq_true_2 by done.
  do 2 mstep.
  assert (Hw : set_heap (<[a:=set_connections (delete b (connections pa)) pa]>
                 (heap (add_log (mkLog (Some a) Warning (LBreaking b)) w)))
                 (add_log (mkLog (Some a) Warning (LBreaking b)) w) = unlink a b w).
  { unfold unlink. by rewrite Ha. }
  rewrite Hw.
  destruct (decide (a = b)) as [->|Hne].
  - assert (pb = pa) as -> by congruence. clear Hba.
    erewrite bind_Ok
      by (eapply is_connected_run; by apply unlink_lookup_self).
    cbn [connections set_connections].
    rewrite bool_decide_eq_false_2 by set_solver.
    mstep. erewrite bind_Ok by (eapply get_peer_run; by apply unlink_lookup_self).
    apply for_each_emit.
  - destruct Hba as [Hin|Heq]; [|done].
    erewrite bind_Ok
      by (eapply is_connected_run; rewrite unlink_lookup_other; eauto).
    rewrite bool_decide_eq_false_2 by done.
    mstep. erewrite bind_Ok by (eapply get_peer_run; by apply unlink_lookup_self).
    apply for_each_emit.
Qed.

Lemma disconnect_full (fuel : nat) (w : World) (a b : peer_id) (pa pb : Peer) :
  heap w !! a = Some pa -> heap w !! b = Some pb -> a ≠ b ->
  b ∈ dom (connections pa) -> a ∈ dom (connections pb) ->
  disconnect (S (S fuel)) a b w
  = Ok tt (add_calls (fired a b pa)
            (add_calls (fired b a pb) (unlink b a (unlink a b w)))).
Proof.
  intros Ha Hb Hne Hab Hba.
  change (disconnect (S (S fuel)) a b) with
    (do c <- is_connected a b;
     if c then
       write_log (Some a) Warning (LBreaking b) ;;
       modify_peer a (fun p => set_connections (delete b (connections p)) p) ;;
       do c' <- is_connected b a;
       (if c' then disconnect (S fuel) b a else ret tt) ;;
       do ps <- get_peer a;
       for_each (disconnect_callbacks ps) (fun cb => emit (Callback cb a b))
     else ret tt).
  mstep. rewrite bool_decide_eq_true_2 by done.
  do 2 mstep.
  assert (Hw : set_heap (<[a:=set_connections (delete b (connections pa)) pa]>
                 (heap (add_log (mkLog (Some a) Warning (LBreaking b)) w)))
                 (add_log (mkLog (Some a) Warning (LBreaking b)) w) = unlink a b w).
  { unfold unlink. by rewrite Ha. }
  rewrite Hw.
  assert (Hb1 : heap (unlink a b w) !! b = Some pb)
    by (by rewrite unlink_lookup_other).
  pose proof (unlink_lookup_self _ _ b _ Ha) as Ha1.
  erewrite bind_Ok by (eapply is_connected_run; eauto).
  rewrite bool_decide_eq_true_2 by done.
  erewrite bind_Ok; cycle 1.
  { eapply (disconnect_half _ _ _ _ _ _ Hb1 Ha1 Hba).
    left. cbn. set_solver. }
  erewrite bind_Ok; cycle 1.
  { eapply get_peer_run. cbn [heap add_calls].
    rewrite unlink_lookup_other by done. exact Ha1. }
  apply for_each_emit.
Qed.

(** C2. For peers A and B with A listing B, A.disconnect(B) returns,
    afterwards both is_connected calls return false, and the calls made
    on callbacks are: the reciprocal side's own (none of them with
    arguments (A, B)), followed by one call with (A, B) for every entry of
    A's disconnect_callbacks, in order. *)
Theorem disconnect_symmetric (fuel : nat) (w : World) (A B : peer_id) (pa pb : Peer) :
  heap w !! A = Some pa -> heap w !! B = Some pb ->
  is_connected A B w = Ok true w ->
  2 ≤ fuel ->
  ∃ w', disconnect fuel A B w = Ok tt w'
      ∧ is_connected A B w' = Ok false w'
      ∧ is_connected B A w' = Ok false w'
      ∧ ∃ reciprocal,
          calls w' = calls w ++ reciprocal
                       ++ map (fun cb => Callback cb A B) (disconnect_callbacks pa)
          ∧ ∀ cb, Callback cb A B ∉ reciprocal.
Proof.
  intros Ha Hb Hab Hfuel.
  destruct fuel as [|[|fuel]]; [lia..|].
  rewrite (is_connected_run _ _ _ _ Ha) in Hab.
  injection Hab as Hab. apply bool_decide_eq_true in Hab.
  destruct (decide (A = B)) as [<-|Hne].
  { assert (pb = pa) as -> by congruence.
    eexists. rewrite (disconnect_half _ _ _ _ _ _ Ha Ha Hab (or_intror eq_refl)).
    split; [done|].
    pose proof (unlink_lookup_self _ _ A _ Ha) as Ha1.
    erewrite !is_connected_run by (cbn [heap add_calls]; exact Ha1).
    cbn [connections set_connections].
    rewrite bool_decide_eq_false_2 by set_solver.
    repeat split. exists []. split; [|intros cb H; by apply elem_of_nil in H].
    cbn [calls add_calls]. by rewrite unlink_calls. }
  destruct (decide (A ∈ dom (connections pb))) as [Hba|Hba].
  - eexists. rewrite (disconnect_full _ _ _ _ _ _ Ha Hb Hne Hab Hba).
    split; [done|].
    assert (Hb1 : heap (unlink A B w) !! B = Some pb)
      by (by rewrite unlink_lookup_other).
    pose proof (unlink_lookup_self _ _ B _ Ha) as Ha1.
    erewrite (is_connected_run _ A)
      by (cbn [heap add_calls]; rewrite unlink_lookup_other by done; exact Ha1).
    erewrite (is_connected_run _ B)
      by (cbn [heap add_calls]; by apply unlink_lookup_self).
    cbn [connections set_connections].
    rewrite !bool_decide_eq_false_2 by set_solver.
    repeat split. exists (fired B A pb). split.
    + cbn [calls add_calls]. rewrite !unlink_calls. by rewrite <- app_assoc.
    + intros cb H. unfold fired in H. apply list_elem_of_fmap in H.
      destruct H as (cb' & Heq & _). congruence.
  - eexists. rewrite (disconnect_half _ _ _ _ _ _ Ha Hb Hab (or_introl Hba)).
    split; [done|].
    pose proof (unlink_lookup_self _ _ B _ Ha) as Ha1.
    erewrite (is_connected_run _ A) by (cbn [heap add_calls]; exact Ha1).
    erewrite (is_connected_run _ B)
      by (cbn [heap add_calls]; rewrite unlink_lookup_other by done; exact Hb).
    cbn [connections set_connections].
    rewrite !bool_decide_eq_false_2 by set_solver.
    repeat split. exists []. split; [|intros cb H; by apply elem_of_nil in H].
    cbn [calls add_calls]. by rewrite unlink_calls.
Qed.



Lemma disconnect_symmetric_witness :
  ∃ w', disconnect 2 0 1 linked_peers = Ok tt w'
      ∧ is_connected 0 1 w' = Ok false w'
      ∧ is_connected 1 0 w' = Ok false w'
      ∧ ∃ reciprocal,
          calls w' = calls linked_peers ++ reciprocal
                       ++ map (fun cb => Callback cb 0 1)
                            (disconnect_callbacks (peer_at linked_peers 0))
          ∧ ∀ cb, Callback cb 0 1 ∉ reciprocal.
Proof.
  apply (disconnect_symmetric 2 linked_peers 0 1
           (peer_at linked_peers 0) (peer_at linked_peers 1));
    [vm_compute; reflexivity..|lia].
Defined.

Lemma map_to_list_one_entry {A} (m : gmap nat A) (k : nat) (v : A) :
  m !! k = Some v ->
  length (filter (fun kv => kv.1 = k) (map_to_list m)) = 1.
Proof.
  intros H.
  rewrite <- (insert_delete_id m k v H).
  rewrite map_to_list_insert by apply lookup_delete_eq.
  rewrite filter_cons_True by done.
  assert (filter (fun kv : nat * A => kv.1 = k) (map_to_list (delete k m)) = []) as ->;
    [|done].
  apply elem_of_nil_inv. intros [k' v'] Hin.
  apply list_elem_of_filter in Hin as [Hk Hin]. cbn in Hk. subst k'.
  apply elem_of_map_to_list in Hin. by rewrite lookup_delete_eq in Hin.
Qed.

(** C3. For distinct peers A and B (in a world where B lists A whenever A
    lists B) a second A.connect(B) returns without changing anything, and
    each of the two connections mappings holds exactly one entry for the
    other peer; and when A does not list B, A.disconnect(B) returns with the
    world unchanged: no mapping modified, no callback called. *)
Theorem connect_disconnect_idempotent (fuel fuel' : nat) (w : World)
    (A B : peer_id) (pa pb : Peer) :
  A ≠ B ->
  heap w !! A = Some pa -> heap w !! B = Some pb ->
  2 ≤ fuel -> 1 ≤ fuel' ->
  ((is_connected A B w = Ok true w -> is_connected B A w = Ok true w) ->
   ∃ w1 pa1 pb1,
     connect fuel A B w = Ok tt w1
     ∧ connect fuel' A B w1 = Ok tt w1
     ∧ heap w1 !! A = Some pa1 ∧ heap w1 !! B = Some pb1
     ∧ length (filter (fun kv => kv.1 = B) (map_to_list (connections pa1))) = 1
     ∧ length (filter (fun kv => kv.1 = A) (map_to_list (connections pb1))) = 1)
  ∧ (is_connected A B w = Ok false w -> disconnect fuel' A B w = Ok tt w).
Proof.
  intros Hne Ha Hb Hfuel Hfuel'. split.
  - intros Hrec.
    destruct (connect_outcome fuel w A B pa pb Hne Ha Hb Hrec Hfuel)
      as (w1 & Hc & Hab & Hba & _).
    unfold is_connected, bind, get_peer, ret in Hab, Hba.
    destruct (heap w1 !! A) as [pa1|] eqn:Ha1; [|done].
    destruct (heap w1 !! B) as [pb1|] eqn:Hb1; [|done].
    injection Hab as Hab. injection Hba as Hba.
    apply bool_decide_eq_true in Hab, Hba.
    exists w1, pa1, pb1. split; [done|].
    destruct fuel' as [|fuel']; [lia|].
    rewrite (connect_listed _ _ _ _ _ Ha1 Hab).
    apply elem_of_dom in Hab as [ca Hca], Hba as [cb Hcb].
    repeat split; first [done | by eapply map_to_list_one_entry].
  - intros Hab. destruct fuel' as [|fuel']; [lia|].
    rewrite (is_connected_run _ _ _ _ Ha) in Hab.
    injection Hab as Hab. apply bool_decide_eq_false in Hab.
    by eapply disconnect_unlisted.
Qed.

Lemma connect_disconnect_idempotent_witness :
  (∃ w1 pa1 pb1,
     connect 2 0 1 two_peers = Ok tt w1
     ∧ connect 1 0 1 w1 = Ok tt w1
     ∧ heap w1 !! 0 = Some pa1 ∧ heap w1 !! 1 = Some pb1
     ∧ length (filter (fun kv => kv.1 = 1) (map_to_list (connections pa1))) = 1
     ∧ length (filter (fun kv => kv.1 = 0) (map_to_list (connections pb1))) = 1)
  ∧ disconnect 1 0 1 two_peers = Ok tt two_peers.
Proof.
  destruct (connect_disconnect_idempotent 2 1 two_peers 0 1 _ _
              ltac:(lia) eq_refl eq_refl ltac:(lia) ltac:(lia)) as [H1 H2].
  split.
  - apply H1. vm_compute. discriminate.
  - apply H2. reflexivity.
Defined.


(** C10. p.bootstrap_connect(other) returns and leaves every peer as it
    was, so both is_connected calls answer as before; what it does is build
    one Connection(p, other) and call its send once, with a Hello whose
    sender is p and with connect=True. *)
Theorem bootstrap_connect_frame (w : World) (p other : peer_id) :
  ∃ w', bootstrap_connect p other w = Ok tt w'
      ∧ heap w' = heap w
      ∧ value_of (is_connected p other w') = value_of (is_connected p other w)
      ∧ value_of (is_connected other p w') = value_of (is_connected other p w)
      ∧ calls w' = calls w ++ [CnxSend (mkConnection (next_cnx w) p other) (Hello p) true]
      ∧ msg_sender (Hello p) = p
      ∧ next_cnx w' = S (next_cnx w)
      ∧ logs w' = logs w ∧ rng w' = rng w.
Proof.
  eexists. split; [reflexivity|].
  cbn [heap calls logs rng next_cnx add_call bump_cnx].
  repeat split; unfold is_connected, bind, get_peer, ret;
    cbn [heap add_call bump_cnx]; by destruct (heap w !! _).
Qed.

(** ** Errors *)

(** C6. On a live peer each fatal condition raises: receive of an object
    that is not a message (AssertionError), receive of a message whose type
    has no entry in mh_map, send of a message whose sender is another peer
    (AssertionError), send to a receiver that is not a key of connections,
    store under a name with no storage; and store under a registered name
    calls that storage's add, once, with the same id and value. *)
Theorem fatal_conditions_raise (w : World) (p : peer_id) (pp : Peer) :
  heap w !! p = Some pp ->
  (∀ n, receive p (PObj n) w = Raise AssertionError w)
  ∧ (∀ m, mh_map pp !! msg_type m = None ->
       receive p (PMsg m) w
       = Raise (PyException "No handler for the message %s")
           (add_log (mkLog (Some p) Error (LNoHandler (msg_type m)))
              (add_log (mkLog (Some p) Info (LReceived (msg_type m))) w)))
  ∧ (∀ r m, msg_sender m ≠ p -> send p r m w = Raise AssertionError w)
  ∧ (∀ r m, connections pp !! r = None ->
       ∃ e w', send p r m w = Raise e w' ∧ heap w' = heap w ∧ calls w' = calls w)
  ∧ (∀ r m, msg_sender m = p -> connections pp !! r = None ->
       send p r m w
       = Raise (PyException "Not connected")
           (add_log (mkLog (Some p) Error (LNotConnected r)) w))
  ∧ (∀ nm id v, storage pp !! nm = None ->
       store p nm id v w
       = Raise (PyException "No storage %s found")
           (add_log (mkLog (Some p) Error (LNoStorage nm)) w))
  ∧ (∀ nm id v st, storage pp !! nm = Some st ->
       store p nm id v w = Ok tt (add_call (StorageAdd p st id v) w)).
Proof.
  intros Hp. repeat split.
  - intros n. unfold receive. by mstep.
  - intros m Hm. unfold receive. do 3 mstep. rewrite Hm. by mstep.
  - intros r m Hs. unfold send. mstep.
    by rewrite bool_decide_eq_false_2.
  - intros r m Hr. unfold send. mstep.
    destruct (bool_decide (msg_sender m = p)); cbn [negb].
    + rewrite Hr. mstep. by eexists _, _.
    + by eexists _, _.
  - intros r m Hs Hr. unfold send. mstep.
    rewrite bool_decide_eq_true_2 by done. cbn [negb]. rewrite Hr. by mstep.
  - intros nm id v Hs. unfold store. mstep. rewrite Hs. by mstep.
  - intros nm id v st Hs. unfold store. mstep. by rewrite Hs.
Qed.

Lemma fatal_conditions_raise_witness :
  (∀ n, receive 0 (PObj n) two_peers = Raise AssertionError two_peers)
  ∧ (∀ m, mh_map (peer_at two_peers 0) !! msg_type m = None ->
       receive 0 (PMsg m) two_peers
       = Raise (PyException "No handler for the message %s")
           (add_log (mkLog (Some 0) Error (LNoHandler (msg_type m)))
              (add_log (mkLog (Some 0) Info (LReceived (msg_type m))) two_peers)))
  ∧ (∀ r m, msg_sender m ≠ 0 -> send 0 r m two_peers = Raise AssertionError two_peers)
  ∧ (∀ r m, connections (peer_at two_peers 0) !! r = None ->
       ∃ e w', send 0 r m two_peers = Raise e w'
               ∧ heap w' = heap two_peers ∧ calls w' = calls two_peers)
  ∧ (∀ r m, msg_sender m = 0 -> connections (peer_at two_peers 0) !! r = None ->
       send 0 r m two_peers
       = Raise (PyException "Not connected")
           (add_log (mkLog (Some 0) Error (LNotConnected r)) two_peers))
  ∧ (∀ nm id v, storage (peer_at two_peers 0) !! nm = None ->
       store 0 nm id v two_peers
       = Raise (PyException "No storage %s found")
           (add_log (mkLog (Some 0) Error (LNoStorage nm)) two_peers))
  ∧ (∀ nm id v st, storage (peer_at two_peers 0) !! nm = Some st ->
       store 0 nm id v two_peers = Ok tt (add_call (StorageAdd 0 st id v) two_peers)).
Proof.
  apply (fatal_conditions_raise two_peers 0 (peer_at two_peers 0)).
  vm_compute. reflexivity.
Defined.

(** ** Gossip *)

Lemma sample_step_perm {A} (pool : list A) (j : nat) (x y : A) :
  pool !! j = Some x -> last pool = Some y ->
  x :: removelast (<[j := y]> pool) ≡ₚ pool.
Proof.
  intros Hj Hl.
  destruct (last_Some pool y) as [[init Hinit] _]; [done|]. subst pool.
  destruct (decide (j = length init)) as [->|Hne].
  - rewrite list_lookup_middle in Hj by done. injection Hj as <-.
    rewrite insert_app_r_alt by lia. rewrite Nat.sub_diag. cbn [insert list_insert].
    rewrite removelast_last. by rewrite Permutation_app_comm.
  - assert (j < length init).
    { apply lookup_lt_Some in Hj. rewrite length_app in Hj. cbn in Hj. lia. }
    rewrite lookup_app_l in Hj by done.
    rewrite insert_app_l by done. rewrite removelast_last.
    apply list_elem_of_split_length in Hj as (l1 & l2 & -> & ->).
    rewrite insert_app_r_alt by lia. rewrite Nat.sub_diag. cbn [insert list_insert].
    rewrite <- !app_assoc. cbn [app].
    rewrite <- (Permutation_middle l1 (l2 ++ [y]) x). apply Permutation_skip.
    apply Permutation_app_head, Permutation_cons_append.
Qed.

Lemma sample_pool_spec {A} (k : nat) (pool : list A) (w : World) :
  k ≤ length pool ->
  ∃ res rest r,
    sample_pool pool k w = Ok res (set_rng r w)
    ∧ length res = k ∧ res ++ rest ≡ₚ pool.
Proof.
  revert pool w. induction k as [|k IH]; intros pool w Hk.
  - exists [], pool, (rng w). split; [by destruct w|done].
  - cbn [sample_pool]. erewrite bind_Ok by reflexivity.
    set (j := match rng w with [] => 0 | r :: _ => r `mod` length pool end).
    assert (Hj : j < length pool).
    { subst j. destruct (rng w); [lia|]. apply Nat.mod_upper_bound. lia. }
    destruct (lookup_lt_is_Some_2 pool j Hj) as [x Hx].
    destruct (last pool) as [y|] eqn:Hy;
      [|apply last_None in Hy; subst pool; cbn in Hk; lia].
    rewrite Hx.
    pose proof (sample_step_perm pool j x y Hx Hy) as Hperm.
    assert (Hlen : k ≤ length (removelast (<[j := y]> pool))).
    { apply Permutation_length in Hperm. cbn in Hperm. lia. }
    destruct (IH _ (set_rng (tail (rng w)) w) Hlen) as (res & rest & r & Hs & Hl & Hp).
    exists (x :: res), rest, r.
    erewrite bind_Ok by exact Hs. split; [done|]. split.
    + cbn. by rewrite Hl.
    + cbn. by rewrite Hp.
Qed.

Lemma for_each_send (w : World) (p : peer_id) (pp : Peer) (m : Message)
    (targets : list peer_id) :
  heap w !! p = Some pp -> msg_sender m = p ->
  Forall (fun t => t ∈ dom (connections pp)) targets ->
  ∃ cnxs,
    Forall2 (fun t c => connections pp !! t = Some c) targets cnxs
    ∧ for_each targets (fun other => send p other m) w
      = Ok tt (add_calls (map (fun c => CnxSend c m false) cnxs) w).
Proof.
  intros Hp Hs. revert w Hp.
  induction targets as [|t targets IH]; intros w Hp Hall.
  - exists []. split; [constructor|]. cbn. by rewrite add_calls_nil.
  - inversion Hall as [|? ? Ht Hrest]; subst.
    apply elem_of_dom in Ht as [c Hc].
    destruct (IH (add_call (CnxSend c m false) w) Hp Hrest) as (cnxs & HF & Hrun).
    exists (c :: cnxs). split; [by constructor|].
    cbn [for_each map]. erewrite bind_Ok; cycle 1.
    { unfold send. mstep. rewrite bool_decide_eq_true_2 by done. cbn [negb].
      rewrite Hc. reflexivity. }
    by rewrite Hrun, add_calls_cons.
Qed.

(** C4. For a live peer p, a message m whose sender is p, a fanout f >= 0
    and an exclusion set E (the empty set when omitted), gossip returns
    having called send once for each of min(f, |keys(connections) \ E|)
    pairwise distinct peers, all of them keys of connections outside E, on
    the connection stored for that peer; nothing else is called and no peer
    is modified. *)
Theorem gossip_fanout (w : World) (p : peer_id) (pp : Peer) (m : Message)
    (f : Z) (E : option (gset nat)) :
  heap w !! p = Some pp -> msg_sender m = p -> (0 ≤ f)%Z ->
  ∃ w' targets cnxs,
    gossip p m f E w = Ok tt w'
    ∧ calls w' = calls w ++ map (fun c => CnxSend c m false) cnxs
    ∧ Forall2 (fun t c => connections pp !! t = Some c) targets cnxs
    ∧ NoDup targets
    ∧ Z.of_nat (length targets)
      = Z.min f (Z.of_nat (size (dom (connections pp) ∖ default ∅ E)))
    ∧ (∀ t, t ∈ targets -> t ∈ dom (connections pp) ∧ t ∉ default ∅ E)
    ∧ heap w' = heap w
    ∧ gossip p m f None w = gossip p m f (Some ∅) w.
Proof.
  intros Hp Hs Hf.
  set (cands := dom (connections pp) ∖ default ∅ E).
  assert (Hk : Z.to_nat (Z.min f (Z.of_nat (size cands))) ≤ length (elements cands)).
  { change (size cands) with (length (elements cands)). lia. }
  destruct (sample_pool_spec _ (elements cands) w Hk) as (res & rest & r & Hrun & Hlen & Hperm).
  assert (Hnd : NoDup (res ++ rest)) by (rewrite Hperm; apply NoDup_elements).
  assert (Hin : ∀ t, t ∈ res -> t ∈ cands).
  { intros t Ht. apply elem_of_elements. rewrite <- Hperm.
    apply elem_of_app. by left. }
  assert (Hp' : heap (set_rng r w) !! p = Some pp) by done.
  destruct (for_each_send (set_rng r w) p pp m res Hp' Hs) as (cnxs & HF & Hsend).
  { apply Forall_forall. intros t Ht. apply Hin in Ht. set_solver. }
  exists (add_calls (map (fun c => CnxSend c m false) cnxs) (set_rng r w)), res, cnxs.
  split.
  { unfold gossip. mstep.
    replace (match E with Some s => s | None => ∅ end) with (default ∅ E)
      by (by destruct E).
    fold cands. erewrite bind_Ok; [exact Hsend|].
    unfold random_sample. rewrite bool_decide_eq_true_2; [exact Hrun|].
    change (size cands) with (length (elements cands)). lia. }
  split; [done|]. split; [done|].
  split; [by apply NoDup_app in Hnd as [? _]|].
  split; [fold cands; change (size cands) with (length (elements cands)) in *; lia|].
  split; [intros t Ht; apply Hin in Ht; set_solver|].
  done.
Qed.

(** ** A small program logic for method bodies *)

Section WP.
Context {A B : Type} (stuck_ok : Prop).
Implicit Types (Q : A -> World -> Prop) (R : World -> Prop) (w : World).

Lemma wp_bind (m : M A) (k : A -> M B) (Q' : B -> World -> Prop) R w :
  wp stuck_ok m (fun a w' => wp stuck_ok (k a) Q' R w') R w -> wp stuck_ok (bind m k) Q' R w.
Proof. unfold wp, bind. by destruct (m w). Qed.

Lemma wp_ret (a : A) Q R w : Q a w -> wp stuck_ok (ret a) Q R w.
Proof. done. Qed.

Lemma wp_raise (e : exn) Q R w : R w -> wp stuck_ok (raise e) Q R w.
Proof. done. Qed.

Lemma wp_mono (m : M A) Q Q' R R' w :
  wp stuck_ok m Q R w -> (∀ a w', Q a w' -> Q' a w') -> (∀ w', R w' -> R' w') ->
  wp stuck_ok m Q' R' w.
Proof. unfold wp. destruct (m w); auto. Qed.

Lemma wp_get_peer (a : peer_id) (Q : Peer -> World -> Prop) R w :
  (heap w !! a = None -> stuck_ok) ->
  (∀ p, heap w !! a = Some p -> Q p w) -> wp stuck_ok (get_peer a) Q R w.
Proof. unfold wp, get_peer. destruct (heap w !! a); auto. Qed.

Lemma wp_modify_peer (a : peer_id) (f : Peer -> Peer) (Q : unit -> World -> Prop) R w :
  (heap w !! a = None -> stuck_ok) ->
  (∀ p, heap w !! a = Some p -> Q tt (set_heap (<[a := f p]> (heap w)) w)) ->
  wp stuck_ok (modify_peer a f) Q R w.
Proof. unfold wp, modify_peer. destruct (heap w !! a); auto. Qed.

End WP.

Lemma wp_for_each {A} (stuck_ok : Prop) (I : World -> Prop) (l : list A)
    (body : A -> M unit) (Q : unit -> World -> Prop) (R : World -> Prop) (w : World) :
  I w ->
  (∀ x w', x ∈ l -> I w' -> wp stuck_ok (body x) (fun _ => I) R w') ->
  (∀ w', I w' -> Q tt w') ->
  wp stuck_ok (for_each l body) Q R w.
Proof.
  intros HI Hbody HQ. revert w HI.
  induction l as [|x l IH]; intros w HI; cbn [for_each].
  - by apply wp_ret, HQ.
  - apply wp_bind. eapply wp_mono; [apply (Hbody x); [by left|done]| |done].
    intros [] w' HI'. apply IH; [|done].
    intros y w'' Hy. apply Hbody. by right.
Qed.

Lemma wp_fold_m {A B} (stuck_ok : Prop) (I : World -> Prop) (f : B -> A -> M B)
    (l : list A) (s : B) (Q : B -> World -> Prop) (R : World -> Prop) (w : World) :
  I w ->
  (∀ s' x w', x ∈ l -> I w' -> wp stuck_ok (f s' x) (fun _ => I) R w') ->
  (∀ s' w', I w' -> Q s' w') ->
  wp stuck_ok (fold_m f l s) Q R w.
Proof.
  intros HI Hbody HQ. revert s w HI.
  induction l as [|x l IH]; intros s w HI; cbn [fold_m].
  - by apply wp_ret, HQ.
  - apply wp_bind. eapply wp_mono; [apply (Hbody s x); [by left|done]| |done].
    intros s' w' HI'. apply IH; [|done].
    intros s'' y w'' Hy. apply Hbody. by right.
Qed.


(** *** Bodies that write to no peer *)

Section KeepsHeap.
Context (D : gset nat).

Lemma keeps_heap_bind {A B} (m : M A) (k : A -> M B) :
  keeps_heap D m -> (∀ a, keeps_heap D (k a)) -> keeps_heap D (bind m k).
Proof.
  intros Hm Hk w HD. apply wp_bind. eapply wp_mono; [by apply Hm| |done].
  intros a w' Hw'. cbn beta.
  eapply wp_mono; [apply Hk; by rewrite Hw'|..]; cbn; intros; congruence.
Qed.

Lemma keeps_heap_ret {A} (a : A) : keeps_heap D (ret a).
Proof. by intros w. Qed.

Lemma keeps_heap_raise {A} (e : exn) : keeps_heap D (@raise A e).
Proof. by intros w. Qed.

Lemma keeps_heap_get_peer (a : peer_id) : a ∈ D -> keeps_heap D (get_peer a).
Proof.
  intros Ha w HD. apply wp_get_peer; [|done].
  intros Hn. apply not_elem_of_dom in Hn. set_solver.
Qed.

Lemma keeps_heap_write_log p l t : keeps_heap D (write_log p l t).
Proof. by intros w. Qed.

Lemma keeps_heap_emit c : keeps_heap D (emit c).
Proof. by intros w. Qed.

Lemma keeps_heap_new_connection a b : keeps_heap D (new_connection a b).
Proof. by intros w. Qed.

Lemma keeps_heap_randbelow n : keeps_heap D (randbelow n).
Proof. by intros w. Qed.

Lemma keeps_heap_get_sim : keeps_heap D get_sim.
Proof. by intros w. Qed.

Lemma keeps_heap_put_sim s : keeps_heap D (put_sim s).
Proof. by intros w. Qed.

Lemma keeps_heap_for_each {A} (l : list A) (body : A -> M unit) :
  (∀ x, keeps_heap D (body x)) -> keeps_heap D (for_each l body).
Proof.
  intros Hbody. induction l as [|x l IH]; cbn [for_each].
  - apply keeps_heap_ret.
  - apply keeps_heap_bind; [apply Hbody|done].
Qed.

Lemma keeps_heap_fold_m {A S} (f : S -> A -> M S) (l : list A) (s : S) :
  (∀ s' x, keeps_heap D (f s' x)) -> keeps_heap D (fold_m f l s).
Proof.
  intros Hbody. revert s. induction l as [|x l IH]; intros s; cbn [fold_m].
  - apply keeps_heap_ret.
  - apply keeps_heap_bind; [apply Hbody|done].
Qed.
End KeepsHeap.

Ltac keeps_heap_step :=
  first
    [ apply keeps_heap_ret | apply keeps_heap_raise
    | apply keeps_heap_get_peer; set_solver
    | apply keeps_heap_write_log | apply keeps_heap_emit
    | apply keeps_heap_new_connection | apply keeps_heap_randbelow
    | apply keeps_heap_get_sim | apply keeps_heap_put_sim
    | apply keeps_heap_bind; [|intros ?]
    | apply keeps_heap_for_each; intros ?
    | apply keeps_heap_fold_m; intros ? ?
    | match goal with
      | |- keeps_heap _ (if ?b then _ else _) => destruct b
      | |- keeps_heap _ (match ?x with _ => _ end) => destruct x
      end ].

Lemma keeps_heap_is_connected a b : keeps_heap {[a]} (is_connected a b).
Proof. unfold is_connected. repeat keeps_heap_step. Qed.

Lemma keeps_heap_bootstrap_connect a b : keeps_heap ∅ (bootstrap_connect a b).
Proof. unfold bootstrap_connect. repeat keeps_heap_step. Qed.

Lemma keeps_heap_send a r m : keeps_heap {[a]} (send a r m).
Proof. unfold send. repeat keeps_heap_step. Qed.

Lemma keeps_heap_receive a msg : keeps_heap {[a]} (receive a msg).
Proof. unfold receive. repeat keeps_heap_step. Qed.

Lemma keeps_heap_sample_pool {A} D (pool : list A) (k : nat) :
  keeps_heap D (sample_pool pool k).
Proof.
  revert pool. induction k as [|k IH]; intros pool; cbn [sample_pool].
  - apply keeps_heap_ret.
  - apply keeps_heap_bind; [apply keeps_heap_randbelow|intros j].
    destruct (pool !! j); [|apply keeps_heap_raise].
    destruct (last pool); [|apply keeps_heap_raise].
    apply keeps_heap_bind; [apply IH|intros ?; apply keeps_heap_ret].
Qed.

Lemma keeps_heap_random_sample {A} D (population : list A) (k : Z) :
  keeps_heap D (random_sample population k).
Proof.
  unfold random_sample. case_bool_decide;
    [apply keeps_heap_sample_pool|apply keeps_heap_raise].
Qed.

Lemma keeps_heap_gossip a m f E : keeps_heap {[a]} (gossip a m f E).
Proof.
  unfold gossip. apply keeps_heap_bind; [keeps_heap_step|intros ps].
  apply keeps_heap_bind; [apply keeps_heap_random_sample|intros chosen].
  apply keeps_heap_for_each. intros ?. apply keeps_heap_send.
Qed.

Lemma keeps_heap_broadcast a m : keeps_heap {[a]} (broadcast a m).
Proof.
  unfold broadcast. apply keeps_heap_bind; [keeps_heap_step|intros ps].
  apply keeps_heap_for_each. intros ?. apply keeps_heap_send.
Qed.

Lemma keeps_heap_start_all_runners a : keeps_heap {[a]} (start_all_runners a).
Proof. unfold start_all_runners. repeat keeps_heap_step. Qed.

Lemma keeps_heap_store a nm id v : keeps_heap {[a]} (store a nm id v).
Proof. unfold store. repeat keeps_heap_step. Qed.

(** ** Service registration *)

Lemma set_heap_set_heap (h1 h2 : gmap nat Peer) (w : World) :
  set_heap h2 (set_heap h1 w) = set_heap h2 w.
Proof. reflexivity. Qed.

Lemma set_heap_id (w : World) (a : peer_id) (p : Peer) :
  heap w !! a = Some p -> set_heap (<[a := p]> (heap w)) w = w.
Proof. intros H. destruct w. unfold set_heap. cbn in *. by rewrite insert_id. Qed.

Lemma set_mh_map_id (p : Peer) : set_mh_map (mh_map p) p = p.
Proof. by destruct p. Qed.

Lemma add_service_routes (w : World) (a : peer_id) (n : string) (msgs : list string)
    (p : Peer) :
  heap w !! a = Some p ->
  for_each msgs (fun m =>
    do ps <- get_peer a;
    (if negb (bool_decide (m ∈ dom (mh_map ps))) then
       modify_peer a (fun p => set_mh_map (<[m := ∅]> (mh_map p)) p)
     else ret tt) ;;
    do ps' <- get_peer a;
    match mh_map ps' !! m with
    | Some s => modify_peer a (fun p => set_mh_map (<[m := s ∪ {[n]}]> (mh_map p)) p)
    | None => raise KeyError
    end) w
  = Ok tt (set_heap (<[a := set_mh_map (foldl (route n) (mh_map p) msgs) p]> (heap w)) w).
Proof.
  revert w p. induction msgs as [|m msgs IH]; intros w p Hp; cbn [for_each foldl].
  - by rewrite set_mh_map_id, set_heap_id.
  - destruct (mh_map p !! m) as [s|] eqn:Hm.
    + erewrite bind_Ok; cycle 1.
      { mstep. rewrite bool_decide_eq_true_2 by (apply elem_of_dom; eauto).
        cbn [negb]. do 2 mstep. rewrite Hm.
        eapply modify_peer_run. exact Hp. }
      erewrite IH by (cbn [heap set_heap]; apply lookup_insert_eq).
      change (route n (mh_map p) m)
        with (<[m := default ∅ (mh_map p !! m) ∪ {[n]}]> (mh_map p)).
      rewrite Hm.
      cbn [default heap set_heap mh_map set_mh_map].
      by rewrite insert_insert_eq.
    + erewrite bind_Ok; cycle 1.
      { mstep. rewrite bool_decide_eq_false_2 by (by apply not_elem_of_dom).
        cbn [negb]. do 2 mstep. cbn [mh_map set_mh_map]. rewrite lookup_insert_eq.
        eapply modify_peer_run. heap_lookup. }
      erewrite IH by (cbn [heap set_heap]; apply lookup_insert_eq).
      change (route n (mh_map p) m)
        with (<[m := default ∅ (mh_map p !! m) ∪ {[n]}]> (mh_map p)).
      rewrite Hm.
      cbn [default heap set_heap mh_map set_mh_map].
      by rewrite !insert_insert_eq.
Qed.

Lemma add_service_run (w : World) (a : peer_id) (s : Service) (p : Peer) :
  heap w !! a = Some p ->
  add_service a s w = Ok tt (set_heap (<[a := register s p]> (heap w)) w).
Proof.
  intros Hp. unfold add_service, register. mstep.
  destruct (svc_handler s).
  - erewrite bind_Ok; cycle 1.
    { mstep. eapply add_service_routes. heap_lookup. }
    cbn [heap set_heap mh_map set_mh_map set_handlers]. rewrite insert_insert_eq.
    destruct (svc_runner s).
    + erewrite modify_peer_run by heap_lookup.
      cbn [heap set_heap]. by rewrite insert_insert_eq.
    + reflexivity.
  - mstep. destruct (svc_runner s).
    + by erewrite modify_peer_run by heap_lookup.
    + cbn. by rewrite set_heap_id.
Qed.

Lemma add_service_dangling (w : World) (a : peer_id) (s : Service) :
  heap w !! a = None -> add_service a s w = Stuck.
Proof. intros H. unfold add_service, bind, get_peer. by rewrite H. Qed.

Lemma foldl_route_lookup (n : string) (msgs : list string)
    (mh : gmap string (gset string)) (m : string) :
  foldl (route n) mh msgs !! m
  = if bool_decide (m ∈ msgs) then Some (default ∅ (mh !! m) ∪ {[n]}) else mh !! m.
Proof.
  revert mh. induction msgs as [|m' msgs IH]; intros mh; cbn [foldl].
  - by rewrite bool_decide_eq_false_2 by apply not_elem_of_nil.
  - rewrite IH. unfold route.
    destruct (decide (m = m')) as [->|Hne].
    + rewrite lookup_insert_eq. cbn [default].
      rewrite (bool_decide_eq_true_2 (m' ∈ m' :: msgs)) by (by left).
      case_bool_decide; [f_equal; set_solver|done].
    + rewrite lookup_insert_ne by done.
      case_bool_decide as H1; case_bool_decide as H2; try done.
      * exfalso. apply H2. by right.
      * exfalso. apply elem_of_cons in H2 as [?|?]; done.
Qed.

Lemma register_routes_registered (s : Service) (p : Peer) :
  routes_registered p -> routes_registered (register s p).
Proof.
  intros HJ. unfold register.
  assert (Hh : routes_registered
    (if svc_handler s then
       set_mh_map (foldl (route (svc_class s)) (mh_map p) (svc_messages s))
         (set_handlers (<[svc_class s := s]> (handlers p)) p)
     else p)).
  { destruct (svc_handler s); [|done].
    intros m ids n. cbn [mh_map handlers set_mh_map set_handlers].
    rewrite foldl_route_lookup, dom_insert_L.
    case_bool_decide.
    - intros [= <-] Hn. apply elem_of_union in Hn as [Hn|Hn]; [|set_solver].
      destruct (mh_map p !! m) as [ids|] eqn:Hm; [|set_solver].
      apply elem_of_union_r. by eapply HJ.
    - intros Hm Hn. apply elem_of_union_r. by eapply HJ. }
  by destruct (svc_runner s).
Qed.

Lemma register_handlers_routed (s : Service) (p : Peer) :
  handlers_routed p -> handlers_routed (register s p).
Proof.
  intros HJ. unfold register.
  assert (Hh : handlers_routed
    (if svc_handler s then
       set_mh_map (foldl (route (svc_class s)) (mh_map p) (svc_messages s))
         (set_handlers (<[svc_class s := s]> (handlers p)) p)
     else p)).
  { destruct (svc_handler s); [|done].
    intros n s'. cbn [mh_map handlers set_mh_map set_handlers].
    destruct (decide (n = svc_class s)) as [->|Hne].
    - rewrite lookup_insert_eq. intros [= <-]. split; [done|].
      intros m Hm. rewrite foldl_route_lookup, bool_decide_eq_true_2 by done.
      eexists. split; [done|]. set_solver.
    - rewrite lookup_insert_ne by done. intros Hs'.
      destruct (HJ n s' Hs') as [Hc Hr]. split; [done|].
      intros m Hm. destruct (Hr m Hm) as (ids & Hids & Hn).
      rewrite foldl_route_lookup, Hids. case_bool_decide.
      + eexists. split; [done|]. cbn. set_solver.
      + eauto. }
  by destruct (svc_runner s).
Qed.

(** ** Invariants of the peers *)

Lemma bind_get_peer_dangling {A} (a : peer_id) (k : Peer -> M A) (w : World) :
  heap w !! a = None -> bind (get_peer a) k w = Stuck.
Proof. intros H. unfold bind, get_peer. by rewrite H. Qed.

Lemma keeps_heap_after {A} (D : gset nat) (m : M A) (w : World) :
  keeps_heap D m -> D ⊆ dom (heap w) -> heap (after m w) = heap w.
Proof.
  intros Hm HD. specialize (Hm w HD). unfold wp in Hm. unfold after.
  by destruct (m w).
Qed.

Lemma singleton_live (w : World) (a : peer_id) (p : Peer) :
  heap w !! a = Some p -> ({[a]} : gset nat) ⊆ dom (heap w).
Proof. intros H. apply singleton_subseteq_l, elem_of_dom. eauto. Qed.

(** The operations that write to no peer leave the heap as it is. *)
Lemma run_op_frame (fuel : nat) (o : op) (w : World) :
  match o with
  | OpIsConnected _ _ | OpBootstrapConnect _ _ | OpReceive _ _ | OpSend _ _ _
  | OpGossip _ _ _ _ | OpBroadcast _ _ | OpStartAllRunners _ | OpStore _ _ _ _ =>
      heap (after (run_op fuel o) w) = heap w
  | _ => True
  end.
Proof.
  destruct o as [| a b | a b | | | a msg | a r m | a m f E | a m | | a | a nm id v | |];
    try exact I; cbn [run_op].
  - destruct (heap w !! a) as [p|] eqn:Hp.
    + eapply (keeps_heap_after {[a]}); [|by eapply singleton_live].
      apply keeps_heap_bind; [apply keeps_heap_is_connected|intros; apply keeps_heap_ret].
    + unfold after, is_connected, bind, get_peer. by rewrite Hp.
  - eapply (keeps_heap_after ∅); [apply keeps_heap_bootstrap_connect|set_solver].
  - destruct (heap w !! a) as [p|] eqn:Hp.
    + eapply keeps_heap_after; [apply keeps_heap_receive|by eapply singleton_live].
    + unfold after, receive. by rewrite bind_get_peer_dangling.
  - destruct (heap w !! a) as [p|] eqn:Hp.
    + eapply keeps_heap_after; [apply keeps_heap_send|by eapply singleton_live].
    + unfold after, send. by rewrite bind_get_peer_dangling.
  - destruct (heap w !! a) as [p|] eqn:Hp.
    + eapply keeps_heap_after; [apply keeps_heap_gossip|by eapply singleton_live].
    + unfold after, gossip. by rewrite bind_get_peer_dangling.
  - destruct (heap w !! a) as [p|] eqn:Hp.
    + eapply keeps_heap_after; [apply keeps_heap_broadcast|by eapply singleton_live].
    + unfold after, broadcast. by rewrite bind_get_peer_dangling.
  - destruct (heap w !! a) as [p|] eqn:Hp.
    + eapply keeps_heap_after; [apply keeps_heap_start_all_runners|by eapply singleton_live].
    + unfold after, start_all_runners. by rewrite bind_get_peer_dangling.
  - destruct (heap w !! a) as [p|] eqn:Hp.
    + eapply keeps_heap_after; [apply keeps_heap_store|by eapply singleton_live].
    + unfold after, store. by rewrite bind_get_peer_dangling.
Qed.

Section PeerInvariant.
Context (J : Peer -> Prop).
Hypothesis J_init : ∀ nm loc ul dl, J (Peer_init nm loc ul dl).
Hypothesis J_connections : ∀ c p, J p -> J (set_connections c p).
Hypothesis J_register : ∀ s p, J p -> J (register s p).
Hypothesis J_storage : ∀ s p, J p -> J (set_storage s p).
Hypothesis J_callbacks : ∀ c p, J p -> J (set_disconnect_callbacks c p).

Lemma all_peers_heap (w w' : World) :
  heap w' = heap w -> all_peers J w -> all_peers J w'.
Proof. unfold all_peers. intros ->. done. Qed.

Lemma all_peers_insert (w w' : World) (a : peer_id) (x : Peer) :
  heap w' = <[a := x]> (heap w) -> J x -> all_peers J w -> all_peers J w'.
Proof.
  unfold all_peers. intros -> Hx Hw b p.
  destruct (decide (a = b)) as [->|Hne].
  - rewrite lookup_insert_eq. by intros [= <-].
  - rewrite lookup_insert_ne by done. apply Hw.
Qed.

Lemma wp_modify_all_peers (a : peer_id) (f : Peer -> Peer) (w : World) :
  (∀ p, J p -> J (f p)) -> all_peers J w ->
  wp True (modify_peer a f) (fun _ => all_peers J) (all_peers J) w.
Proof.
  intros Hf Hw. apply wp_modify_peer; [done|]. intros p Hp.
  eapply all_peers_insert; [reflexivity| |done]. eapply Hf, Hw, Hp.
Qed.

Lemma wp_is_connected_all_peers (a b : peer_id) (w : World) :
  all_peers J w ->
  wp True (is_connected a b) (fun _ => all_peers J) (all_peers J) w.
Proof.
  intros Hw. unfold is_connected. apply wp_bind, wp_get_peer; [done|].
  intros p _. by apply wp_ret.
Qed.

Lemma connect_all_peers (fuel : nat) (a b : peer_id) (w : World) :
  all_peers J w ->
  wp True (connect fuel a b) (fun _ => all_peers J) (all_peers J) w.
Proof.
  revert a b w. induction fuel as [|fuel IH]; intros a b w Hw; [done|].
  cbn [connect]. apply wp_bind.
  eapply wp_mono; [by apply wp_is_connected_all_peers| |done].
  intros c w1 Hw1. cbn beta. destruct c; cbn [negb]; [done|].
  apply wp_bind, wp_bind.
  unfold wp at 1. cbn [write_log new_connection].
  unfold wp at 1. cbn [bind].
  apply wp_bind.
  eapply wp_mono;
    [apply wp_modify_all_peers; [by auto|by eapply all_peers_heap]| |done].
  intros [] w2 Hw2. cbn beta. apply wp_bind.
  eapply wp_mono; [by apply wp_is_connected_all_peers| |done].
  intros c w3 Hw3. cbn beta. destruct c; cbn [negb]; [done|].
  by apply IH.
Qed.

Lemma disconnect_all_peers (fuel : nat) (a b : peer_id) (w : World) :
  all_peers J w ->
  wp True (disconnect fuel a b) (fun _ => all_peers J) (all_peers J) w.
Proof.
  revert a b w. induction fuel as [|fuel IH]; intros a b w Hw; [done|].
  cbn [disconnect]. apply wp_bind.
  eapply wp_mono; [by apply wp_is_connected_all_peers| |done].
  intros c w1 Hw1. cbn beta. destruct c; [|done].
  apply wp_bind. unfold wp at 1. cbn [write_log].
  apply wp_bind.
  eapply wp_mono;
    [apply wp_modify_all_peers; [by auto|by eapply all_peers_heap]| |done].
  intros [] w2 Hw2. cbn beta. apply wp_bind.
  eapply wp_mono; [by apply wp_is_connected_all_peers| |done].
  intros c w3 Hw3. cbn beta. apply wp_bind.
  eapply wp_mono; [|intros [] w4 Hw4; cbn beta|intros w4 Hw4; exact Hw4].
  { destruct c; [by apply IH|done]. }
  apply wp_bind, wp_get_peer; [done|]. intros ps _.
  apply (wp_for_each True (all_peers J)); [done| |done].
  intros cb w5 _ Hw5. done.
Qed.

Lemma run_op_all_peers (fuel : nat) (o : op) (w : World) :
  all_peers J w -> all_peers J (after (run_op fuel o) w).
Proof.
  intros Hw. pose proof (run_op_frame fuel o w) as Hframe.
  destruct o as [nm loc ul dl| | | a b | a b | | | | | a s | | | a nm st | a cb];
    try (by eapply all_peers_heap).
  - eapply all_peers_insert; [reflexivity|apply J_init|done].
  - pose proof (connect_all_peers fuel a b w Hw) as H.
    unfold wp in H. unfold after. cbn [run_op]. by destruct (connect fuel a b w).
  - pose proof (disconnect_all_peers fuel a b w Hw) as H.
    unfold wp in H. unfold after. cbn [run_op]. by destruct (disconnect fuel a b w).
  - unfold after. cbn [run_op]. destruct (heap w !! a) as [p|] eqn:Hp.
    + rewrite (add_service_run _ _ _ _ Hp).
      eapply all_peers_insert; [reflexivity| |done]. eapply J_register, Hw, Hp.
    + by rewrite add_service_dangling.
  - pose proof (wp_modify_all_peers a
      (fun p => set_storage (<[nm := st]> (storage p)) p) w
      (fun p Hp => J_storage _ p Hp) Hw) as H.
    unfold wp in H. unfold after. cbn [run_op]. unfold add_storage.
    by destruct (modify_peer _ _ w).
  - pose proof (wp_modify_all_peers a
      (fun p => set_disconnect_callbacks (disconnect_callbacks p ++ [cb]) p) w
      (fun p Hp => J_callbacks _ p Hp) Hw) as H.
    unfold wp in H. unfold after. cbn [run_op]. unfold add_disconnect_callback.
    by destruct (modify_peer _ _ w).
Qed.
End PeerInvariant.

Lemma keeps_heap_returns {A} (D : gset nat) (m : M A) (w : World) :
  keeps_heap D m -> D ⊆ dom (heap w) -> m w ≠ Stuck.
Proof.
  intros Hm HD. specialize (Hm w HD). unfold wp in Hm.
  by destruct (m w).
Qed.

Lemma connect_returns (fuel : nat) (w : World) (a b : peer_id) :
  2 ≤ fuel -> a ∈ dom (heap w) -> b ∈ dom (heap w) ->
  ∃ w', connect fuel a b w = Ok tt w'.
Proof.
  intros Hfuel [pa Ha]%elem_of_dom [pb Hb]%elem_of_dom.
  destruct fuel as [|[|fuel]]; [lia..|].
  destruct (decide (b ∈ dom (connections pa))) as [Hab|Hab].
  { eexists. by eapply connect_listed. }
  destruct (decide (a = b)) as [Heq|Hne].
  { eexists. eapply connect_half; eauto. }
  destruct (decide (a ∈ dom (connections pb))) as [Hba|Hba].
  - eexists. eapply connect_half; eauto.
  - eexists. by eapply connect_full.
Qed.

Lemma disconnect_returns (fuel : nat) (w : World) (a b : peer_id) :
  2 ≤ fuel -> a ∈ dom (heap w) -> b ∈ dom (heap w) ->
  ∃ w', disconnect fuel a b w = Ok tt w'.
Proof.
  intros Hfuel [pa Ha]%elem_of_dom [pb Hb]%elem_of_dom.
  destruct fuel as [|[|fuel]]; [lia..|].
  destruct (decide (b ∈ dom (connections pa))) as [Hab|Hab]; cycle 1.
  { eexists. by eapply disconnect_unlisted. }
  destruct (decide (a = b)) as [Heq|Hne].
  { eexists. eapply disconnect_half; eauto. }
  destruct (decide (a ∈ dom (connections pb))) as [Hba|Hba].
  - eexists. by eapply disconnect_full.
  - eexists. eapply disconnect_half; eauto.
Qed.

(** With a recursion budget of 2 and live peers, every operation returns or
    raises. *)
Lemma run_op_returns (fuel : nat) (o : op) (w : World) :
  2 ≤ fuel -> Forall (fun p => p ∈ dom (heap w)) (op_peers o) ->
  run_op fuel o w ≠ Stuck.
Proof.
  intros Hfuel Hlive.
  assert (Hself : ∀ a l, Forall (fun p => p ∈ dom (heap w)) (a :: l) ->
                         ({[a]} : gset nat) ⊆ dom (heap w)).
  { intros a l H. inversion H; subst. by apply singleton_subseteq_l. }
  destruct o as [nm loc ul dl| a b | a b | a b | a b | a msg | a r m | a m f E
                | a m | a s | a | a nm id v | a nm st | a cb]; cbn [run_op op_peers] in *.
  - done.
  - eapply keeps_heap_returns; [|by eapply Hself].
    apply keeps_heap_bind; [apply keeps_heap_is_connected|intros; apply keeps_heap_ret].
  - done.
  - inversion Hlive as [|? ? Ha Hl]; subst. inversion Hl as [|? ? Hb _]; subst.
    destruct (connect_returns fuel w a b Hfuel Ha Hb) as [w' ->]. done.
  - inversion Hlive as [|? ? Ha Hl]; subst. inversion Hl as [|? ? Hb _]; subst.
    destruct (disconnect_returns fuel w a b Hfuel Ha Hb) as [w' ->]. done.
  - eapply keeps_heap_returns; [apply keeps_heap_receive|by eapply Hself].
  - eapply keeps_heap_returns; [apply keeps_heap_send|by eapply Hself].
  - eapply keeps_heap_returns; [apply keeps_heap_gossip|by eapply Hself].
  - eapply keeps_heap_returns; [apply keeps_heap_broadcast|by eapply Hself].
  - inversion Hlive as [|? ? [p Hp]%elem_of_dom _]; subst.
    by rewrite (add_service_run _ _ _ _ Hp).
  - eapply keeps_heap_returns; [apply keeps_heap_start_all_runners|by eapply Hself].
  - eapply keeps_heap_returns; [apply keeps_heap_store|by eapply Hself].
  - inversion Hlive as [|? ? [p Hp]%elem_of_dom _]; subst.
    unfold add_storage. by erewrite modify_peer_run.
  - inversion Hlive as [|? ? [p Hp]%elem_of_dom _]; subst.
    unfold add_disconnect_callback. by erewrite modify_peer_run.
Qed.

Lemma routes_registered_preserved (fuel : nat) (o : op) (w : World) :
  all_peers routes_registered w ->
  all_peers routes_registered (after (run_op fuel o) w).
Proof.
  apply run_op_all_peers; [done|done|apply register_routes_registered|done..].
Qed.

(** C7. Whatever the operation on a peer (creation, is_connected,
    bootstrap_connect, connect, disconnect, receive, send, gossip, broadcast,
    add_service, start_all_runners, store, add_storage, registration of a
    disconnect callback) and whether it returns or raises, if before it
    every service name in a value of mh_map was a key of handlers of the
    same peer, the same holds after it; and with live peers and a recursion
    budget of 2 the operation does return or raise. *)
Theorem mh_map_routes_registered (fuel : nat) (o : op) (w : World) :
  all_peers routes_registered w ->
  all_peers routes_registered (after (run_op fuel o) w)
  ∧ (2 ≤ fuel -> Forall (fun p => p ∈ dom (heap w)) (op_peers o) ->
     run_op fuel o w ≠ Stuck).
Proof.
  intros Hw. split; [by apply routes_registered_preserved|apply run_op_returns].
Qed.

Lemma reachable_routes_registered (w : World) :
  reachable w -> all_peers routes_registered w.
Proof.
  induction 1 as [r|fuel o w _ IH].
  - intros a p H. cbn [heap initial] in H. by rewrite lookup_empty in H.
  - by apply routes_registered_preserved.
Qed.

Lemma reachable_handlers_routed (w : World) :
  reachable w -> all_peers handlers_routed w.
Proof.
  induction 1 as [r|fuel o w _ IH].
  - intros a p H. cbn [heap initial] in H. by rewrite lookup_empty in H.
  - apply run_op_all_peers; [done|done|apply register_handlers_routed|done..].
Qed.

Lemma serviced_peers_reachable : reachable serviced_peers.
Proof. unfold serviced_peers. repeat apply reachable_step. apply reachable_initial. Qed.

Lemma mh_map_routes_registered_witness :
  all_peers routes_registered
    (after (run_op 2 (OpAddService 0 ping_handler)) serviced_peers)
  ∧ (2 ≤ 2 -> Forall (fun p => p ∈ dom (heap serviced_peers))
                (op_peers (OpAddService 0 ping_handler)) ->
     run_op 2 (OpAddService 0 ping_handler) serviced_peers ≠ Stuck).
Proof.
  apply (mh_map_routes_registered 2 (OpAddService 0 ping_handler) serviced_peers).
  apply reachable_routes_registered, serviced_peers_reachable.
Defined.

(** ** Dispatch *)

Lemma for_each_handle (w : World) (p : peer_id) (pp : Peer) (m : Message)
    (l : list string) :
  heap w !! p = Some pp ->
  Forall (fun n => n ∈ dom (handlers pp)) l ->
  ∃ items : list (string * Service),
    items.*1 = l
    ∧ Forall (fun ns => handlers pp !! ns.1 = Some ns.2) items
    ∧ for_each l (fun service_id =>
        do ps' <- get_peer p;
        match handlers ps' !! service_id with
        | Some svc => emit (HandleMessage p service_id svc m)
        | None => raise KeyError
        end) w
      = Ok tt (add_calls (map (fun ns => HandleMessage p ns.1 ns.2 m) items) w).
Proof.
  intros Hp. revert w Hp. induction l as [|n l IH]; intros w Hp Hall.
  - exists []. repeat split; [constructor|]. cbn. by rewrite add_calls_nil.
  - inversion Hall as [|? ? Hn Hl]; subst.
    apply elem_of_dom in Hn as [s Hs].
    destruct (IH (add_call (HandleMessage p n s m) w) Hp Hl) as (items & H1 & H2 & H3).
    exists ((n, s) :: items). split; [by rewrite fmap_cons, H1|].
    split; [by constructor|].
    cbn [for_each]. erewrite bind_Ok; cycle 1.
    { mstep. rewrite Hs. reflexivity. }
    by rewrite H3, add_calls_cons.
Qed.

(** C5. In a world reached through the operations on peers, let s be a
    service held in p's handlers that declares the message type T, and the
    only such one.  Then receive of a message m of type T returns, and among
    the handle_message calls it makes, all with m, exactly one is on s; the
    others are on services that do not declare T. *)
Theorem dispatch_routing (w : World) (p : peer_id) (pp : Peer) (n : string)
    (s : Service) (m : Message) :
  reachable w -> heap w !! p = Some pp ->
  handlers pp !! n = Some s -> msg_type m ∈ svc_messages s ->
  (∀ n' s', handlers pp !! n' = Some s' -> msg_type m ∈ svc_messages s' -> s' = s) ->
  ∃ w' before behind,
    receive p (PMsg m) w = Ok tt w'
    ∧ calls w' = calls w ++ before ++ [HandleMessage p n s m] ++ behind
    ∧ ∀ c, c ∈ before ++ behind ->
        ∃ n' s', c = HandleMessage p n' s' m ∧ s' ≠ s
                 ∧ msg_type m ∉ svc_messages s'.
Proof.
  intros Hreach Hp Hs HT Huniq.
  pose proof (reachable_routes_registered w Hreach p pp Hp) as HJ1.
  pose proof (reachable_handlers_routed w Hreach p pp Hp) as HJ2.
  destruct (HJ2 n s Hs) as [Hclass Hrouted].
  destruct (Hrouted _ HT) as (ids & Hids & Hn).
  assert (Hall : Forall (fun n' => n' ∈ dom (handlers pp)) (elements ids)).
  { apply Forall_forall. intros n' Hn'. apply elem_of_elements in Hn'. by eapply HJ1. }
  set (w1 := add_log (mkLog (Some p) Info (LReceived (msg_type m))) w).
  destruct (for_each_handle w1 p pp m (elements ids) Hp Hall) as (items & H1 & H2 & H3).
  assert (Hrun : receive p (PMsg m) w
                 = Ok tt (add_calls (map (fun ns => HandleMessage p ns.1 ns.2 m) items) w1)).
  { unfold receive. do 3 mstep. by rewrite Hids. }
  assert (Hnd : NoDup (items.*1)) by (rewrite H1; apply NoDup_elements).
  assert (Hin : n ∈ items.*1) by (rewrite H1; by apply elem_of_elements).
  apply list_elem_of_fmap in Hin as ([n0 s0] & Hn0 & Hin). cbn in Hn0. subst n0.
  apply list_elem_of_split in Hin as (i1 & i2 & ->).
  rewrite Forall_app, Forall_cons in H2. destruct H2 as (HF1 & Hs0 & HF2).
  cbn in Hs0. assert (s0 = s) as -> by congruence.
  rewrite fmap_app, fmap_cons in Hnd. cbn in Hnd.
  apply NoDup_app in Hnd as (_ & Hdisj & Hnd2).
  apply NoDup_cons in Hnd2 as [Hn2 _].
  exists (add_calls (map (fun ns => HandleMessage p ns.1 ns.2 m) (i1 ++ (n, s) :: i2)) w1),
    (map (fun ns => HandleMessage p ns.1 ns.2 m) i1),
    (map (fun ns => HandleMessage p ns.1 ns.2 m) i2).
  split; [done|]. split.
  { cbn [calls add_calls w1 add_log]. by rewrite map_app. }
  intros c Hc.
  assert (Hitem : ∃ ns, c = HandleMessage p ns.1 ns.2 m ∧ ns.1 ≠ n
                        ∧ handlers pp !! ns.1 = Some ns.2).
  { apply elem_of_app in Hc as [Hc|Hc];
      apply list_elem_of_fmap in Hc as (ns & -> & Hns); exists ns; split; try done.
    - split; [|by eapply (proj1 (Forall_forall _ _) HF1)].
      intros Heq. eapply (Hdisj n); [|by left].
      rewrite <- Heq. by apply list_elem_of_fmap_2.
    - split; [|by eapply (proj1 (Forall_forall _ _) HF2)].
      intros Heq. apply Hn2. rewrite <- Heq. by apply list_elem_of_fmap_2. }
  destruct Hitem as ([n' s'] & -> & Hne & Hs'). cbn in *.
  exists n', s'. split; [done|].
  assert (s' ≠ s).
  { intros ->. destruct (HJ2 n' s Hs') as [Hc' _]. congruence. }
  split; [done|]. intros HT'. eauto.
Qed.

Lemma serviced_peers_handlers :
  handlers (peer_at serviced_peers 0)
  = <["PongService" := pong_service]> (<["PingHandler" := ping_handler]> ∅).
Proof. vm_compute. reflexivity. Qed.

Lemma dispatch_routing_witness :
  ∃ w' before behind,
    receive 0 (PMsg (mkMessage "Pong" 1 42)) serviced_peers = Ok tt w'
    ∧ calls w' = calls serviced_peers ++ before
                   ++ [HandleMessage 0 "PongService" pong_service (mkMessage "Pong" 1 42)]
                   ++ behind
    ∧ ∀ c, c ∈ before ++ behind ->
        ∃ n' s', c = HandleMessage 0 n' s' (mkMessage "Pong" 1 42) ∧ s' ≠ pong_service
                 ∧ msg_type (mkMessage "Pong" 1 42) ∉ svc_messages s'.
Proof.
  apply (dispatch_routing serviced_peers 0 (peer_at serviced_peers 0)
           "PongService" pong_service (mkMessage "Pong" 1 42)).
  - apply serviced_peers_reachable.
  - vm_compute. reflexivity.
  - vm_compute. reflexivity.
  - cbn. set_solver.
  - intros n' s'. rewrite serviced_peers_handlers.
    intros [[_ <-]|[_ [[_ <-]|[_ H]]%lookup_insert_Some]]%lookup_insert_Some.
    + done.
    + cbn. intros H. apply list_elem_of_singleton in H. discriminate.
    + by rewrite lookup_empty in H.
Defined.

(** A second instance of a class takes the place of the first in handlers,
    while the routes of the first stay: a message type only the first
    declared is then handled by the second. *)
Example add_service_replaces_instance :
  let first := mkService 1 "Echo" true false ["Ping"] in
  let second := mkService 2 "Echo" true false ["Pong"] in
  let w := after (add_service 0 second) (after (add_service 0 first) two_peers) in
  calls (after (receive 0 (PMsg (mkMessage "Ping" 1 0))) w)
  = [HandleMessage 0 "Echo" second (mkMessage "Ping" 1 0)].
Proof. vm_compute. reflexivity. Qed.

Lemma gossip_fanout_witness :
  ∃ w' targets cnxs,
    gossip 0 (mkMessage "Ping" 0 5) 3 None linked_peers = Ok tt w'
    ∧ calls w' = calls linked_peers
                   ++ map (fun c => CnxSend c (mkMessage "Ping" 0 5) false) cnxs
    ∧ Forall2 (fun t c => connections (peer_at linked_peers 0) !! t = Some c) targets cnxs
    ∧ NoDup targets
    ∧ Z.of_nat (length targets)
      = Z.min 3 (Z.of_nat (size (dom (connections (peer_at linked_peers 0)) ∖ default ∅ None)))
    ∧ (∀ t, t ∈ targets -> t ∈ dom (connections (peer_at linked_peers 0))
                            ∧ t ∉ default (∅ : gset nat) None)
    ∧ heap w' = heap linked_peers
    ∧ gossip 0 (mkMessage "Ping" 0 5) 3 None linked_peers
      = gossip 0 (mkMessage "Ping" 0 5) 3 (Some ∅) linked_peers.
Proof.
  apply (gossip_fanout linked_peers 0 (peer_at linked_peers 0)
           (mkMessage "Ping" 0 5) 3 None).
  - vm_compute. reflexivity.
  - reflexivity.
  - lia.
Defined.

(** gossip with fanout 1 from peer 0, connected to peers 1 and 2, peer 2
    being excluded: the message goes to peer 1. *)
Example gossip_example :
  let w := after (connect 2 0 2) (after (new_peer "c" "Paris" 10 10) linked_peers) in
  calls (after (gossip 0 (mkMessage "Ping" 0 5) 1 (Some {[2]})) w)
  = calls w ++ [CnxSend (mkConnection 0 0 1) (mkMessage "Ping" 0 5) false].
Proof. vm_compute. reflexivity. Qed.

(** ** Bandwidth statistics *)

(** C9. avg_bandwidth and median_bandwidth never return a number: the loop
    binds [peer] to the keys of the [peers] dictionary, which are strings,
    so with any peer type recorded [peer.connections] raises AttributeError;
    with none recorded the list of bandwidths is empty, and the division
    raises ZeroDivisionError and the indexing IndexError.  No state is
    modified. *)
Theorem bandwidth_statistics_raise (bandwidth : Connection -> Q) (w : World) :
  (peers (sim w) = []
   ∧ avg_bandwidth bandwidth w = Raise ZeroDivisionError w
   ∧ median_bandwidth bandwidth w = Raise IndexError w)
  ∨ (peers (sim w) ≠ []
     ∧ avg_bandwidth bandwidth w = Raise AttributeError w
     ∧ median_bandwidth bandwidth w = Raise AttributeError w).
Proof.
  unfold avg_bandwidth, median_bandwidth, collect_bandwidths.
  destruct (peers (sim w)) as [|[t l] d] eqn:Hp.
  - left. split; [done|].
    unfold bind, get_sim. rewrite Hp. by cbn.
  - right. split; [done|].
    unfold bind, get_sim. rewrite Hp. by cbn.
Qed.

(** One peer type with one peer, connected to a second peer: the mean would
    be that of two connections. *)
Example avg_bandwidth_failing_input :
  let w := set_sim {| peers := [("basic", [0; 1])]; bootstrap_peers := Some [] |}
             linked_peers in
  avg_bandwidth unit_bandwidth w = Raise AttributeError w
  ∧ median_bandwidth unit_bandwidth w = Raise AttributeError w.
Proof. split; reflexivity. Qed.

(** ** The population layer *)

Lemma register_name (s : Service) (p : Peer) : name (register s p) = name p.
Proof. unfold register. by destruct (svc_handler s), (svc_runner s). Qed.

Lemma register_connections (s : Service) (p : Peer) :
  connections (register s p) = connections p.
Proof. unfold register. by destruct (svc_handler s), (svc_runner s). Qed.

Lemma for_each_add_service (l : list Service) (w : World) (a : peer_id) (p : Peer) :
  heap w !! a = Some p ->
  for_each l (add_service a) w
  = Ok tt (set_heap (<[a := foldl (fun x s => register s x) p l]> (heap w)) w).
Proof.
  revert w p. induction l as [|s l IH]; intros w p Hp; cbn [for_each foldl].
  - by rewrite set_heap_id.
  - erewrite bind_Ok by (by apply add_service_run).
    erewrite IH by (cbn [heap set_heap]; apply lookup_insert_eq).
    cbn [heap set_heap]. by rewrite insert_insert_eq.
Qed.

Lemma foldl_register_view (l : list Service) (p : Peer) :
  name (foldl (fun x s => register s x) p l) = name p
  ∧ connections (foldl (fun x s => register s x) p l) = connections p.
Proof.
  revert p. induction l as [|s l IH]; intros p; cbn [foldl]; [done|].
  destruct (IH (register s p)) as [-> ->].
  by rewrite register_name, register_connections.
Qed.

Lemma create_peer_run (factory : string -> nat -> peer_config) (ty : string)
    (w : World) :
  ∃ x, create_peer factory ty w
       = Ok (fresh (dom (heap w)))
            (set_heap (<[fresh (dom (heap w)) := x]> (heap w)) w)
     ∧ name x = pc_name (factory ty (size (heap w)))
     ∧ connections x = ∅.
Proof.
  eexists. split.
  - unfold create_peer. erewrite bind_Ok by reflexivity.
    erewrite bind_Ok; cycle 1.
    { apply for_each_add_service. cbn [heap set_heap]. apply lookup_insert_eq. }
    cbn [ret heap set_heap]. rewrite insert_insert_eq. reflexivity.
  - apply foldl_register_view.
Qed.

Lemma start_all_runners_run (w : World) (a : peer_id) (p : Peer) :
  heap w !! a = Some p ->
  start_all_runners a w
  = Ok tt (add_calls (map (fun r => RunnerStart a r.2) (map_to_list (runners p))) w).
Proof.
  intros Hp. unfold start_all_runners. mstep. apply for_each_emit.
Qed.

Lemma fresh_0 : fresh (dom (∅ : gmap nat Peer)) = 0.
Proof. reflexivity. Qed.

Lemma fresh_1 (x : Peer) : fresh (dom (<[0 := x]> (∅ : gmap nat Peer))) = 1.
Proof. rewrite dom_insert_L, dom_empty_L. reflexivity. Qed.

Lemma fresh_2 (x y : Peer) :
  fresh (dom (<[1 := y]> (<[0 := x]> (∅ : gmap nat Peer)))) = 2.
Proof. rewrite !dom_insert_L, dom_empty_L. reflexivity. Qed.

Lemma fresh_3 (x y z : Peer) :
  fresh (dom (<[2 := z]> (<[1 := y]> (<[0 := x]> (∅ : gmap nat Peer))))) = 3.
Proof. rewrite !dom_insert_L, dom_empty_L. reflexivity. Qed.

Lemma random_choice_singleton {A} (x : A) (w : World) :
  random_choice [x] w = Ok x (set_rng (tail (rng w)) w).
Proof.
  unfold random_choice. erewrite bind_Ok by reflexivity.
  cbn [length]. destruct (rng w) as [|r rs]; [done|].
  by rewrite Nat.mod_1_r.
Qed.

Lemma dict_get_set {V} (k : string) (v : V) (d : list (string * V)) :
  dict_get k (dict_set k v d) = Some v.
Proof.
  induction d as [|[k' v'] d IH]; cbn.
  - by rewrite bool_decide_eq_true_2.
  - case_bool_decide as Hk; cbn.
    + by rewrite bool_decide_eq_true_2.
    + by rewrite bool_decide_eq_false_2.
Qed.

Lemma init_bootstrap_server_run (factory : string -> nat -> peer_config)
    (w : World) (d : list (string * list peer_id)) (bs : list peer_id) :
  sim w = mkSimulation d (Some bs) ->
  ∃ x w',
    init_bootstrap_server factory w = Ok tt w'
    ∧ heap w' = <[fresh (dom (heap w)) := x]> (heap w)
    ∧ sim w' = mkSimulation d (Some (bs ++ [fresh (dom (heap w))]))
    ∧ next_cnx w' = next_cnx w
    ∧ name x = pc_name (factory "bootstrap" (size (heap w)))
    ∧ connections x = ∅.
Proof.
  intros Hsim.
  destruct (create_peer_run factory "bootstrap" w) as (x & Hrun & Hn & Hc).
  exists x. eexists. split.
  { unfold init_bootstrap_server.
    erewrite bind_Ok by exact Hrun. mstep.
    cbn [sim set_heap]. rewrite Hsim. cbn [bootstrap_peers].
    mstep. apply start_all_runners_run. heap_lookup. }
  cbn [heap sim next_cnx add_calls set_sim set_heap]. done.
Qed.

Lemma add_peer_run (factory : string -> nat -> peer_config) (ty : string)
    (w : World) (d : list (string * list peer_id)) (b : peer_id) :
  sim w = mkSimulation d (Some [b]) ->
  ∃ x w',
    add_peer factory ty w = Ok tt w'
    ∧ heap w' = <[fresh (dom (heap w)) := x]> (heap w)
    ∧ sim w' = mkSimulation (add_to_type ty (fresh (dom (heap w))) d) (Some [b])
    ∧ next_cnx w' = S (next_cnx w)
    ∧ name x = pc_name (factory ty (size (heap w)))
    ∧ connections x = ∅.
Proof.
  intros Hsim.
  destruct (create_peer_run factory ty w) as (x & Hrun & Hn & Hc).
  exists x. unfold add_to_type, add_peer.
  erewrite bind_Ok by exact Hrun. mstep.
  cbn [sim set_heap]. rewrite Hsim. cbn [bootstrap_peers].
  erewrite bind_Ok by apply random_choice_singleton.
  do 2 mstep.
  cbn [sim set_heap set_rng add_call bump_cnx]. rewrite Hsim. cbn [peers].
  destruct (dict_mem ty d) eqn:Hmem; cbn [negb].
  - do 2 mstep. cbn [sim set_heap set_rng add_call bump_cnx]. rewrite Hsim. cbn [peers].
    unfold dict_mem in Hmem. destruct (dict_get ty d) as [l|] eqn:Hget; [|done].
    eexists. split; [reflexivity|]. done.
  - do 2 mstep. cbn [sim set_sim set_peers peers].
    rewrite dict_get_set.
    eexists. split; [reflexivity|]. done.
Qed.

Lemma for_each_start_all_runners (l : list peer_id) (w : World) :
  Forall (fun p => p ∈ dom (heap w)) l ->
  ∃ cs, for_each l start_all_runners w = Ok tt (add_calls cs w).
Proof.
  revert w. induction l as [|p l IH]; intros w Hl; cbn [for_each].
  - exists []. by rewrite add_calls_nil.
  - inversion Hl as [|? ? [x Hx]%elem_of_dom Hl']; subst.
    erewrite bind_Ok by (by apply start_all_runners_run).
    destruct (IH (add_calls (map (fun r => RunnerStart p r.2) (map_to_list (runners x))) w))
      as [cs Hcs]; [done|].
    rewrite Hcs. eexists. unfold add_calls. cbn. by rewrite <- app_assoc.
Qed.

Lemma start_all_peers_run (w : World) (ty : string) (l : list peer_id)
    (bs : option (list peer_id)) :
  sim w = mkSimulation [(ty, l)] bs ->
  Forall (fun p => p ∈ dom (heap w)) l ->
  ∃ cs, start_all_peers w = Ok tt (add_calls cs w).
Proof.
  intros Hsim Hl. unfold start_all_peers. mstep. rewrite Hsim.
  cbn [peers map fst for_each]. rewrite bind_assoc. mstep. rewrite Hsim.
  cbn [peers dict_get]. rewrite bool_decide_eq_true_2 by done.
  destruct (for_each_start_all_runners l w Hl) as [cs Hcs].
  erewrite bind_Ok by exact Hcs. by exists cs.
Qed.

Lemma scenario_run (factory : string -> nat -> peer_config) (r : list nat) :
  ∃ w pb p1 p2 p3,
    scenario factory (prepared_simulation r) = Ok tt w
    ∧ heap w = <[3 := p3]> (<[2 := p2]> (<[1 := p1]> (<[0 := pb]> ∅)))
    ∧ sim w = {| peers := [("basic", [1; 2; 3])]; bootstrap_peers := Some [0] |}
    ∧ next_cnx w = 3
    ∧ (name pb = pc_name (factory "bootstrap" 0) ∧ connections pb = ∅)
    ∧ (name p1 = pc_name (factory "basic" 1) ∧ connections p1 = ∅)
    ∧ (name p2 = pc_name (factory "basic" 2) ∧ connections p2 = ∅)
    ∧ (name p3 = pc_name (factory "basic" 3) ∧ connections p3 = ∅).
Proof.
  unfold scenario, init_bootstrap_servers, add_peers.
  cbn [seq for_each]. rewrite !bind_assoc. mstep. rewrite ?bind_assoc.
  (* the bootstrap peer *)
  match goal with |- context [bind (init_bootstrap_server _) _ ?w] =>
    destruct (init_bootstrap_server_run factory w [] []) as
      (pb & w1 & Hrun & Hh1 & Hs1 & Hc1 & Hnb & Hcb); [done|] end.
  cbn [heap next_cnx add_log prepared_simulation set_sim initial app] in Hh1, Hs1, Hc1, Hnb.
  rewrite fresh_0 in Hh1, Hs1. rewrite map_size_empty in Hnb.
  erewrite bind_Ok by exact Hrun. clear Hrun.
  rewrite ?bind_assoc. mstep. rewrite ?bind_assoc. mstep.
  (* the three ordinary peers *)
  rewrite ?bind_assoc.
  match goal with |- context [bind (add_peer _ _) _ ?w] =>
    destruct (add_peer_run factory "basic" w [] 0) as
      (p1 & w2 & Hrun & Hh2 & Hs2 & Hc2 & Hn1 & Hcp1); [done|] end.
  cbn [heap next_cnx add_log] in Hh2, Hs2, Hc2, Hn1.
  rewrite Hh1 in Hh2, Hs2, Hn1. rewrite Hc1 in Hc2.
  rewrite fresh_1 in Hh2, Hs2. rewrite map_size_insert_None, map_size_empty in Hn1 by done.
  change (add_to_type "basic" 1 []) with [("basic", [1])] in Hs2.
  erewrite bind_Ok by exact Hrun. clear Hrun.
  rewrite ?bind_assoc.
  destruct (add_peer_run factory "basic" w2 [("basic", [1])] 0) as
      (p2 & w3 & Hrun & Hh3 & Hs3 & Hc3 & Hn2 & Hcp2); [done|].
  rewrite Hh2 in Hh3, Hs3, Hn2. rewrite Hc2 in Hc3.
  rewrite fresh_2 in Hh3, Hs3.
  rewrite !map_size_insert_None, map_size_empty in Hn2 by done.
  change (add_to_type "basic" 2 [("basic", [1])]) with [("basic", [1; 2])] in Hs3.
  erewrite bind_Ok by exact Hrun. clear Hrun.
  rewrite ?bind_assoc.
  destruct (add_peer_run factory "basic" w3 [("basic", [1; 2])] 0) as
      (p3 & w4 & Hrun & Hh4 & Hs4 & Hc4 & Hn3 & Hcp3); [done|].
  rewrite Hh3 in Hh4, Hs4, Hn3. rewrite Hc3 in Hc4.
  rewrite fresh_3 in Hh4, Hs4.
  rewrite !map_size_insert_None, map_size_empty in Hn3 by done.
  change (add_to_type "basic" 3 [("basic", [1; 2])]) with [("basic", [1; 2; 3])] in Hs4.
  erewrite bind_Ok by exact Hrun. clear Hrun.
  rewrite ?bind_assoc. mstep.
  (* the runners *)
  destruct (start_all_peers_run w4 "basic" [1; 2; 3] (Some [0]) Hs4) as [cs Hcs].
  { rewrite Hh4. repeat constructor; apply elem_of_dom; by simplify_map_eq. }
  rewrite Hcs. exists (add_calls cs w4), pb, p1, p2, p3.
  cbn [heap sim next_cnx add_calls]. done.
Qed.

(** ** The derived graph *)

Section GetGraph.
Context (bandwidth : Connection -> Q).

Lemma get_graph_items (incl : bool) (w : World) (pn : string)
    (items : list (nat * Connection)) (G : Graph) :
  Forall (fun item => item.1 ∈ dom (heap w)) items ->
  fold_m (fun G item =>
    do po <- get_peer item.1;
    if incl || negb (String.prefix "bootstrap" (name po))
    then ret (add_edge pn (name po) (bandwidth item.2) G)
    else ret G) items G w
  = Ok (foldl (graph_step bandwidth incl (heap w) pn) G items) w.
Proof.
  revert G. induction items as [|item items IH]; intros G Hall; cbn [fold_m foldl].
  - done.
  - inversion Hall as [|? ? [po Hpo]%elem_of_dom Hrest]; subst.
    unfold graph_step at 2. rewrite Hpo.
    rewrite bind_assoc. mstep.
    destruct (incl || negb (String.prefix "bootstrap" (name po)));
      (erewrite bind_Ok by reflexivity); by apply IH.
Qed.

Lemma get_graph_peers (incl : bool) (w : World) (l : list peer_id) (G : Graph) :
  closed_peers (heap w) l ->
  fold_m (fun G peer =>
    do pp <- get_peer peer;
    fold_m (fun G item =>
      do po <- get_peer item.1;
      if incl || negb (String.prefix "bootstrap" (name po))
      then ret (add_edge (name pp) (name po) (bandwidth item.2) G)
      else ret G)
      (map_to_list (connections pp)) (add_node (name pp) G)) l G w
  = Ok (foldl (peer_graph bandwidth incl (heap w)) G l) w.
Proof.
  revert G. induction l as [|p l IH]; intros G Hall; cbn [fold_m foldl].
  - done.
  - inversion Hall as [|? ? (pp & Hpp & Hclosed) Hrest]; subst.
    unfold peer_graph at 2. rewrite Hpp.
    rewrite bind_assoc. mstep.
    erewrite bind_Ok; [by apply IH|].
    apply get_graph_items. apply Forall_forall. intros [o c] Hin.
    apply elem_of_map_to_list in Hin. apply Hclosed, elem_of_dom. eauto.
Qed.

Lemma get_graph_run (incl : bool) (w : World) (d : list (string * list peer_id))
    (bs : list peer_id) :
  sim w = mkSimulation d (Some bs) ->
  closed_peers (heap w) (concat (map snd d) ++ (if incl then bs else [])) ->
  get_graph bandwidth incl w
  = Ok (graph_of bandwidth incl (heap w)
          (concat (map snd d) ++ (if incl then bs else []))) w.
Proof.
  intros Hsim Hclosed. unfold get_graph. mstep. rewrite Hsim.
  cbn [peers bootstrap_peers]. destruct incl.
  - mstep. by apply get_graph_peers.
  - mstep. rewrite app_nil_r in *. by apply get_graph_peers.
Qed.
End GetGraph.

Lemma add_node_fresh (n : string) (g : Graph) :
  g !! n = None -> add_node n g = <[n := ∅]> g.
Proof. intros H. unfold add_node. by rewrite H. Qed.

Lemma add_node_present (n : string) (g : Graph) (adj : gmap string Q) :
  g !! n = Some adj -> add_node n g = g.
Proof. intros H. unfold add_node. by rewrite H. Qed.

Lemma add_edge_present (u v : string) (wt : Q) (g : Graph) (au av : gmap string Q) :
  u ≠ v -> g !! u = Some au -> g !! v = Some av ->
  add_edge u v wt g = <[v := <[u := wt]> av]> (<[u := <[v := wt]> au]> g).
Proof.
  intros Hne Hu Hv. unfold add_edge. cbv zeta.
  rewrite (add_node_present u g au Hu), (add_node_present v g av Hv).
  rewrite Hu. cbn [default from_option id]. by rewrite lookup_insert_ne, Hv by done.
Qed.

Lemma add_edge_new (u v : string) (wt : Q) (g : Graph) (au : gmap string Q) :
  u ≠ v -> g !! u = Some au -> g !! v = None ->
  add_edge u v wt g = <[v := {[u := wt]}]> (<[u := <[v := wt]> au]> g).
Proof.
  intros Hne Hu Hv. unfold add_edge. cbv zeta.
  rewrite (add_node_present u g au Hu), (add_node_fresh v g Hv).
  rewrite (lookup_insert_ne g v u) by done. rewrite Hu. cbn [default from_option id].
  rewrite (lookup_insert_ne _ u v) by done. rewrite lookup_insert_eq.
  cbn [default from_option id].
  rewrite (insert_insert_ne g u v) by done.
  by rewrite insert_insert_eq, insert_empty.
Qed.

Lemma degree_no_loop (n : string) (adj : gmap string Q) :
  n ∉ dom adj -> degree n adj = size adj.
Proof. intros H. unfold degree. rewrite bool_decide_eq_false_2 by done. lia. Qed.

Ltac lk :=
  repeat first [ rewrite lookup_insert_eq | rewrite lookup_insert_ne by done
               | rewrite lookup_empty ].

Section Star.
Context (nb n1 n2 n3 : string).
Hypothesis Hb1 : nb ≠ n1.
Hypothesis Hb2 : nb ≠ n2.
Hypothesis Hb3 : nb ≠ n3.
Hypothesis H12 : n1 ≠ n2.
Hypothesis H13 : n1 ≠ n3.
Hypothesis H23 : n2 ≠ n3.

Lemma isolated3_graph :
  add_node n3 (add_node n2 (add_node n1 (∅ : Graph)))
  = <[n3 := ∅]> (<[n2 := ∅]> (<[n1 := ∅]> ∅)).
Proof.
  rewrite (add_node_fresh n1) by done.
  rewrite (add_node_fresh n2) by (by lk).
  rewrite (add_node_fresh n3) by (by lk). done.
Qed.

Lemma isolated3_nodes :
  number_of_nodes (<[n3 := ∅]> (<[n2 := ∅]> (<[n1 := ∅]> (∅ : Graph)))) = 3.
Proof.
  unfold number_of_nodes.
  rewrite !map_size_insert_None, map_size_empty by (by lk). done.
Qed.

Lemma isolated3_edges :
  number_of_edges (<[n3 := ∅]> (<[n2 := ∅]> (<[n1 := ∅]> (∅ : Graph)))) = 0.
Proof.
  unfold number_of_edges.
  rewrite !map_to_list_insert, map_to_list_empty by (by lk). done.
Qed.

Lemma isolated4_graph :
  add_node nb (add_node n3 (add_node n2 (add_node n1 (∅ : Graph))))
  = <[nb := ∅]> (<[n3 := ∅]> (<[n2 := ∅]> (<[n1 := ∅]> ∅))).
Proof. rewrite isolated3_graph. rewrite (add_node_fresh nb) by (by lk). done. Qed.

Lemma isolated4_nodes :
  number_of_nodes (<[nb := ∅]> (<[n3 := ∅]> (<[n2 := ∅]> (<[n1 := ∅]> (∅ : Graph))))) = 4.
Proof.
  unfold number_of_nodes.
  rewrite !map_size_insert_None, map_size_empty by (by lk). done.
Qed.

Lemma isolated4_edges :
  number_of_edges (<[nb := ∅]> (<[n3 := ∅]> (<[n2 := ∅]> (<[n1 := ∅]> (∅ : Graph))))) = 0.
Proof.
  unfold number_of_edges.
  rewrite !map_to_list_insert, map_to_list_empty by (by lk). done.
Qed.

(** The star around the bootstrap node, with the weights [get_graph]
    leaves on it. *)
Lemma star_graph (a1 a2 a3 b1 b2 b3 : Q) :
  add_edge nb n1 b1 (add_edge nb n3 b3 (add_edge nb n2 b2
    (add_node nb
      (add_edge n3 nb a3 (add_node n3
        (add_edge n2 nb a2 (add_node n2
          (add_edge n1 nb a1 (add_node n1 (∅ : Graph))))))))))
  = <[n1 := {[nb := b1]}]> (<[n3 := {[nb := b3]}]> (<[n2 := {[nb := b2]}]>
      (<[nb := <[n1 := b1]> (<[n3 := b3]> (<[n2 := b2]> ∅))]> ∅))).
Proof.
  rewrite (add_node_fresh n1) by done.
  rewrite (add_edge_new n1 nb a1 _ ∅) by (by lk).
  rewrite (add_node_fresh n2) by (by lk).
  erewrite (add_edge_present n2 nb a2) by (by lk).
  rewrite (add_node_fresh n3) by (by lk).
  erewrite (add_edge_present n3 nb a3) by (by lk).
  erewrite (add_node_present nb) by (by lk).
  erewrite (add_edge_present nb n2 b2) by (by lk).
  erewrite (add_edge_present nb n3 b3) by (by lk).
  erewrite (add_edge_present nb n1 b1) by (by lk).
  rewrite <- !insert_empty.
  apply map_eq. intros k.
  destruct (decide (k = n1)) as [->|?]; [lk; f_equal; apply map_eq; intros j;
    destruct (decide (j = nb)) as [->|?]; by lk|].
  destruct (decide (k = n3)) as [->|?]; [lk; f_equal; apply map_eq; intros j;
    destruct (decide (j = nb)) as [->|?]; by lk|].
  destruct (decide (k = n2)) as [->|?]; [lk; f_equal; apply map_eq; intros j;
    destruct (decide (j = nb)) as [->|?]; by lk|].
  destruct (decide (k = nb)) as [->|?]; [|by lk].
  lk. f_equal. apply map_eq. intros j.
  destruct (decide (j = n1)) as [->|?]; [by lk|].
  destruct (decide (j = n3)) as [->|?]; [by lk|].
  destruct (decide (j = n2)) as [->|?]; by lk.
Qed.

Lemma star_nodes (b1 b2 b3 : Q) :
  number_of_nodes
    (<[n1 := {[nb := b1]}]> (<[n3 := {[nb := b3]}]> (<[n2 := {[nb := b2]}]>
      (<[nb := <[n1 := b1]> (<[n3 := b3]> (<[n2 := b2]> ∅))]> (∅ : Graph))))) = 4.
Proof.
  unfold number_of_nodes.
  rewrite !map_size_insert_None, map_size_empty by (by lk). done.
Qed.

Lemma star_edges (b1 b2 b3 : Q) :
  number_of_edges
    (<[n1 := {[nb := b1]}]> (<[n3 := {[nb := b3]}]> (<[n2 := {[nb := b2]}]>
      (<[nb := <[n1 := b1]> (<[n3 := b3]> (<[n2 := b2]> ∅))]> (∅ : Graph))))) = 3.
Proof.
  unfold number_of_edges.
  rewrite !map_to_list_insert, map_to_list_empty by (by lk).
  cbn [sum_list_with fst snd].
  rewrite !degree_no_loop.
  - rewrite !map_size_singleton.
    rewrite !map_size_insert_None, map_size_empty by (by lk). done.
  - rewrite !dom_insert_L, dom_empty_L. set_solver.
  - rewrite dom_singleton_L. set_solver.
  - rewrite dom_singleton_L. set_solver.
  - rewrite dom_singleton_L. set_solver.
Qed.

Lemma star_incident (b1 b2 b3 : Q) (u v : string) :
  has_edge
    (<[n1 := {[nb := b1]}]> (<[n3 := {[nb := b3]}]> (<[n2 := {[nb := b2]}]>
      (<[nb := <[n1 := b1]> (<[n3 := b3]> (<[n2 := b2]> ∅))]> (∅ : Graph))))) u v
  <-> (u = nb ∧ v ∈ [n1; n2; n3]) ∨ (v = nb ∧ u ∈ [n1; n2; n3]).
Proof.
  unfold has_edge. split.
  - intros (adj & Hu & Hv).
    destruct (decide (u = n1)) as [->|?].
    { revert Hu. lk. intros [= <-]. rewrite dom_singleton_L in Hv.
      right. split; [set_solver|]. set_solver. }
    destruct (decide (u = n3)) as [->|?].
    { revert Hu. lk. intros [= <-]. rewrite dom_singleton_L in Hv.
      right. split; [set_solver|]. set_solver. }
    destruct (decide (u = n2)) as [->|?].
    { revert Hu. lk. intros [= <-]. rewrite dom_singleton_L in Hv.
      right. split; [set_solver|]. set_solver. }
    destruct (decide (u = nb)) as [->|?]; [|revert Hu; by lk].
    revert Hu. lk. intros [= <-].
    rewrite !dom_insert_L, dom_empty_L in Hv. left. split; [done|]. set_solver.
  - intros [[-> Hv]|[-> Hu]].
    + eexists. split; [by lk|]. rewrite !dom_insert_L, dom_empty_L. set_solver.
    + apply elem_of_cons in Hu as [->|Hu]; [|apply elem_of_cons in Hu as [->|Hu];
        [|apply list_elem_of_singleton in Hu as ->]];
        (eexists; split; [by lk|]; rewrite dom_singleton_L; set_solver).
Qed.
End Star.

Lemma connect_full_world (w : World) (a b : peer_id) (pa pb : Peer) :
  heap w !! a = Some pa -> heap w !! b = Some pb -> a ≠ b ->
  heap (link b a (link a b w))
  = <[b := set_connections (<[a := mkConnection (S (next_cnx w)) b a]> (connections pb)) pb]>
      (<[a := set_connections (<[b := mkConnection (next_cnx w) a b]> (connections pa)) pa]>
         (heap w))
  ∧ sim (link b a (link a b w)) = sim w
  ∧ next_cnx (link b a (link a b w)) = S (S (next_cnx w)).
Proof.
  intros Ha Hb Hne.
  assert (Hb1 : heap (link a b w) !! b = Some pb) by (by rewrite link_lookup_other).
  unfold link at 1 3 5. rewrite Hb1. unfold link. rewrite Ha. done.
Qed.

Lemma map_to_list_0 {A} (x : A) :
  map_to_list (<[0 := x]> (∅ : gmap nat A)) = [(0, x)].
Proof. reflexivity. Qed.

Lemma map_to_list_123 {A} (x y z : A) :
  map_to_list (<[3 := x]> (<[2 := y]> (<[1 := z]> (∅ : gmap nat A))))
  = [(2, y); (3, x); (1, z)].
Proof. reflexivity. Qed.

Lemma complete_bootstrap_run (w : World) (pb p1 p2 p3 : Peer) :
  heap w = <[3 := p3]> (<[2 := p2]> (<[1 := p1]> (<[0 := pb]> ∅))) ->
  connections pb = ∅ -> connections p1 = ∅ ->
  connections p2 = ∅ -> connections p3 = ∅ ->
  ∃ w2 c01 c02 c03 c10 c20 c30,
    complete_bootstrap w = Ok tt w2
    ∧ sim w2 = sim w
    ∧ dom (heap w2) = {[0; 1; 2; 3]}
    ∧ heap w2 !! 0
      = Some (set_connections (<[3 := c03]> (<[2 := c02]> (<[1 := c01]> ∅))) pb)
    ∧ heap w2 !! 1 = Some (set_connections (<[0 := c10]> ∅) p1)
    ∧ heap w2 !! 2 = Some (set_connections (<[0 := c20]> ∅) p2)
    ∧ heap w2 !! 3 = Some (set_connections (<[0 := c30]> ∅) p3).
Proof.
  intros Hh Hcb Hc1 Hc2 Hc3. unfold complete_bootstrap.
  (* 0 - 1 *)
  assert (L0 : heap w !! 0 = Some pb) by (rewrite Hh; by lk).
  assert (L1 : heap w !! 1 = Some p1) by (rewrite Hh; by lk).
  erewrite bind_Ok; cycle 1.
  { apply (connect_full 0 w 0 1 pb p1 L0 L1); [done|rewrite Hcb|rewrite Hc1]; set_solver. }
  destruct (connect_full_world w 0 1 pb p1 L0 L1) as (Hh1 & Hs1 & _); [done|].
  set (w1 := link 1 0 (link 0 1 w)) in *.
  rewrite Hcb, Hc1 in Hh1.
  (* 0 - 2 *)
  assert (L0' : heap w1 !! 0 = Some (set_connections (<[1 := mkConnection (next_cnx w) 0 1]> ∅) pb))
    by (rewrite Hh1; by lk).
  assert (L2 : heap w1 !! 2 = Some p2) by (rewrite Hh1, Hh; by lk).
  erewrite bind_Ok; cycle 1.
  { apply (connect_full 0 w1 0 2 _ p2 L0' L2); [done|cbn|rewrite Hc2]; set_solver. }
  destruct (connect_full_world w1 0 2 _ p2 L0' L2) as (Hh2 & Hs2 & _); [done|].
  set (w2 := link 2 0 (link 0 2 w1)) in *.
  cbn [connections set_connections] in Hh2. rewrite Hc2 in Hh2.
  (* 0 - 3 *)
  assert (L0'' : heap w2 !! 0
            = Some (set_connections (<[2 := mkConnection (next_cnx w1) 0 2]>
                      (<[1 := mkConnection (next_cnx w) 0 1]> ∅)) pb))
    by (rewrite Hh2; by lk).
  assert (L3 : heap w2 !! 3 = Some p3) by (rewrite Hh2, Hh1, Hh; by lk).
  destruct (connect_full_world w2 0 3 _ p3 L0'' L3) as (Hh3 & Hs3 & _); [done|].
  exists (link 3 0 (link 0 3 w2)). do 6 eexists. split.
  { apply (connect_full 0 w2 0 3 _ p3 L0'' L3); [done|cbn|rewrite Hc3]; set_solver. }
  cbn [connections set_connections] in Hh3. rewrite Hc3 in Hh3.
  split; [congruence|]. rewrite Hh3, Hh2, Hh1, Hh.
  split; [rewrite !dom_insert_L, dom_empty_L; set_solver|].
  repeat split; by lk.
Qed.

(** C8 as stated fails: the scenario alone does not yield three edges with
    the bootstrap peers included.  From a new Simulation,
    init_bootstrap_servers raises AttributeError (bootstrap_peers is never
    assigned); and with the list prepared, the scenario returns and the
    derived graph has 4 nodes and no edge. *)
Lemma bootstrap_scenario_counterexample :
  value_of (init_bootstrap_servers plain_factory 1 (new_simulation []))
  = Some (inr AttributeError)
  ∧ ∃ w g,
      scenario plain_factory (prepared_simulation []) = Ok tt w
      ∧ get_graph unit_bandwidth true w = Ok g w
      ∧ number_of_nodes g = 4
      ∧ number_of_edges g = 0
      ∧ number_of_edges g ≠ 3.
Proof.
  split; [reflexivity|].
  eexists _, _. split; [vm_compute; reflexivity|].
  split; [vm_compute; reflexivity|].
  split; [reflexivity|]. split; [reflexivity|]. vm_compute. discriminate.
Qed.

(** C8, amended. With bootstrap_peers prepared as an empty list, and a
    factory that gives the bootstrap peer a name starting with "bootstrap"
    and the three ordinary peers pairwise distinct names that do not, the
    scenario returns; bootstrap_connect having added no connection, the
    graph without the bootstrap peers has exactly the 3 ordinary nodes and
    no edge, and the graph with them has 4 nodes and no edge.  Once the
    bootstrap peer has connected to each ordinary peer, the graph without
    the bootstrap peers is the same 3 isolated nodes, and the graph with
    them has exactly 3 edges, each between the bootstrap node and an
    ordinary node. *)
Theorem bootstrap_scenario_graph (factory : string -> nat -> peer_config)
    (bandwidth : Connection -> Q) (r : list nat) :
  let nb := pc_name (factory "bootstrap" 0) in
  let n1 := pc_name (factory "basic" 1) in
  let n2 := pc_name (factory "basic" 2) in
  let n3 := pc_name (factory "basic" 3) in
  String.prefix "bootstrap" nb = true ->
  String.prefix "bootstrap" n1 = false ->
  String.prefix "bootstrap" n2 = false ->
  String.prefix "bootstrap" n3 = false ->
  NoDup [n1; n2; n3] ->
  ∃ w g g',
    scenario factory (prepared_simulation r) = Ok tt w
    ∧ get_graph bandwidth false w = Ok g w
    ∧ dom g = {[n1; n2; n3]} ∧ number_of_nodes g = 3 ∧ number_of_edges g = 0
    ∧ (∀ u v, ¬ has_edge g u v)
    ∧ get_graph bandwidth true w = Ok g' w
    ∧ number_of_nodes g' = 4 ∧ number_of_edges g' = 0
    ∧ ∃ w2 g2,
        complete_bootstrap w = Ok tt w2
        ∧ get_graph bandwidth false w2 = Ok g w2
        ∧ get_graph bandwidth true w2 = Ok g2 w2
        ∧ number_of_nodes g2 = 4 ∧ number_of_edges g2 = 3
        ∧ ∀ u v, has_edge g2 u v
                 <-> (u = nb ∧ v ∈ [n1; n2; n3]) ∨ (v = nb ∧ u ∈ [n1; n2; n3]).
Proof.
  intros nb n1 n2 n3 Pb P1 P2 P3 Hnd.
  assert (Hb1 : nb ≠ n1) by congruence.
  assert (Hb2 : nb ≠ n2) by congruence.
  assert (Hb3 : nb ≠ n3) by congruence.
  apply NoDup_cons in Hnd as [Hn1 Hnd]. apply NoDup_cons in Hnd as [Hn2 _].
  assert (H12 : n1 ≠ n2) by set_solver.
  assert (H13 : n1 ≠ n3) by set_solver.
  assert (H23 : n2 ≠ n3) by set_solver.
  clear Hn1 Hn2.
  destruct (scenario_run factory r) as
    (w & pb & p1 & p2 & p3 & Hrun & Hh & Hsim & _ & [Nb Cb] & [N1 C1] & [N2 C2] & [N3 C3]).
  fold nb in Nb. fold n1 in N1. fold n2 in N2. fold n3 in N3.
  assert (L0 : heap w !! 0 = Some pb) by (rewrite Hh; by lk).
  assert (L1 : heap w !! 1 = Some p1) by (rewrite Hh; by lk).
  assert (L2 : heap w !! 2 = Some p2) by (rewrite Hh; by lk).
  assert (L3 : heap w !! 3 = Some p3) by (rewrite Hh; by lk).
  assert (Hclosed : closed_peers (heap w) [1; 2; 3; 0]).
  { repeat constructor; eexists; (split; [eassumption|]);
      intros o Ho; rewrite ?Cb, ?C1, ?C2, ?C3 in Ho; set_solver. }
  assert (G0 : get_graph bandwidth false w
               = Ok (<[n3 := ∅]> (<[n2 := ∅]> (<[n1 := ∅]> ∅))) w).
  { rewrite (get_graph_run bandwidth false w _ _ Hsim); cycle 1.
    { cbn. inversion Hclosed as [|? ? A1 HA]. inversion HA as [|? ? A2 HB].
      inversion HB as [|? ? A3 _]. by repeat constructor. }
    f_equal. cbn [map snd concat app]. unfold graph_of. cbn [foldl].
    unfold peer_graph. rewrite L1, L2, L3, C1, C2, C3, N1, N2, N3.
    rewrite map_to_list_empty. cbn [foldl]. by apply isolated3_graph. }
  assert (G1 : get_graph bandwidth true w
               = Ok (<[nb := ∅]> (<[n3 := ∅]> (<[n2 := ∅]> (<[n1 := ∅]> ∅)))) w).
  { rewrite (get_graph_run bandwidth true w _ _ Hsim) by exact Hclosed.
    f_equal. cbn [map snd concat app]. unfold graph_of. cbn [foldl].
    unfold peer_graph. rewrite L0, L1, L2, L3, Cb, C1, C2, C3, Nb, N1, N2, N3.
    rewrite map_to_list_empty. cbn [foldl]. by apply isolated4_graph. }
  exists w. eexists _, _. split; [exact Hrun|]. split; [exact G0|].
  split; [rewrite !dom_insert_L, dom_empty_L; set_solver|].
  split; [by apply isolated3_nodes|]. split; [by apply isolated3_edges|].
  split.
  { intros u v (adj & Hu & Hv).
    destruct (decide (u = n3)) as [->|?];
      [revert Hu; lk; intros [= <-]; set_solver|].
    destruct (decide (u = n2)) as [->|?];
      [revert Hu; lk; intros [= <-]; set_solver|].
    destruct (decide (u = n1)) as [->|?];
      [revert Hu; lk; intros [= <-]; set_solver|].
    revert Hu. by lk. }
  split; [exact G1|].
  split; [by apply isolated4_nodes|]. split; [by apply isolated4_edges|].
  (* the reciprocal leg *)
  destruct (complete_bootstrap_run w pb p1 p2 p3 Hh Cb C1 C2 C3) as
    (w2 & c01 & c02 & c03 & c10 & c20 & c30 & Hrun2 & Hsim2 & Hdom & M0 & M1 & M2 & M3).
  rewrite Hsim in Hsim2.
  assert (Hclosed2 : closed_peers (heap w2) [1; 2; 3; 0]).
  { repeat constructor; eexists; (split; [eassumption|]);
      intros o Ho; cbn [connections set_connections] in Ho;
      rewrite ?dom_insert_L, ?dom_empty_L in Ho; rewrite Hdom; set_solver. }
  exists w2,
    (<[n1 := {[nb := bandwidth c01]}]> (<[n3 := {[nb := bandwidth c03]}]>
       (<[n2 := {[nb := bandwidth c02]}]>
          (<[nb := <[n1 := bandwidth c01]> (<[n3 := bandwidth c03]>
                     (<[n2 := bandwidth c02]> ∅))]> ∅)))).
  split; [exact Hrun2|]. split.
  { rewrite (get_graph_run bandwidth false w2 _ _ Hsim2); cycle 1.
    { cbn. inversion Hclosed2 as [|? ? A1 HA]. inversion HA as [|? ? A2 HB].
      inversion HB as [|? ? A3 _]. by repeat constructor. }
    f_equal. cbn [map snd concat app]. unfold graph_of. cbn [foldl].
    unfold peer_graph. rewrite M1, M2, M3. cbn [connections set_connections name].
    rewrite !map_to_list_0. cbn [foldl]. unfold graph_step. cbn [fst snd].
    rewrite M0. cbn [name set_connections]. rewrite Nb, Pb, N1, N2, N3.
    cbn [orb negb]. by apply isolated3_graph. }
  split.
  { rewrite (get_graph_run bandwidth true w2 _ _ Hsim2) by exact Hclosed2.
    f_equal. cbn [map snd concat app]. unfold graph_of. cbn [foldl].
    unfold peer_graph. rewrite M0, M1, M2, M3. cbn [connections set_connections name].
    rewrite !map_to_list_0, map_to_list_123. cbn [foldl]. unfold graph_step. cbn [fst snd].
    rewrite M0, M1, M2, M3. cbn [name set_connections]. rewrite Nb, N1, N2, N3.
    cbn [orb]. by apply star_graph. }
  split; [by apply star_nodes|]. split; [by apply star_edges|].
  intros u v. by apply star_incident.
Qed.

Lemma bootstrap_scenario_graph_witness :
  ∃ w g g',
    scenario plain_factory (prepared_simulation []) = Ok tt w
    ∧ get_graph unit_bandwidth false w = Ok g w
    ∧ dom g = {["basic_1"; "basic_2"; "basic_3"]}
    ∧ number_of_nodes g = 3 ∧ number_of_edges g = 0
    ∧ (∀ u v, ¬ has_edge g u v)
    ∧ get_graph unit_bandwidth true w = Ok g' w
    ∧ number_of_nodes g' = 4 ∧ number_of_edges g' = 0
    ∧ ∃ w2 g2,
        complete_bootstrap w = Ok tt w2
        ∧ get_graph unit_bandwidth false w2 = Ok g w2
        ∧ get_graph unit_bandwidth true w2 = Ok g2 w2
        ∧ number_of_nodes g2 = 4 ∧ number_of_edges g2 = 3
        ∧ ∀ u v, has_edge g2 u v
                 <-> (u = "bootstrap_0" ∧ v ∈ ["basic_1"; "basic_2"; "basic_3"])
                     ∨ (v = "bootstrap_0" ∧ u ∈ ["basic_1"; "basic_2"; "basic_3"]).
Proof.
  apply (bootstrap_scenario_graph plain_factory unit_bandwidth []);
    [reflexivity..|].
  refine (bool_decide_unpack _ _). vm_compute. exact I.
Defined.

(** ** Connection symmetry in the worlds the operations reach *)

Lemma lists_heap (w w' : World) (x y : peer_id) :
  heap w' = heap w -> lists w' x y <-> lists w x y.
Proof. unfold lists. by intros ->. Qed.

Lemma lists_link (w : World) (a b : peer_id) (pa : Peer) (x y : peer_id) :
  heap w !! a = Some pa ->
  lists (link a b w) x y <-> lists w x y ∨ (x = a ∧ y = b).
Proof.
  intros Ha. unfold lists. destruct (decide (x = a)) as [->|Hne].
  - rewrite (link_lookup_self _ _ _ _ Ha), Ha. split.
    + intros (px & [= <-] & Hy). cbn in Hy. rewrite dom_insert_L in Hy.
      apply elem_of_union in Hy as [->%elem_of_singleton|Hy]; eauto.
    + intros [(px & [= <-] & Hy)|[_ ->]]; eexists; (split; [done|]);
        cbn; rewrite dom_insert_L; set_solver.
  - rewrite link_lookup_other by done. naive_solver.
Qed.

Lemma lists_unlink (w : World) (a b : peer_id) (pa : Peer) (x y : peer_id) :
  heap w !! a = Some pa ->
  lists (unlink a b w) x y <-> lists w x y ∧ ¬ (x = a ∧ y = b).
Proof.
  intros Ha. unfold lists. destruct (decide (x = a)) as [->|Hne].
  - rewrite (unlink_lookup_self _ _ _ _ Ha), Ha. split.
    + intros (px & [= <-] & Hy). cbn in Hy. rewrite dom_delete_L in Hy.
      split; [eexists; split; [done|set_solver]|]. set_solver.
    + intros [(px & [= <-] & Hy) Hn]. eexists. split; [done|].
      cbn. rewrite dom_delete_L. set_solver.
  - rewrite unlink_lookup_other by done. naive_solver.
Qed.

Lemma reciprocal_heap (w w' : World) :
  heap w' = heap w -> reciprocal w -> reciprocal w'.
Proof.
  intros Hh Hw x y Hxy. apply (lists_heap w w') in Hxy; [|done].
  apply (lists_heap w w'); [done|]. by apply (Hw x y).
Qed.

Lemma reciprocal_modify (w w' : World) (a : peer_id) (p x : Peer) :
  heap w !! a = Some p -> connections x = connections p ->
  heap w' = <[a := x]> (heap w) ->
  reciprocal w -> reciprocal w'.
Proof.
  intros Ha Hc Hh Hw.
  assert (Hl : ∀ u v, lists w' u v <-> lists w u v).
  { intros u v. unfold lists. rewrite Hh.
    destruct (decide (u = a)) as [->|Hne].
    - rewrite lookup_insert_eq, Ha. split; intros (px & [= <-] & Hv); eexists;
        (split; [done|]); congruence.
    - by rewrite lookup_insert_ne. }
  intros u v Huv. apply Hl in Huv. apply Hl. by apply (Hw u v).
Qed.

Lemma reciprocal_connect (fuel : nat) (a b : peer_id) (w : World) :
  reciprocal w -> reciprocal (after (connect fuel a b) w).
Proof.
  intros Hw. unfold after.
  destruct fuel as [|fuel]; [done|].
  destruct (heap w !! a) as [pa|] eqn:Ha; cycle 1.
  { cbn [connect]. unfold is_connected. by rewrite bind_assoc, bind_get_peer_dangling. }
  destruct (decide (b ∈ dom (connections pa))) as [Hab|Hab].
  { by rewrite (connect_listed _ _ _ _ _ Ha Hab). }
  destruct (decide (a = b)) as [<-|Hne].
  { rewrite (connect_half _ _ _ _ _ _ Ha Ha Hab (or_intror eq_refl)).
    intros x y Hxy. apply (lists_link _ _ _ _ _ _ Ha) in Hxy.
    apply (lists_link _ _ _ _ _ _ Ha).
    destruct Hxy as [Hxy|[-> ->]]; [left; by apply (Hw x y)|by right]. }
  destruct (heap w !! b) as [pb|] eqn:Hb; cycle 1.
  { cbn [connect]. mstep. rewrite bool_decide_eq_false_2 by done. cbn [negb].
    do 3 mstep. unfold is_connected. rewrite bind_assoc, bind_get_peer_dangling; [done|].
    cbn [heap set_heap bump_cnx add_log]. by rewrite lookup_insert_ne. }
  assert (Hba : a ∉ dom (connections pb)).
  { intros Hba. destruct (Hw b a) as (pa' & Ha' & Hin); [by exists pb|]. congruence. }
  destruct fuel as [|fuel].
  { cbn [connect]. mstep. rewrite bool_decide_eq_false_2 by done. cbn [negb].
    do 4 mstep. by rewrite bool_decide_eq_false_2 by done. }
  rewrite (connect_full _ _ _ _ _ _ Ha Hb Hne Hab Hba).
  assert (Hb1 : heap (link a b w) !! b = Some pb) by (by rewrite link_lookup_other).
  intros x y Hxy. apply (lists_link _ _ _ _ _ _ Hb1) in Hxy.
  rewrite (lists_link _ _ _ _ _ _ Ha) in Hxy.
  apply (lists_link _ _ _ _ _ _ Hb1). rewrite (lists_link _ _ _ _ _ _ Ha).
  destruct Hxy as [[Hxy|[-> ->]]|[-> ->]];
    [left; left; by apply (Hw x y)|by right|left; by right].
Qed.

Lemma reciprocal_disconnect (fuel : nat) (a b : peer_id) (w : World) :
  reciprocal w -> reciprocal (after (disconnect fuel a b) w).
Proof.
  intros Hw. unfold after.
  destruct fuel as [|fuel]; [done|].
  destruct (heap w !! a) as [pa|] eqn:Ha; cycle 1.
  { cbn [disconnect]. unfold is_connected. by rewrite bind_assoc, bind_get_peer_dangling. }
  destruct (decide (b ∈ dom (connections pa))) as [Hab|Hab]; cycle 1.
  { by rewrite (disconnect_unlisted _ _ _ _ _ Ha Hab). }
  destruct (decide (a = b)) as [<-|Hne].
  { rewrite (disconnect_half _ _ _ _ _ _ Ha Ha Hab (or_intror eq_refl)).
    intros x y Hxy. apply (lists_heap (unlink a a w)) in Hxy; [|done].
    apply (lists_unlink _ _ _ _ _ _ Ha) in Hxy as [H1 H2].
    apply (lists_heap (unlink a a w)); [done|].
    apply (lists_unlink _ _ _ _ _ _ Ha).
    split; [by apply (Hw x y)|]. intros [-> ->]. by apply H2. }
  destruct (Hw a b) as (pb & Hb & Hba); [by exists pa|].
  destruct fuel as [|fuel].
  { cbn [disconnect]. mstep. rewrite bool_decide_eq_true_2 by done.
    do 3 mstep. by rewrite bool_decide_eq_true_2 by done. }
  rewrite (disconnect_full _ _ _ _ _ _ Ha Hb Hne Hab Hba).
  assert (Hb1 : heap (unlink a b w) !! b = Some pb) by (by rewrite unlink_lookup_other).
  intros x y Hxy. apply (lists_heap (unlink b a (unlink a b w))) in Hxy; [|done].
  apply (lists_unlink _ _ _ _ _ _ Hb1) in Hxy as [Hxy H3].
  apply (lists_unlink _ _ _ _ _ _ Ha) in Hxy as [H1 H2].
  apply (lists_heap (unlink b a (unlink a b w))); [done|].
  apply (lists_unlink _ _ _ _ _ _ Hb1). rewrite (lists_unlink _ _ _ _ _ _ Ha).
  repeat split; [by apply (Hw x y)|intros [-> ->]; by apply H3|intros [-> ->]; by apply H2].
Qed.

(** The hypothesis of C1 and C3 holds in every world the operations
    reach. *)
Lemma reachable_reciprocal (w : World) : reachable w -> reciprocal w.
Proof.
  induction 1 as [r|fuel o w _ IH].
  { intros x y (px & Hx & _). cbn [heap initial] in Hx. by rewrite lookup_empty in Hx. }
  pose proof (run_op_frame fuel o w) as Hframe.
  destruct o as [nm loc ul dl| | | a b | a b | | | | | a s | | | a nm st | a cb];
    try (by eapply reciprocal_heap).
  - intros x y. unfold lists, after. cbn [run_op bind new_peer ret heap set_heap].
    pose proof (is_fresh (dom (heap w))) as Hfresh.
    set (p := fresh (dom (heap w))) in *.
    intros (px & Hx & Hy). destruct (decide (x = p)) as [->|Hne].
    { rewrite lookup_insert_eq in Hx. injection Hx as <-. cbn in Hy. set_solver. }
    rewrite lookup_insert_ne in Hx by done.
    destruct (IH x y) as (py & Hpy & Hin); [by exists px|].
    exists py. split; [|done]. rewrite lookup_insert_ne; [done|].
    intros <-. apply Hfresh, elem_of_dom. eauto.
  - by apply reciprocal_connect.
  - by apply reciprocal_disconnect.
  - unfold after. cbn [run_op]. destruct (heap w !! a) as [p|] eqn:Hp.
    + rewrite (add_service_run _ _ _ _ Hp).
      eapply (reciprocal_modify w _ a p); [done|apply register_connections|done|done].
    + by rewrite add_service_dangling.
  - unfold after. cbn [run_op]. unfold add_storage, modify_peer.
    destruct (heap w !! a) as [p|] eqn:Hp; [|done].
    eapply (reciprocal_modify w _ a p _ Hp); [|reflexivity|done]. done.
  - unfold after. cbn [run_op]. unfold add_disconnect_callback, modify_peer.
    destruct (heap w !! a) as [p|] eqn:Hp; [|done].
    eapply (reciprocal_modify w _ a p _ Hp); [|reflexivity|done]. done.
Qed.

(** * Further properties of the peer runtime *)

(** ** Broadcast *)

(** X1. broadcast of a message authored by the peer returns having called
    send exactly once on the connection of every key of connections, and
    changes nothing else. *)
Theorem broadcast_complete (w : World) (p : peer_id) (pp : Peer) (m : Message) :
  heap w !! p = Some pp -> msg_sender m = p ->
  ∃ targets cnxs,
    broadcast p m w = Ok tt (add_calls (map (fun c => CnxSend c m false) cnxs) w)
    ∧ NoDup targets
    ∧ (∀ t, t ∈ targets <-> is_Some (connections pp !! t))
    ∧ Forall2 (fun t c => connections pp !! t = Some c) targets cnxs.
Proof.
  intros Hp Hs.
  destruct (for_each_send w p pp m (elements (dom (connections pp))) Hp Hs)
    as (cnxs & HF & Hrun).
  { apply Forall_forall. intros t Ht. by apply elem_of_elements in Ht. }
  exists (elements (dom (connections pp))), cnxs. split.
  { unfold broadcast. mstep. exact Hrun. }
  split; [apply NoDup_elements|]. split; [|done].
  intros t. by rewrite elem_of_elements, elem_of_dom.
Qed.

Lemma three_peers_reachable : reachable three_peers.
Proof. unfold three_peers. repeat apply reachable_step. apply reachable_initial. Qed.

Lemma broadcast_complete_witness :
  ∃ targets cnxs,
    broadcast 0 (mkMessage "Ping" 0 1) three_peers
    = Ok tt (add_calls (map (fun c => CnxSend c (mkMessage "Ping" 0 1) false) cnxs)
               three_peers)
    ∧ NoDup targets
    ∧ (∀ t, t ∈ targets <-> is_Some (connections (peer_at three_peers 0) !! t))
    ∧ Forall2 (fun t c => connections (peer_at three_peers 0) !! t = Some c) targets cnxs.
Proof.
  apply (broadcast_complete three_peers 0 (peer_at three_peers 0) (mkMessage "Ping" 0 1)).
  - vm_compute. reflexivity.
  - reflexivity.
Defined.

(** X2. broadcast of a message authored by another peer raises
    AssertionError before anything is sent as soon as the peer has one
    connection; with no connection it returns without a check. *)
Theorem broadcast_foreign_message (w : World) (p : peer_id) (pp : Peer) (m : Message) :
  heap w !! p = Some pp -> msg_sender m ≠ p ->
  (connections pp ≠ ∅ -> broadcast p m w = Raise AssertionError w)
  ∧ (connections pp = ∅ -> broadcast p m w = Ok tt w).
Proof.
  intros Hp Hs. unfold broadcast. split; intros Hc.
  - mstep. destruct (elements (dom (connections pp))) as [|t l] eqn:He.
    { apply elements_empty_inv in He. apply leibniz_equiv in He.
      apply dom_empty_inv_L in He. done. }
    cbn [for_each]. erewrite bind_Raise; [done|].
    unfold send. mstep. by rewrite bool_decide_eq_false_2.
  - mstep. by rewrite Hc, dom_empty_L, elements_empty.
Qed.

Lemma broadcast_foreign_message_witness :
  (connections (peer_at three_peers 0) ≠ ∅ ->
   broadcast 0 (mkMessage "Ping" 1 1) three_peers = Raise AssertionError three_peers)
  ∧ (connections (peer_at three_peers 0) = ∅ ->
     broadcast 0 (mkMessage "Ping" 1 1) three_peers = Ok tt three_peers).
Proof.
  apply (broadcast_foreign_message three_peers 0 (peer_at three_peers 0)).
  - vm_compute. reflexivity.
  - cbn. lia.
Defined.

(** ** Connections *)

Lemma set_connections_id (p : Peer) : set_connections (connections p) p = p.
Proof. by destruct p. Qed.

Lemma set_connections_twice (c c' : gmap nat Connection) (p : Peer) :
  set_connections c (set_connections c' p) = set_connections c p.
Proof. reflexivity. Qed.

Lemma link_next_cnx (w : World) (a b : peer_id) (pa : Peer) :
  heap w !! a = Some pa -> next_cnx (link a b w) = S (next_cnx w).
Proof. intros H. unfold link. by rewrite H. Qed.

Lemma link_heap (w : World) (a b : peer_id) (pa : Peer) :
  heap w !! a = Some pa ->
  heap (link a b w)
  = <[a := set_connections (<[b := mkConnection (next_cnx w) a b]> (connections pa)) pa]>
      (heap w).
Proof. intros H. unfold link. by rewrite H. Qed.

Lemma unlink_heap (w : World) (a b : peer_id) (pa : Peer) :
  heap w !! a = Some pa ->
  heap (unlink a b w) = <[a := set_connections (delete b (connections pa)) pa]> (heap w).
Proof. intros H. unfold unlink. by rewrite H. Qed.

(** X3. For two distinct peers with no entry for each other, connect
    followed by disconnect puts every peer back as it was; on the way two
    Connection objects were built and the disconnect callbacks of both sides
    were called, B's before A's. *)
Theorem connect_disconnect_round_trip (w : World) (A B : peer_id) (pa pb : Peer) :
  A ≠ B -> heap w !! A = Some pa -> heap w !! B = Some pb ->
  B ∉ dom (connections pa) -> A ∉ dom (connections pb) ->
  ∃ w1 w2,
    connect 2 A B w = Ok tt w1
    ∧ disconnect 2 A B w1 = Ok tt w2
    ∧ heap w2 = heap w
    ∧ next_cnx w2 = S (S (next_cnx w))
    ∧ calls w2 = calls w ++ fired B A pb ++ fired A B pa.
Proof.
  intros Hne Ha Hb Hab Hba.
  pose proof (connect_full 0 w A B pa pb Ha Hb Hne Hab Hba) as Hc.
  destruct (connect_full_world w A B pa pb Ha Hb Hne) as (Hh1 & _ & Hn1).
  set (w1 := link B A (link A B w)) in *.
  set (pa1 := set_connections (<[B := mkConnection (next_cnx w) A B]> (connections pa)) pa) in *.
  set (pb1 := set_connections (<[A := mkConnection (S (next_cnx w)) B A]> (connections pb)) pb) in *.
  assert (Ha1 : heap w1 !! A = Some pa1) by (rewrite Hh1; by lk).
  assert (Hb1 : heap w1 !! B = Some pb1) by (rewrite Hh1; by lk).
  assert (Hab1 : B ∈ dom (connections pa1)) by (cbn; set_solver).
  assert (Hba1 : A ∈ dom (connections pb1)) by (cbn; set_solver).
  pose proof (disconnect_full 0 w1 A B pa1 pb1 Ha1 Hb1 Hne Hab1 Hba1) as Hd.
  eexists w1, _. split; [exact Hc|]. split; [exact Hd|].
  assert (Hb2 : heap (unlink A B w1) !! B = Some pb1)
    by (by rewrite unlink_lookup_other).
  cbn [heap next_cnx calls add_calls].
  rewrite (unlink_heap _ _ _ _ Hb2), (unlink_heap _ _ _ _ Ha1), Hh1.
  split.
  { subst pa1 pb1. cbn [connections set_connections].
    apply not_elem_of_dom in Hab, Hba.
    rewrite !delete_insert_id by done. rewrite !set_connections_twice.
    apply map_eq. intros k.
    destruct (decide (k = B)) as [->|?]; [lk; by rewrite Hb, set_connections_id|].
    destruct (decide (k = A)) as [->|?]; [lk; by rewrite Ha, set_connections_id|].
    by lk. }
  split.
  { unfold unlink at 1. rewrite Hb2. cbn [next_cnx set_heap add_log].
    unfold unlink. rewrite Ha1. cbn [next_cnx set_heap add_log]. done. }
  rewrite !unlink_calls. subst w1. rewrite !link_calls.
  by rewrite <- app_assoc.
Qed.

Lemma connect_disconnect_round_trip_witness :
  ∃ w1 w2,
    connect 2 0 1 two_peers = Ok tt w1
    ∧ disconnect 2 0 1 w1 = Ok tt w2
    ∧ heap w2 = heap two_peers
    ∧ next_cnx w2 = S (S (next_cnx two_peers))
    ∧ calls w2 = calls two_peers ++ fired 1 0 (peer_at two_peers 1)
                   ++ fired 0 1 (peer_at two_peers 0).
Proof.
  apply (connect_disconnect_round_trip two_peers 0 1
           (peer_at two_peers 0) (peer_at two_peers 1));
    [lia|vm_compute; reflexivity|vm_compute; reflexivity|vm_compute..].
  - intros H. discriminate.
  - intros H. discriminate.
Defined.

(** X4. In every world reached through the operations on peers, the
    connection relation is symmetric: whenever A.is_connected(B) returns
    true, so does B.is_connected(A). *)
Theorem connection_symmetry_invariant (w : World) (A B : peer_id) :
  reachable w ->
  is_connected A B w = Ok true w -> is_connected B A w = Ok true w.
Proof.
  intros Hr HAB. pose proof (reachable_reciprocal w Hr A B) as Hrec.
  unfold is_connected, bind, get_peer, ret in HAB.
  destruct (heap w !! A) as [pa|] eqn:Ha; [|done].
  injection HAB as HAB. apply bool_decide_eq_true in HAB.
  destruct Hrec as (pb & Hb & Hin); [by exists pa|].
  rewrite (is_connected_run _ _ _ _ Hb). by rewrite bool_decide_eq_true_2.
Qed.

Lemma connection_symmetry_invariant_witness :
  is_connected 0 2 three_peers = Ok true three_peers
  ∧ is_connected 2 0 three_peers = Ok true three_peers.
Proof.
  split; [vm_compute; reflexivity|].
  apply (connection_symmetry_invariant three_peers 0 2);
    [apply three_peers_reachable|vm_compute; reflexivity].
Defined.

(** X5. connect of a peer to itself is not rejected: it records one
    connection from the peer to itself, without recursion, and
    is_connected(self) then returns true. *)
Theorem connect_self (fuel : nat) (w : World) (A : peer_id) (pa : Peer) :
  heap w !! A = Some pa -> A ∉ dom (connections pa) -> 1 ≤ fuel ->
  ∃ w' pa',
    connect fuel A A w = Ok tt w'
    ∧ heap w' = <[A := pa']> (heap w)
    ∧ connections pa' = <[A := mkConnection (next_cnx w) A A]> (connections pa)
    ∧ is_connected A A w' = Ok true w'
    ∧ next_cnx w' = S (next_cnx w)
    ∧ logs w' = logs w ++ [mkLog (Some A) Info (LConnecting A)].
Proof.
  intros Ha Hn Hfuel. destruct fuel as [|fuel]; [lia|].
  exists (link A A w),
    (set_connections (<[A := mkConnection (next_cnx w) A A]> (connections pa)) pa).
  split; [by apply (connect_half fuel w A A pa pa Ha Ha Hn (or_intror eq_refl))|].
  split; [by apply link_heap|]. split; [reflexivity|].
  split.
  { rewrite (is_connected_run _ _ _ _ (link_lookup_self _ _ A _ Ha)).
    rewrite bool_decide_eq_true_2; [done|]. cbn. set_solver. }
  split; [by eapply link_next_cnx|by eapply link_logs].
Qed.

Lemma connect_self_witness :
  ∃ w' pa',
    connect 1 0 0 two_peers = Ok tt w'
    ∧ heap w' = <[0 := pa']> (heap two_peers)
    ∧ connections pa' = <[0 := mkConnection (next_cnx two_peers) 0 0]>
                          (connections (peer_at two_peers 0))
    ∧ is_connected 0 0 w' = Ok true w'
    ∧ next_cnx w' = S (next_cnx two_peers)
    ∧ logs w' = logs two_peers ++ [mkLog (Some 0) Info (LConnecting 0)].
Proof.
  apply (connect_self 1 two_peers 0 (peer_at two_peers 0)); [vm_compute; reflexivity| |lia].
  vm_compute. intros H. discriminate.
Defined.

Lemma link_frame (w : World) (a b : peer_id) :
  calls (link a b w) = calls w ∧ sim (link a b w) = sim w ∧ rng (link a b w) = rng w.
Proof. unfold link. by destruct (heap w !! a). Qed.

Lemma unlink_frame (w : World) (a b : peer_id) :
  sim (unlink a b w) = sim w ∧ rng (unlink a b w) = rng w
  ∧ next_cnx (unlink a b w) = next_cnx w.
Proof. unfold unlink. by destruct (heap w !! a). Qed.

Lemma connect_writes (fuel : nat) (w : World) (A B : peer_id) (pa pb : Peer) :
  heap w !! A = Some pa -> heap w !! B = Some pb -> 2 ≤ fuel ->
  ∃ w' pa' pb',
    connect fuel A B w = Ok tt w'
    ∧ heap w' !! A = Some pa' ∧ heap w' !! B = Some pb'
    ∧ (∀ C, C ≠ A -> C ≠ B -> heap w' !! C = heap w !! C)
    ∧ pa' = set_connections (connections pa') pa
    ∧ pb' = set_connections (connections pb') pb
    ∧ (∀ k c, connections pa !! k = Some c -> connections pa' !! k = Some c)
    ∧ (∀ k c, connections pb !! k = Some c -> connections pb' !! k = Some c)
    ∧ dom (connections pa') = dom (connections pa) ∪ {[B]}
    ∧ dom (connections pb') ⊆ dom (connections pb) ∪ {[A]}
    ∧ calls w' = calls w ∧ sim w' = sim w ∧ rng w' = rng w.
Proof.
  intros Ha Hb Hfuel. destruct fuel as [|[|fuel]]; [lia..|].
  destruct (decide (B ∈ dom (connections pa))) as [Hab|Hab].
  { exists w, pa, pb. rewrite (connect_listed _ _ _ _ _ Ha Hab).
    rewrite !set_connections_id. repeat split; try done; set_solver. }
  apply not_elem_of_dom in Hab as Hab'.
  destruct (decide (A = B)) as [<-|Hne].
  { assert (pb = pa) as -> by congruence.
    rewrite (connect_half _ _ _ _ _ _ Ha Ha Hab (or_intror eq_refl)).
    destruct (link_frame w A A) as (? & ? & ?).
    pose proof (link_lookup_self w A A pa Ha) as Ha1.
    eexists _, _, _. split; [done|]. split; [exact Ha1|]. split; [exact Ha1|].
    split; [intros C HC _; by apply link_lookup_other|].
    cbn [connections set_connections].
    repeat split; try done.
    - intros k c Hk. rewrite lookup_insert_ne; [done|]. congruence.
    - intros k c Hk. rewrite lookup_insert_ne; [done|]. congruence.
    - rewrite dom_insert_L. set_solver.
    - rewrite dom_insert_L. set_solver. }
  destruct (decide (A ∈ dom (connections pb))) as [Hba|Hba].
  - rewrite (connect_half _ _ _ _ _ _ Ha Hb Hab (or_introl Hba)).
    destruct (link_frame w A B) as (? & ? & ?).
    pose proof (link_lookup_self w A B pa Ha) as Ha1.
    eexists _, _, pb. split; [done|]. split; [exact Ha1|].
    split; [by rewrite link_lookup_other|].
    split; [intros C HC _; by apply link_lookup_other|].
    cbn [connections set_connections]. rewrite set_connections_id.
    repeat split; try done.
    + intros k c Hk. rewrite lookup_insert_ne; [done|]. congruence.
    + rewrite dom_insert_L. set_solver.
    + set_solver.
  - rewrite (connect_full _ _ _ _ _ _ Ha Hb Hne Hab Hba).
    destruct (connect_full_world w A B pa pb Ha Hb Hne) as (Hh & Hs & _).
    destruct (link_frame (link A B w) B A) as (Hc1 & _ & Hr1).
    destruct (link_frame w A B) as (Hc0 & _ & Hr0).
    apply not_elem_of_dom in Hba as Hba'.
    eexists _, _, _. split; [done|]. rewrite Hh.
    split; [by lk|]. split; [by lk|].
    split; [intros C ? ?; by lk|].
    cbn [connections set_connections].
    repeat split; try done; try congruence.
    + intros k c Hk. rewrite lookup_insert_ne; [done|]. congruence.
    + intros k c Hk. rewrite lookup_insert_ne; [done|]. congruence.
    + rewrite dom_insert_L. set_solver.
    + rewrite dom_insert_L. set_solver.
Qed.

(** X6. connect on two live peers returns, and writes only to the
    connections of these two peers: every other peer, and every other field
    of the two, is as before; entries already present keep their Connection
    object; afterwards the caller lists the other peer, and the other peer
    has gained at most the entry for the caller.  No collaborator is
    called. *)
Theorem connect_frame (fuel : nat) (w : World) (A B : peer_id) (pa pb : Peer) :
  heap w !! A = Some pa -> heap w !! B = Some pb -> 2 ≤ fuel ->
  ∃ w' pa' pb',
    connect fuel A B w = Ok tt w'
    ∧ heap w' !! A = Some pa' ∧ heap w' !! B = Some pb'
    ∧ (∀ C, C ≠ A -> C ≠ B -> heap w' !! C = heap w !! C)
    ∧ pa' = set_connections (connections pa') pa
    ∧ pb' = set_connections (connections pb') pb
    ∧ (∀ k c, connections pa !! k = Some c -> connections pa' !! k = Some c)
    ∧ (∀ k c, connections pb !! k = Some c -> connections pb' !! k = Some c)
    ∧ dom (connections pa') = dom (connections pa) ∪ {[B]}
    ∧ dom (connections pb') ⊆ dom (connections pb) ∪ {[A]}
    ∧ calls w' = calls w ∧ sim w' = sim w ∧ rng w' = rng w.
Proof. apply connect_writes. Qed.

Lemma connect_frame_witness :
  ∃ w' pa' pb',
    connect 2 1 2 three_peers = Ok tt w'
    ∧ heap w' !! 1 = Some pa' ∧ heap w' !! 2 = Some pb'
    ∧ (∀ C, C ≠ 1 -> C ≠ 2 -> heap w' !! C = heap three_peers !! C)
    ∧ pa' = set_connections (connections pa') (peer_at three_peers 1)
    ∧ pb' = set_connections (connections pb') (peer_at three_peers 2)
    ∧ (∀ k c, connections (peer_at three_peers 1) !! k = Some c ->
              connections pa' !! k = Some c)
    ∧ (∀ k c, connections (peer_at three_peers 2) !! k = Some c ->
              connections pb' !! k = Some c)
    ∧ dom (connections pa') = dom (connections (peer_at three_peers 1)) ∪ {[2]}
    ∧ dom (connections pb') ⊆ dom (connections (peer_at three_peers 2)) ∪ {[1]}
    ∧ calls w' = calls three_peers ∧ sim w' = sim three_peers
    ∧ rng w' = rng three_peers.
Proof.
  apply (connect_frame 2 three_peers 1 2 (peer_at three_peers 1) (peer_at three_peers 2));
    [vm_compute; reflexivity..|lia].
Defined.

Lemma disconnect_writes (fuel : nat) (w : World) (A B : peer_id) (pa pb : Peer) :
  heap w !! A = Some pa -> heap w !! B = Some pb ->
  B ∈ dom (connections pa) -> 2 ≤ fuel ->
  ∃ w',
    disconnect fuel A B w = Ok tt w'
    ∧ heap w' = <[B := set_connections (delete A (connections pb)) pb]>
                  (<[A := set_connections (delete B (connections pa)) pa]> (heap w))
    ∧ sim w' = sim w ∧ rng w' = rng w ∧ next_cnx w' = next_cnx w.
Proof.
  intros Ha Hb Hab Hfuel. destruct fuel as [|[|fuel]]; [lia..|].
  destruct (decide (A = B)) as [<-|Hne].
  { assert (pb = pa) as -> by congruence.
    rewrite (disconnect_half _ _ _ _ _ _ Ha Ha Hab (or_intror eq_refl)).
    eexists. split; [done|]. cbn [heap sim rng next_cnx add_calls].
    rewrite (unlink_heap _ _ _ _ Ha), insert_insert_eq.
    destruct (unlink_frame w A A) as (? & ? & ?). done. }
  destruct (decide (A ∈ dom (connections pb))) as [Hba|Hba].
  - rewrite (disconnect_full _ _ _ _ _ _ Ha Hb Hne Hab Hba).
    assert (Hb1 : heap (unlink A B w) !! B = Some pb)
      by (by rewrite unlink_lookup_other).
    eexists. split; [done|]. cbn [heap sim rng next_cnx add_calls].
    rewrite (unlink_heap _ _ _ _ Hb1), (unlink_heap _ _ _ _ Ha).
    destruct (unlink_frame (unlink A B w) B A) as (-> & -> & ->).
    destruct (unlink_frame w A B) as (-> & -> & ->). done.
  - rewrite (disconnect_half _ _ _ _ _ _ Ha Hb Hab (or_introl Hba)).
    eexists. split; [done|]. cbn [heap sim rng next_cnx add_calls].
    rewrite (unlink_heap _ _ _ _ Ha).
    destruct (unlink_frame w A B) as (-> & -> & ->).
    repeat split. apply not_elem_of_dom in Hba.
    rewrite (delete_id _ _ Hba), set_connections_id.
    symmetry. apply insert_id. by rewrite lookup_insert_ne.
Qed.

(** X7. disconnect on a peer that lists the other removes exactly the two
    reciprocal entries: the caller's entry for the other peer and the other
    peer's entry for the caller (if it has one); every other entry, field
    and peer is as before, and no Connection is built. *)
Theorem disconnect_frame (fuel : nat) (w : World) (A B : peer_id) (pa pb : Peer) :
  heap w !! A = Some pa -> heap w !! B = Some pb ->
  B ∈ dom (connections pa) -> 2 ≤ fuel ->
  ∃ w',
    disconnect fuel A B w = Ok tt w'
    ∧ heap w' = <[B := set_connections (delete A (connections pb)) pb]>
                  (<[A := set_connections (delete B (connections pa)) pa]> (heap w))
    ∧ sim w' = sim w ∧ rng w' = rng w ∧ next_cnx w' = next_cnx w.
Proof. apply disconnect_writes. Qed.

Lemma disconnect_frame_witness :
  ∃ w',
    disconnect 2 0 1 three_peers = Ok tt w'
    ∧ heap w' = <[1 := set_connections (delete 0 (connections (peer_at three_peers 1)))
                         (peer_at three_peers 1)]>
                  (<[0 := set_connections (delete 1 (connections (peer_at three_peers 0)))
                            (peer_at three_peers 0)]> (heap three_peers))
    ∧ sim w' = sim three_peers ∧ rng w' = rng three_peers
    ∧ next_cnx w' = next_cnx three_peers.
Proof.
  apply (disconnect_frame 2 three_peers 0 1 (peer_at three_peers 0) (peer_at three_peers 1));
    [vm_compute; reflexivity..|lia].
Defined.

(** ** Services *)

Lemma register_fields (s : Service) (p : Peer) :
  name (register s p) = name p
  ∧ connections (register s p) = connections p
  ∧ disconnect_callbacks (register s p) = disconnect_callbacks p
  ∧ storage (register s p) = storage p
  ∧ handlers (register s p)
    = (if svc_handler s then <[svc_class s := s]> (handlers p) else handlers p)
  ∧ mh_map (register s p)
    = (if svc_handler s then foldl (route (svc_class s)) (mh_map p) (svc_messages s)
       else mh_map p)
  ∧ runners (register s p)
    = (if svc_runner s then <[svc_class s := s]> (runners p) else runners p).
Proof. unfold register. by destruct (svc_handler s), (svc_runner s). Qed.

Lemma foldl_route_twice (n : string) (msgs : list string)
    (mh : gmap string (gset string)) :
  foldl (route n) (foldl (route n) mh msgs) msgs = foldl (route n) mh msgs.
Proof.
  apply map_eq. intros m. rewrite !foldl_route_lookup.
  case_bool_decide; [|done]. cbn [default from_option id]. f_equal. set_solver.
Qed.

Lemma register_twice (s : Service) (p : Peer) :
  register s (register s p) = register s p.
Proof.
  unfold register.
  destruct (svc_handler s), (svc_runner s);
    cbn [set_runners set_mh_map set_handlers runners mh_map handlers name location
         bandwidth_ul bandwidth_dl online connections disconnect_callbacks storage];
    rewrite ?insert_insert_eq, ?foldl_route_twice; reflexivity.
Qed.

(** X8. add_service is idempotent: registering the same service a second
    time returns and leaves the world exactly as the first registration
    left it. *)
Theorem add_service_idempotent (w : World) (p : peer_id) (pp : Peer) (s : Service) :
  heap w !! p = Some pp ->
  ∃ w1, add_service p s w = Ok tt w1 ∧ add_service p s w1 = Ok tt w1.
Proof.
  intros Hp. eexists. split; [by apply add_service_run|].
  erewrite add_service_run by (cbn [heap set_heap]; apply lookup_insert_eq).
  cbn [heap set_heap]. by rewrite register_twice, insert_insert_eq.
Qed.

Lemma add_service_idempotent_witness :
  ∃ w1, add_service 0 pong_service serviced_peers = Ok tt w1
        ∧ add_service 0 pong_service w1 = Ok tt w1.
Proof.
  apply (add_service_idempotent serviced_peers 0 (peer_at serviced_peers 0)).
  vm_compute. reflexivity.
Defined.

(** X9. add_service only adds: it returns, leaves every other peer and the
    connections, callbacks and storage of this one as they were, keeps every
    route of mh_map (each set of service names can only grow) and every
    handler and runner stored under another class name.  A handler is then
    stored under its class name, in place of any earlier one, and is routed
    every message type it declares; a runner is stored in runners; a service
    with neither capability changes nothing. *)
Theorem add_service_only_adds (w : World) (p : peer_id) (pp : Peer) (s : Service) :
  heap w !! p = Some pp ->
  ∃ pp',
    add_service p s w = Ok tt (set_heap (<[p := pp']> (heap w)) w)
    ∧ connections pp' = connections pp
    ∧ disconnect_callbacks pp' = disconnect_callbacks pp
    ∧ storage pp' = storage pp
    ∧ (∀ m ids, mh_map pp !! m = Some ids ->
         ∃ ids', mh_map pp' !! m = Some ids' ∧ ids ⊆ ids')
    ∧ (∀ n, n ≠ svc_class s ->
         handlers pp' !! n = handlers pp !! n ∧ runners pp' !! n = runners pp !! n)
    ∧ (svc_handler s = true ->
         handlers pp' !! svc_class s = Some s
         ∧ ∀ m, m ∈ svc_messages s ->
             ∃ ids, mh_map pp' !! m = Some ids ∧ svc_class s ∈ ids)
    ∧ (svc_runner s = true -> runners pp' !! svc_class s = Some s)
    ∧ (svc_handler s = false -> svc_runner s = false -> pp' = pp).
Proof.
  intros Hp. exists (register s pp). split; [by apply add_service_run|].
  destruct (register_fields s pp) as (_ & -> & -> & -> & -> & -> & ->).
  split; [done|]. split; [done|]. split; [done|]. split.
  { intros m ids Hm. destruct (svc_handler s); [|by exists ids].
    rewrite foldl_route_lookup, Hm. case_bool_decide.
    - eexists. split; [done|]. cbn. set_solver.
    - by exists ids. }
  split.
  { intros n Hn. split.
    - destruct (svc_handler s); [by rewrite lookup_insert_ne|done].
    - destruct (svc_runner s); [by rewrite lookup_insert_ne|done]. }
  split.
  { intros ->. split; [by rewrite lookup_insert_eq|].
    intros m Hm. rewrite foldl_route_lookup, bool_decide_eq_true_2 by done.
    eexists. split; [done|]. set_solver. }
  split.
  { intros ->. by rewrite lookup_insert_eq. }
  intros Hh Hr. unfold register. by rewrite Hh, Hr.
Qed.

Lemma add_service_only_adds_witness :
  ∃ pp',
    add_service 0 pong_service serviced_peers
    = Ok tt (set_heap (<[0 := pp']> (heap serviced_peers)) serviced_peers)
    ∧ connections pp' = connections (peer_at serviced_peers 0)
    ∧ disconnect_callbacks pp' = disconnect_callbacks (peer_at serviced_peers 0)
    ∧ storage pp' = storage (peer_at serviced_peers 0)
    ∧ (∀ m ids, mh_map (peer_at serviced_peers 0) !! m = Some ids ->
         ∃ ids', mh_map pp' !! m = Some ids' ∧ ids ⊆ ids')
    ∧ (∀ n, n ≠ svc_class pong_service ->
         handlers pp' !! n = handlers (peer_at serviced_peers 0) !! n
         ∧ runners pp' !! n = runners (peer_at serviced_peers 0) !! n)
    ∧ (svc_handler pong_service = true ->
         handlers pp' !! svc_class pong_service = Some pong_service
         ∧ ∀ m, m ∈ svc_messages pong_service ->
             ∃ ids, mh_map pp' !! m = Some ids ∧ svc_class pong_service ∈ ids)
    ∧ (svc_runner pong_service = true ->
         runners pp' !! svc_class pong_service = Some pong_service)
    ∧ (svc_handler pong_service = false -> svc_runner pong_service = false ->
         pp' = peer_at serviced_peers 0).
Proof.
  apply (add_service_only_adds serviced_peers 0 (peer_at serviced_peers 0) pong_service).
  vm_compute. reflexivity.
Defined.

Lemma register_tables_typed (s : Service) (p : Peer) :
  tables_typed p -> tables_typed (register s p).
Proof.
  intros (Hh & Hr & Hm). unfold tables_typed.
  destruct (register_fields s p) as (_ & _ & _ & _ & -> & -> & ->).
  split; [|split].
  - intros n s' H. destruct (svc_handler s) eqn:Hs; [|by eapply Hh].
    destruct (decide (n = svc_class s)) as [->|?].
    + rewrite lookup_insert_eq in H. injection H as <-. done.
    + rewrite lookup_insert_ne in H by done. by eapply Hh.
  - intros n s' H. destruct (svc_runner s) eqn:Hs; [|by eapply Hr].
    destruct (decide (n = svc_class s)) as [->|?].
    + rewrite lookup_insert_eq in H. injection H as <-. done.
    + rewrite lookup_insert_ne in H by done. by eapply Hr.
  - intros m ids H. destruct (svc_handler s); [|by eapply Hm].
    rewrite foldl_route_lookup in H. case_bool_decide; [|by eapply Hm].
    injection H as <-. set_solver.
Qed.

Lemma reachable_tables_typed (w : World) : reachable w -> all_peers tables_typed w.
Proof.
  induction 1 as [r|fuel o w _ IH].
  - intros a p H. cbn [heap initial] in H. by rewrite lookup_empty in H.
  - apply run_op_all_peers; [|done|apply register_tables_typed|done..].
    intros nm loc ul dl. split; [|split]; intros ? ? H;
      cbn [handlers runners mh_map Peer_init] in H; by rewrite lookup_empty in H.
Qed.

(** X10. In every world reached through the operations on peers, the
    service tables of every peer are consistent: a service found in
    handlers is a Handler stored under its class name and mh_map routes
    every message type it declares to that name; a service found in runners
    is a Runner stored under its class name; and no message type is routed
    to an empty set of names. *)
Theorem service_tables_invariant (w : World) (p : peer_id) (pp : Peer) :
  reachable w -> heap w !! p = Some pp ->
  (∀ n s, handlers pp !! n = Some s ->
     svc_class s = n ∧ svc_handler s = true
     ∧ ∀ m, m ∈ svc_messages s -> ∃ ids, mh_map pp !! m = Some ids ∧ n ∈ ids)
  ∧ (∀ n s, runners pp !! n = Some s -> svc_class s = n ∧ svc_runner s = true)
  ∧ (∀ m ids, mh_map pp !! m = Some ids -> ids ≠ ∅).
Proof.
  intros Hr Hp.
  destruct (reachable_tables_typed w Hr p pp Hp) as (Hh & Hrn & Hm).
  pose proof (reachable_handlers_routed w Hr p pp Hp) as Hrouted.
  split; [|by split].
  intros n s Hs. destruct (Hh n s Hs) as [? ?]. destruct (Hrouted n s Hs) as [_ ?].
  done.
Qed.

Lemma service_tables_invariant_witness :
  (∀ n s, handlers (peer_at serviced_peers 0) !! n = Some s ->
     svc_class s = n ∧ svc_handler s = true
     ∧ ∀ m, m ∈ svc_messages s ->
         ∃ ids, mh_map (peer_at serviced_peers 0) !! m = Some ids ∧ n ∈ ids)
  ∧ (∀ n s, runners (peer_at serviced_peers 0) !! n = Some s ->
       svc_class s = n ∧ svc_runner s = true)
  ∧ (∀ m ids, mh_map (peer_at serviced_peers 0) !! m = Some ids -> ids ≠ ∅).
Proof.
  apply (service_tables_invariant serviced_peers 0 (peer_at serviced_peers 0)).
  - apply serviced_peers_reachable.
  - vm_compute. reflexivity.
Defined.



(** ** Connection objects *)

Lemma connect_after_cases (fuel : nat) (a b : peer_id) (w : World) :
  after (connect fuel a b) w = w
  ∨ after (connect fuel a b) w = link a b w
  ∨ after (connect fuel a b) w = link b a (link a b w).
Proof.
  unfold after. destruct fuel as [|fuel]; [by left|].
  destruct (heap w !! a) as [pa|] eqn:Ha; cycle 1.
  { left. cbn [connect]. unfold is_connected.
    by rewrite bind_assoc, bind_get_peer_dangling. }
  destruct (decide (b ∈ dom (connections pa))) as [Hab|Hab].
  { left. by rewrite (connect_listed _ _ _ _ _ Ha Hab). }
  destruct (decide (a = b)) as [<-|Hne].
  { right. left. by rewrite (connect_half _ _ _ _ _ _ Ha Ha Hab (or_intror eq_refl)). }
  destruct (heap w !! b) as [pb|] eqn:Hb; cycle 1.
  { left. cbn [connect]. mstep. rewrite bool_decide_eq_false_2 by done. cbn [negb].
    do 3 mstep. unfold is_connected. rewrite bind_assoc, bind_get_peer_dangling; [done|].
    cbn [heap set_heap bump_cnx add_log]. by rewrite lookup_insert_ne. }
  destruct (decide (a ∈ dom (connections pb))) as [Hba|Hba].
  { right. left. by rewrite (connect_half _ _ _ _ _ _ Ha Hb Hab (or_introl Hba)). }
  destruct fuel as [|fuel].
  { left. cbn [connect]. mstep. rewrite bool_decide_eq_false_2 by done. cbn [negb].
    do 4 mstep. by rewrite bool_decide_eq_false_2 by done. }
  right. right. by rewrite (connect_full _ _ _ _ _ _ Ha Hb Hne Hab Hba).
Qed.

Lemma disconnect_after_cases (fuel : nat) (a b : peer_id) (w : World) :
  ∃ cs, after (disconnect fuel a b) w = w
        ∨ after (disconnect fuel a b) w = add_calls cs (unlink a b w)
        ∨ after (disconnect fuel a b) w = add_calls cs (unlink b a (unlink a b w)).
Proof.
  unfold after. destruct fuel as [|fuel]; [exists []; by left|].
  destruct (heap w !! a) as [pa|] eqn:Ha; cycle 1.
  { exists []. left. cbn [disconnect]. unfold is_connected.
    by rewrite bind_assoc, bind_get_peer_dangling. }
  destruct (decide (b ∈ dom (connections pa))) as [Hab|Hab]; cycle 1.
  { exists []. left. by rewrite (disconnect_unlisted _ _ _ _ _ Ha Hab). }
  destruct (decide (a = b)) as [<-|Hne].
  { eexists. right. left.
    by rewrite (disconnect_half _ _ _ _ _ _ Ha Ha Hab (or_intror eq_refl)). }
  destruct (heap w !! b) as [pb|] eqn:Hb; cycle 1.
  { exists []. left. cbn [disconnect]. mstep. rewrite bool_decide_eq_true_2 by done.
    do 2 mstep. unfold is_connected. rewrite bind_assoc, bind_get_peer_dangling; [done|].
    cbn [heap set_heap add_log]. by rewrite lookup_insert_ne. }
  destruct (decide (a ∈ dom (connections pb))) as [Hba|Hba]; cycle 1.
  { eexists. right. left.
    by rewrite (disconnect_half _ _ _ _ _ _ Ha Hb Hab (or_introl Hba)). }
  destruct fuel as [|fuel].
  { exists []. left. cbn [disconnect]. mstep. rewrite bool_decide_eq_true_2 by done.
    do 3 mstep. by rewrite bool_decide_eq_true_2 by done. }
  eexists. right. right.
  rewrite (disconnect_full _ _ _ _ _ _ Ha Hb Hne Hab Hba).
  unfold add_calls. cbn. by rewrite <- app_assoc.
Qed.

Lemma endpoints_heap (w w' : World) :
  heap w' = heap w -> endpoints_match w -> endpoints_match w'.
Proof. unfold endpoints_match. intros ->. done. Qed.

Lemma endpoints_modify (w w' : World) (a : peer_id) (p x : Peer) :
  heap w !! a = Some p -> connections x = connections p ->
  heap w' = <[a := x]> (heap w) ->
  endpoints_match w -> endpoints_match w'.
Proof.
  intros Ha Hc Hh Hw u pu b c. rewrite Hh.
  destruct (decide (u = a)) as [->|Hne].
  - rewrite lookup_insert_eq. intros [= <-]. rewrite Hc. by apply Hw.
  - rewrite lookup_insert_ne by done. apply Hw.
Qed.

Lemma endpoints_link (w : World) (a b : peer_id) :
  endpoints_match w -> endpoints_match (link a b w).
Proof.
  intros Hw. destruct (heap w !! a) as [pa|] eqn:Ha;
    [|unfold link; by rewrite Ha].
  intros u pu k c. rewrite (link_heap _ _ _ _ Ha).
  destruct (decide (u = a)) as [->|Hne].
  - rewrite lookup_insert_eq. intros [= <-]. cbn [connections set_connections].
    destruct (decide (k = b)) as [->|?].
    + rewrite lookup_insert_eq. by intros [= <-].
    + rewrite lookup_insert_ne by done. by apply Hw.
  - rewrite lookup_insert_ne by done. apply Hw.
Qed.

Lemma endpoints_unlink (w : World) (a b : peer_id) :
  endpoints_match w -> endpoints_match (unlink a b w).
Proof.
  intros Hw. destruct (heap w !! a) as [pa|] eqn:Ha;
    [|unfold unlink; by rewrite Ha].
  intros u pu k c. rewrite (unlink_heap _ _ _ _ Ha).
  destruct (decide (u = a)) as [->|Hne].
  - rewrite lookup_insert_eq. intros [= <-]. cbn [connections set_connections].
    intros [_ Hk]%lookup_delete_Some. by eapply Hw.
  - rewrite lookup_insert_ne by done. apply Hw.
Qed.

Lemma reachable_endpoints (w : World) : reachable w -> endpoints_match w.
Proof.
  induction 1 as [r|fuel o w _ IH].
  { intros a pa b c H. cbn [heap initial] in H. by rewrite lookup_empty in H. }
  pose proof (run_op_frame fuel o w) as Hframe.
  destruct o as [nm loc ul dl| | | a b | a b | | | | | a s | | | a nm st | a cb];
    try (by eapply endpoints_heap).
  - intros u pu b c. unfold after. cbn [run_op bind new_peer ret heap set_heap].
    destruct (decide (u = fresh (dom (heap w)))) as [->|Hne].
    + rewrite lookup_insert_eq. intros [= <-]. cbn. by rewrite lookup_empty.
    + rewrite lookup_insert_ne by done. apply IH.
  - cbn [run_op]. destruct (connect_after_cases fuel a b w) as [->|[->| ->]];
      [done|by apply endpoints_link|by do 2 apply endpoints_link].
  - cbn [run_op]. destruct (disconnect_after_cases fuel a b w) as (cs & [->|[->| ->]]);
      [done|..]; (eapply endpoints_heap; [reflexivity|]).
    + by apply endpoints_unlink.
    + by do 2 apply endpoints_unlink.
  - unfold after. cbn [run_op]. destruct (heap w !! a) as [p|] eqn:Hp.
    + rewrite (add_service_run _ _ _ _ Hp).
      eapply (endpoints_modify w _ a p); [done|apply register_connections|done|done].
    + by rewrite add_service_dangling.
  - unfold after. cbn [run_op]. unfold add_storage, modify_peer.
    destruct (heap w !! a) as [p|] eqn:Hp; [|done].
    eapply (endpoints_modify w _ a p _ Hp); [|reflexivity|done]. done.
  - unfold after. cbn [run_op]. unfold add_disconnect_callback, modify_peer.
    destruct (heap w !! a) as [p|] eqn:Hp; [|done].
    eapply (endpoints_modify w _ a p _ Hp); [|reflexivity|done]. done.
Qed.

(** X12. In every world reached through the operations on peers, the
    Connection stored by peer A under key B is one built by A for B: its
    sender is A and its receiver is B.  Hence two different entries never
    hold the same Connection object. *)
Theorem connection_endpoints_invariant (w : World) (A : peer_id) (pa : Peer)
    (B : peer_id) (c : Connection) :
  reachable w -> heap w !! A = Some pa -> connections pa !! B = Some c ->
  cnx_sender c = A ∧ cnx_receiver c = B
  ∧ ∀ A' pa' B', heap w !! A' = Some pa' -> connections pa' !! B' = Some c ->
      A' = A ∧ B' = B.
Proof.
  intros Hr Ha Hc. pose proof (reachable_endpoints w Hr) as HE.
  destruct (HE A pa B c Ha Hc) as [Hs Hrcv]. split; [done|]. split; [done|].
  intros A' pa' B' Ha' Hc'. destruct (HE A' pa' B' c Ha' Hc') as [Hs' Hr']. split; congruence.
Qed.

Lemma connection_endpoints_invariant_witness :
  cnx_sender (mkConnection 2 0 2) = 0 ∧ cnx_receiver (mkConnection 2 0 2) = 2
  ∧ ∀ A' pa' B', heap three_peers !! A' = Some pa' ->
      connections pa' !! B' = Some (mkConnection 2 0 2) -> A' = 0 ∧ B' = 2.
Proof.
  apply (connection_endpoints_invariant three_peers 0 (peer_at three_peers 0) 2).
  - apply three_peers_reachable.
  - vm_compute. reflexivity.
  - vm_compute. reflexivity.
Defined.

(** X13. After A.connect(B) on two live peers, A can send to B: send of a
    message authored by A returns, having called send once on the Connection
    A holds for B, and nothing else changes.  In a world reached through
    the operations on peers, that Connection goes from A to B, and B can
    send to A in the same way. *)
Theorem send_after_connect (fuel : nat) (w : World) (A B : peer_id) (pa pb : Peer)
    (m m' : Message) :
  heap w !! A = Some pa -> heap w !! B = Some pb -> 2 ≤ fuel ->
  msg_sender m = A -> msg_sender m' = B ->
  ∃ w1 c,
    connect fuel A B w = Ok tt w1
    ∧ send A B m w1 = Ok tt (add_call (CnxSend c m false) w1)
    ∧ (reachable w ->
       cnx_sender c = A ∧ cnx_receiver c = B
       ∧ ∃ c', send B A m' w1 = Ok tt (add_call (CnxSend c' m' false) w1)
               ∧ cnx_sender c' = B ∧ cnx_receiver c' = A).
Proof.
  intros Ha Hb Hfuel Hm Hm'.
  destruct (connect_writes fuel w A B pa pb Ha Hb Hfuel)
    as (w1 & pa1 & pb1 & Hc & Ha1 & Hb1 & _ & _ & _ & _ & _ & Hdom & _).
  assert (HB : B ∈ dom (connections pa1)) by (rewrite Hdom; set_solver).
  apply elem_of_dom in HB as [c HcB].
  exists w1, c. split; [done|]. split.
  { unfold send. mstep. rewrite bool_decide_eq_true_2 by done. cbn [negb].
    by rewrite HcB. }
  intros Hr.
  assert (Hr1 : reachable w1).
  { pose proof (reachable_step fuel (OpConnect A B) w Hr) as H.
    unfold after in H. cbn [run_op] in H. by rewrite Hc in H. }
  destruct (reachable_endpoints w1 Hr1 A pa1 B c Ha1 HcB) as [? ?].
  split; [done|]. split; [done|].
  destruct (reachable_reciprocal w1 Hr1 A B) as (pb1' & Hb1' & HA).
  { exists pa1. split; [done|]. by apply elem_of_dom. }
  assert (pb1' = pb1) as -> by congruence.
  apply elem_of_dom in HA as [c' Hc'].
  destruct (reachable_endpoints w1 Hr1 B pb1 A c' Hb1 Hc') as [? ?].
  exists c'. split; [|done].
  unfold send. mstep. rewrite bool_decide_eq_true_2 by done. cbn [negb].
  by rewrite Hc'.
Qed.

Lemma send_after_connect_witness :
  ∃ w1 c,
    connect 2 0 1 two_peers = Ok tt w1
    ∧ send 0 1 (mkMessage "Ping" 0 7) w1
      = Ok tt (add_call (CnxSend c (mkMessage "Ping" 0 7) false) w1)
    ∧ (reachable two_peers ->
       cnx_sender c = 0 ∧ cnx_receiver c = 1
       ∧ ∃ c', send 1 0 (mkMessage "Pong" 1 7) w1
               = Ok tt (add_call (CnxSend c' (mkMessage "Pong" 1 7) false) w1)
               ∧ cnx_sender c' = 1 ∧ cnx_receiver c' = 0).
Proof.
  apply (send_after_connect 2 two_peers 0 1 (peer_at two_peers 0) (peer_at two_peers 1));
    [vm_compute; reflexivity| vm_compute; reflexivity|lia|reflexivity|reflexivity].
Defined.

(** ** Gossip: the cases outside a non-negative fanout and an own message *)

(** X14. gossip on a live peer: a negative fanout raises ValueError (from
    random.sample) with nothing changed; fanout 0, or no candidate left
    after the exclusion, returns with nothing changed and no random draw;
    and with a positive fanout and at least one candidate, a message
    authored by another peer raises AssertionError from the first send, so
    that nothing is sent and no peer is modified. *)
Theorem gossip_edge_cases (w : World) (p : peer_id) (pp : Peer) (m : Message)
    (E : option (gset nat)) :
  heap w !! p = Some pp ->
  (∀ f, (f < 0)%Z -> gossip p m f E w = Raise ValueError w)
  ∧ gossip p m 0 E w = Ok tt w
  ∧ (∀ f, (0 ≤ f)%Z -> dom (connections pp) ∖ default ∅ E = ∅ ->
       gossip p m f E w = Ok tt w)
  ∧ (∀ f, (0 < f)%Z -> dom (connections pp) ∖ default ∅ E ≠ ∅ -> msg_sender m ≠ p ->
       ∃ w', gossip p m f E w = Raise AssertionError w'
             ∧ heap w' = heap w ∧ calls w' = calls w ∧ logs w' = logs w).
Proof.
  intros Hp.
  assert (HE : match E with None => ∅ | Some s => s end = default (∅ : gset nat) E)
    by by destruct E.
  split; [|split; [|split]].
  - intros f Hf. unfold gossip. mstep. unfold random_sample.
    rewrite bool_decide_eq_false_2 by lia. done.
  - unfold gossip. mstep. unfold random_sample.
    rewrite bool_decide_eq_true_2 by lia.
    rewrite Z.min_l by lia. done.
  - intros f Hf Hempty. unfold gossip. mstep. rewrite HE, Hempty.
    rewrite size_empty, elements_empty. unfold random_sample.
    rewrite bool_decide_eq_true_2 by (cbn; lia).
    replace (Z.to_nat (Z.min f (Z.of_nat 0))) with 0 by lia. done.
  - intros f Hf Hne Hs. unfold gossip. mstep. rewrite HE.
    set (cands := dom (connections pp) ∖ default ∅ E) in *.
    assert (Hsz : 0 < size cands).
    { destruct (decide (size cands = 0)) as [H0|]; [|lia].
      apply size_empty_inv in H0. by apply leibniz_equiv in H0. }
    assert (Hk : Z.to_nat (Z.min f (Z.of_nat (size cands))) ≤ length (elements cands)).
    { change (size cands) with (length (elements cands)). lia. }
    destruct (sample_pool_spec _ (elements cands) w Hk) as (res & rest & r & Hrun & Hlen & _).
    unfold random_sample. rewrite bool_decide_eq_true_2
      by (change (size cands) with (length (elements cands)); lia).
    erewrite bind_Ok by exact Hrun.
    destruct res as [|t res]; [cbn in Hlen; lia|].
    exists (set_rng r w). split; [|done].
    cbn [for_each]. apply bind_Raise. unfold send.
    erewrite bind_Ok by (apply get_peer_run; exact Hp).
    by rewrite bool_decide_eq_false_2.
Qed.

Lemma gossip_edge_cases_witness :
  (∀ f, (f < 0)%Z ->
     gossip 0 (mkMessage "Ping" 1 7) f (Some {[1]}) three_peers = Raise ValueError three_peers)
  ∧ gossip 0 (mkMessage "Ping" 1 7) 0 (Some {[1]}) three_peers = Ok tt three_peers
  ∧ (∀ f, (0 ≤ f)%Z ->
       dom (connections (peer_at three_peers 0)) ∖ default ∅ (Some {[1]}) = ∅ ->
       gossip 0 (mkMessage "Ping" 1 7) f (Some {[1]}) three_peers = Ok tt three_peers)
  ∧ (∀ f, (0 < f)%Z ->
       dom (connections (peer_at three_peers 0)) ∖ default ∅ (Some {[1]}) ≠ ∅ ->
       msg_sender (mkMessage "Ping" 1 7) ≠ 0 ->
       ∃ w', gossip 0 (mkMessage "Ping" 1 7) f (Some {[1]}) three_peers
             = Raise AssertionError w'
             ∧ heap w' = heap three_peers ∧ calls w' = calls three_peers
             ∧ logs w' = logs three_peers).
Proof.
  apply (gossip_edge_cases three_peers 0 (peer_at three_peers 0)).
  vm_compute. reflexivity.
Defined.

(** ** Runners *)

(** X15. After add_service of a Runner service on a live peer,
    start_all_runners starts that service exactly once, and once every
    runner that was registered before under another class name; a runner
    registered before under the same class name has been replaced and is
    not started. *)
Theorem runner_started_once (w : World) (a : peer_id) (p : Peer) (s : Service) :
  heap w !! a = Some p -> svc_runner s = true ->
  ∃ w1 started,
    add_service a s w = Ok tt w1
    ∧ start_all_runners a w1 = Ok tt (add_calls (map (RunnerStart a) started) w1)
    ∧ started ≡ₚ s :: (map_to_list (delete (svc_class s) (runners p))).*2.
Proof.
  intros Hp Hr. rewrite (add_service_run _ _ _ _ Hp).
  eexists _, _. split; [done|]. split.
  - erewrite start_all_runners_run by (cbn [heap set_heap]; apply lookup_insert_eq).
    by rewrite <- (map_map snd (RunnerStart a)).
  - destruct (register_fields s p) as (_ & _ & _ & _ & _ & _ & ->). rewrite Hr.
    rewrite <- insert_delete_eq.
    rewrite map_to_list_insert by apply lookup_delete_eq. done.
Qed.

Lemma runner_started_once_witness :
  ∃ w1 started,
    add_service 0 (mkService 9 "PongService" false true []) serviced_peers = Ok tt w1
    ∧ start_all_runners 0 w1 = Ok tt (add_calls (map (RunnerStart 0) started) w1)
    ∧ started ≡ₚ mkService 9 "PongService" false true []
                 :: (map_to_list (delete (svc_class (mkService 9 "PongService" false true []))
                                    (runners (peer_at serviced_peers 0)))).*2.
Proof.
  apply (runner_started_once serviced_peers 0 (peer_at serviced_peers 0)).
  - vm_compute. reflexivity.
  - reflexivity.
Defined.

(** ** Storage *)

(** X16. add_storage on a live peer returns and binds the name to the given
    storage, replacing an earlier binding of that name: a following store
    under that name calls add on the new storage, once, with the id and the
    value given; every other name keeps its storage, and no other field or
    peer changes. *)
Theorem add_storage_then_store (w : World) (a : peer_id) (p : Peer)
    (nm : string) (st : nat) :
  heap w !! a = Some p ->
  ∃ w1 p1,
    add_storage a nm st w = Ok tt w1
    ∧ heap w1 = <[a := p1]> (heap w)
    ∧ p1 = set_storage (storage p1) p
    ∧ storage p1 !! nm = Some st
    ∧ (∀ nm', nm' ≠ nm -> storage p1 !! nm' = storage p !! nm')
    ∧ (∀ id v, store a nm id v w1 = Ok tt (add_call (StorageAdd a st id v) w1))
    ∧ sim w1 = sim w ∧ calls w1 = calls w ∧ logs w1 = logs w.
Proof.
  intros Hp. unfold add_storage. rewrite (modify_peer_run _ _ _ _ Hp).
  eexists _, _. split; [done|]. split; [done|].
  cbn [storage set_storage].
  split; [done|]. split; [apply lookup_insert_eq|].
  split; [intros nm' Hne; by apply lookup_insert_ne|].
  split; [|done].
  intros id v. unfold store.
  erewrite bind_Ok by (apply get_peer_run; cbn [heap set_heap]; apply lookup_insert_eq).
  cbn [storage set_storage]. by rewrite lookup_insert_eq.
Qed.

Lemma add_storage_then_store_witness :
  ∃ w1 p1,
    add_storage 0 "blocks" 5 two_peers = Ok tt w1
    ∧ heap w1 = <[0 := p1]> (heap two_peers)
    ∧ p1 = set_storage (storage p1) (peer_at two_peers 0)
    ∧ storage p1 !! "blocks" = Some 5
    ∧ (∀ nm', nm' ≠ "blocks" -> storage p1 !! nm' = storage (peer_at two_peers 0) !! nm')
    ∧ (∀ id v, store 0 "blocks" id v w1 = Ok tt (add_call (StorageAdd 0 5 id v) w1))
    ∧ sim w1 = sim two_peers ∧ calls w1 = calls two_peers ∧ logs w1 = logs two_peers.
Proof.
  apply (add_storage_then_store two_peers 0 (peer_at two_peers 0)).
  vm_compute. reflexivity.
Defined.

(** ** Populating a simulation *)

Lemma random_choice_run {A} (l : list A) (w : World) :
  l ≠ [] ->
  ∃ x, random_choice l w = Ok x (set_rng (tail (rng w)) w) ∧ x ∈ l.
Proof.
  intros Hl. destruct l as [|a l]; [done|].
  unfold random_choice. erewrite bind_Ok by reflexivity.
  set (j := match rng w with [] => 0 | r :: _ => r `mod` length (a :: l) end).
  assert (Hj : j < length (a :: l)).
  { subst j. destruct (rng w); [cbn; lia|]. apply Nat.mod_upper_bound. done. }
  destruct (lookup_lt_is_Some_2 _ _ Hj) as [x Hx].
  exists x. rewrite Hx. split; [done|]. by eapply list_elem_of_lookup_2.
Qed.

Lemma dict_get_set_ne {V} (k k' : string) (v : V) (d : list (string * V)) :
  k' ≠ k -> dict_get k' (dict_set k v d) = dict_get k' d.
Proof.
  intros Hne. induction d as [|[k0 v0] d IH]; cbn.
  - by rewrite bool_decide_eq_false_2.
  - case_bool_decide as Hk; cbn.
    + subst k0. by rewrite !bool_decide_eq_false_2.
    + by rewrite IH.
Qed.

Lemma add_to_type_get (ty : string) (p : peer_id) (d : list (string * list peer_id)) :
  dict_get ty (add_to_type ty p d) = Some (default [] (dict_get ty d) ++ [p]).
Proof.
  unfold add_to_type, dict_mem. rewrite dict_get_set.
  destruct (dict_get ty d) as [l|] eqn:Hget; [by rewrite Hget|].
  by rewrite dict_get_set.
Qed.

Lemma add_to_type_get_ne (ty ty' : string) (p : peer_id) (d : list (string * list peer_id)) :
  ty' ≠ ty -> dict_get ty' (add_to_type ty p d) = dict_get ty' d.
Proof.
  intros Hne. unfold add_to_type, dict_mem. rewrite dict_get_set_ne by done.
  destruct (dict_get ty d); [done|]. by rewrite dict_get_set_ne.
Qed.

Section Populate.
Context (factory : string -> nat -> peer_config).

Lemma add_peer_step (ty : string) (w : World) (d : list (string * list peer_id))
    (bs : list peer_id) :
  sim w = mkSimulation d (Some bs) -> bs ≠ [] ->
  ∃ x b w',
    add_peer factory ty w = Ok tt w'
    ∧ b ∈ bs
    ∧ heap w' = <[fresh (dom (heap w)) := x]> (heap w)
    ∧ sim w' = mkSimulation (add_to_type ty (fresh (dom (heap w))) d) (Some bs)
    ∧ calls w' = calls w ++ [CnxSend (mkConnection (next_cnx w) (fresh (dom (heap w))) b)
                               (Hello (fresh (dom (heap w)))) true]
    ∧ logs w' = logs w
    ∧ connections x = ∅.
Proof.
  intros Hsim Hbs.
  destruct (create_peer_run factory ty w) as (x & Hrun & Hn & Hc).
  destruct (random_choice_run bs
              (set_heap (<[fresh (dom (heap w)) := x]> (heap w)) w) Hbs) as (b & Hb & Hin).
  exists x, b. unfold add_to_type, add_peer.
  erewrite bind_Ok by exact Hrun. mstep.
  cbn [sim set_heap]. rewrite Hsim. cbn [bootstrap_peers].
  erewrite bind_Ok by exact Hb.
  do 2 mstep.
  cbn [sim set_heap set_rng add_call bump_cnx]. rewrite Hsim. cbn [peers].
  destruct (dict_mem ty d) eqn:Hmem; cbn [negb].
  - do 2 mstep. cbn [sim set_heap set_rng add_call bump_cnx]. rewrite Hsim. cbn [peers].
    unfold dict_mem in Hmem. destruct (dict_get ty d) as [l|] eqn:Hget; [|done].
    eexists. split; [reflexivity|]. done.
  - do 2 mstep. cbn [sim set_sim set_peers peers].
    rewrite dict_get_set.
    eexists. split; [reflexivity|]. done.
Qed.

Lemma add_peer_loop (ty : string) (bs : list peer_id) (l : list nat) :
  bs ≠ [] ->
  ∀ (w : World) (d : list (string * list peer_id)),
  sim w = mkSimulation d (Some bs) ->
  ∃ w' new hellos d',
    for_each l (fun _ => add_peer factory ty) w = Ok tt w'
    ∧ length new = length l ∧ NoDup new
    ∧ (∀ p, p ∈ new -> p ∉ dom (heap w))
    ∧ dom (heap w') = dom (heap w) ∪ list_to_set new
    ∧ (∀ p, p ∈ dom (heap w) -> heap w' !! p = heap w !! p)
    ∧ (∀ p, p ∈ new -> ∃ x, heap w' !! p = Some x ∧ connections x = ∅)
    ∧ sim w' = mkSimulation d' (Some bs)
    ∧ default [] (dict_get ty d') = default [] (dict_get ty d) ++ new
    ∧ (∀ ty', ty' ≠ ty -> dict_get ty' d' = dict_get ty' d)
    ∧ calls w' = calls w ++ hellos
    ∧ Forall2 (hello_to bs) new hellos
    ∧ logs w' = logs w.
Proof.
  intros Hbs. induction l as [|i l IH]; intros w d Hsim.
  { exists w, [], [], d. cbn [for_each]. rewrite !app_nil_r.
    repeat split; try done.
    - apply NoDup_nil_2.
    - intros p Hp. by apply elem_of_nil in Hp.
    - set_solver.
    - intros p Hp. by apply elem_of_nil in Hp. }
  destruct (add_peer_step ty w d bs Hsim Hbs)
    as (x & b & w1 & Hrun & Hb & Hh1 & Hs1 & Hc1 & Hl1 & Hx).
  destruct (IH w1 _ Hs1)
    as (w' & new & hellos & d' & Hrun' & Hlen & Hnd & Hfresh & Hdom & Hold & Hnew
        & Hs' & Hty & Hoth & Hc' & Hhel & Hl').
  set (p := fresh (dom (heap w))) in *.
  assert (Hp : p ∉ dom (heap w)) by apply is_fresh.
  assert (Hp1 : p ∈ dom (heap w1)) by (rewrite Hh1, dom_insert_L; set_solver).
  exists w', (p :: new), (CnxSend (mkConnection (next_cnx w) p b) (Hello p) true :: hellos), d'.
  split; [cbn [for_each]; by erewrite bind_Ok by exact Hrun|].
  split; [cbn; by rewrite Hlen|].
  split; [apply NoDup_cons; split; [|done]; intros Hin; by apply (Hfresh p)|].
  split.
  { intros q [->|Hq]%elem_of_cons; [done|].
    intros Hq'. apply (Hfresh q Hq). rewrite Hh1, dom_insert_L. set_solver. }
  split; [rewrite Hdom, Hh1, dom_insert_L; set_solver|].
  split.
  { intros q Hq. rewrite Hold by (rewrite Hh1, dom_insert_L; set_solver).
    rewrite Hh1. apply lookup_insert_ne. intros ->. done. }
  split.
  { intros q [->|Hq]%elem_of_cons; [|by apply Hnew].
    exists x. split; [|done]. rewrite (Hold p Hp1), Hh1. apply lookup_insert_eq. }
  split; [done|].
  split; [rewrite Hty, add_to_type_get; cbn [default from_option id]; by rewrite <- app_assoc|].
  split; [intros ty' Hne; by rewrite Hoth, add_to_type_get_ne|].
  split; [rewrite Hc', Hc1; by rewrite <- app_assoc|].
  split; [|congruence].
  constructor; [|done]. by exists b, (next_cnx w).
Qed.



(** X17. add_peers on a simulation whose bootstrap_peers is a non-empty
    list returns, having created peer_num new peers, pairwise distinct and
    distinct from every earlier peer, each with no connection; they are
    appended, in the order of creation, to the list recorded under the
    type (created if the type is new); the lists of the other types, the
    bootstrap list and the earlier peers are as before; and for each new
    peer exactly one Hello authored by it is sent, with the connect flag,
    on a new Connection from it to a member of the bootstrap list. *)
Theorem add_peers_appends (peer_num : nat) (ty : string) (w : World)
    (d : list (string * list peer_id)) (bs : list peer_id) :
  sim w = mkSimulation d (Some bs) -> bs ≠ [] ->
  ∃ w' new hellos,
    add_peers factory peer_num ty w = Ok tt w'
    ∧ length new = peer_num ∧ NoDup new
    ∧ (∀ p, p ∈ new -> p ∉ dom (heap w))
    ∧ dom (heap w') = dom (heap w) ∪ list_to_set new
    ∧ (∀ p, p ∈ dom (heap w) -> heap w' !! p = heap w !! p)
    ∧ (∀ p, p ∈ new -> ∃ x, heap w' !! p = Some x ∧ connections x = ∅)
    ∧ bootstrap_peers (sim w') = Some bs
    ∧ peers_of ty (sim w') = peers_of ty (sim w) ++ new
    ∧ (∀ ty', ty' ≠ ty -> dict_get ty' (peers (sim w')) = dict_get ty' (peers (sim w)))
    ∧ calls w' = calls w ++ hellos
    ∧ Forall2 (hello_to bs) new hellos.
Proof.
  intros Hsim Hbs. unfold add_peers. mstep.
  destruct (add_peer_loop ty bs (seq 0 peer_num) Hbs
              (add_log (mkLog None Info (LCreating peer_num ty)) w) d Hsim)
    as (w' & new & hellos & d' & Hrun & Hlen & Hnd & Hfresh & Hdom & Hold & Hnew
        & Hs' & Hty & Hoth & Hc' & Hhel & _).
  exists w', new, hellos. rewrite length_seq in Hlen.
  unfold peers_of. rewrite Hs', Hsim. cbn [peers bootstrap_peers].
  repeat split; done.
Qed.


(** X19. On a simulation whose bootstrap_peers was never assigned (as
    Simulation.__init__ leaves it), init_bootstrap_servers and add_peers
    with a positive count raise AttributeError in their first iteration,
    after the factory has created one peer: that peer exists, but it is
    recorded nowhere and nothing was sent or started.  With count 0 both
    return, having only written their log line.  get_graph with bootstrap
    peers included raises AttributeError and changes nothing. *)
Theorem unassigned_bootstrap_peers (w : World) :
  bootstrap_peers (sim w) = None ->
  (∀ n, ∃ w' x,
     init_bootstrap_servers factory (S n) w = Raise AttributeError w'
     ∧ heap w' = <[fresh (dom (heap w)) := x]> (heap w)
     ∧ sim w' = sim w ∧ calls w' = calls w ∧ next_cnx w' = next_cnx w)
  ∧ (∀ n ty, ∃ w' x,
     add_peers factory (S n) ty w = Raise AttributeError w'
     ∧ heap w' = <[fresh (dom (heap w)) := x]> (heap w)
     ∧ sim w' = sim w ∧ calls w' = calls w ∧ next_cnx w' = next_cnx w)
  ∧ init_bootstrap_servers factory 0 w
    = Ok tt (add_log (mkLog None Info LInitBootstrap) w)
  ∧ (∀ ty, add_peers factory 0 ty w
           = Ok tt (add_log (mkLog None Info (LCreating 0 ty)) w))
  ∧ (∀ bandwidth, get_graph bandwidth true w = Raise AttributeError w).
Proof.
  intros Hnone. split; [|split; [|split; [|split]]].
  - intros n.
    destruct (create_peer_run factory "bootstrap"
                (add_log (mkLog None Info LInitBootstrap) w)) as (x & Hrun & _).
    eexists _, x. split.
    + unfold init_bootstrap_servers. mstep. cbn [seq for_each].
      apply bind_Raise. unfold init_bootstrap_server.
      erewrite bind_Ok by exact Hrun. mstep.
      cbn [sim set_heap add_log]. rewrite Hnone. reflexivity.
    + done.
  - intros n ty.
    destruct (create_peer_run factory ty
                (add_log (mkLog None Info (LCreating (S n) ty)) w)) as (x & Hrun & _).
    eexists _, x. split.
    + unfold add_peers. mstep. cbn [seq for_each].
      apply bind_Raise. unfold add_peer.
      erewrite bind_Ok by exact Hrun. mstep.
      cbn [sim set_heap add_log]. rewrite Hnone. reflexivity.
    + done.
  - unfold init_bootstrap_servers. by mstep.
  - intros ty. unfold add_peers. by mstep.
  - intros bandwidth. unfold get_graph. mstep. by rewrite Hnone.
Qed.

(** X20. add_peers with a positive count on a simulation whose
    bootstrap_peers is the empty list raises IndexError (from
    random.choice) in its first iteration, after the factory has created
    one peer: that peer exists, but it is not recorded in the peers
    dictionary, no Connection was built and no Hello sent, and no random
    draw was made. *)
Theorem add_peers_no_bootstrap_server (n : nat) (ty : string) (w : World) :
  bootstrap_peers (sim w) = Some [] ->
  ∃ w' x,
    add_peers factory (S n) ty w = Raise IndexError w'
    ∧ heap w' = <[fresh (dom (heap w)) := x]> (heap w)
    ∧ sim w' = sim w ∧ calls w' = calls w ∧ next_cnx w' = next_cnx w
    ∧ rng w' = rng w.
Proof.
  intros Hnil.
  destruct (create_peer_run factory ty
              (add_log (mkLog None Info (LCreating (S n) ty)) w)) as (x & Hrun & _).
  eexists _, x. split.
  - unfold add_peers. mstep. cbn [seq for_each].
    apply bind_Raise. unfold add_peer.
    erewrite bind_Ok by exact Hrun. mstep.
    cbn [sim set_heap add_log]. rewrite Hnil. reflexivity.
  - done.
Qed.

End Populate.

Lemma add_peers_appends_witness :
  ∃ w' new hellos,
    add_peers plain_factory 2 "basic" bootstrapped = Ok tt w'
    ∧ length new = 2 ∧ NoDup new
    ∧ (∀ p, p ∈ new -> p ∉ dom (heap bootstrapped))
    ∧ dom (heap w') = dom (heap bootstrapped) ∪ list_to_set new
    ∧ (∀ p, p ∈ dom (heap bootstrapped) -> heap w' !! p = heap bootstrapped !! p)
    ∧ (∀ p, p ∈ new -> ∃ x, heap w' !! p = Some x ∧ connections x = ∅)
    ∧ bootstrap_peers (sim w') = Some [0]
    ∧ peers_of "basic" (sim w') = peers_of "basic" (sim bootstrapped) ++ new
    ∧ (∀ ty', ty' ≠ "basic" ->
         dict_get ty' (peers (sim w')) = dict_get ty' (peers (sim bootstrapped)))
    ∧ calls w' = calls bootstrapped ++ hellos
    ∧ Forall2 (hello_to [0]) new hellos.
Proof.
  apply (add_peers_appends plain_factory 2 "basic" bootstrapped [] [0]).
  - vm_compute. reflexivity.
  - discriminate.
Defined.


Lemma unassigned_bootstrap_peers_witness :
  (∀ n, ∃ w' x,
     init_bootstrap_servers plain_factory (S n) (new_simulation []) = Raise AttributeError w'
     ∧ heap w' = <[fresh (dom (heap (new_simulation []))) := x]> (heap (new_simulation []))
     ∧ sim w' = sim (new_simulation []) ∧ calls w' = calls (new_simulation [])
     ∧ next_cnx w' = next_cnx (new_simulation []))
  ∧ (∀ n ty, ∃ w' x,
     add_peers plain_factory (S n) ty (new_simulation []) = Raise AttributeError w'
     ∧ heap w' = <[fresh (dom (heap (new_simulation []))) := x]> (heap (new_simulation []))
     ∧ sim w' = sim (new_simulation []) ∧ calls w' = calls (new_simulation [])
     ∧ next_cnx w' = next_cnx (new_simulation []))
  ∧ init_bootstrap_servers plain_factory 0 (new_simulation [])
    = Ok tt (add_log (mkLog None Info LInitBootstrap) (new_simulation []))
  ∧ (∀ ty, add_peers plain_factory 0 ty (new_simulation [])
           = Ok tt (add_log (mkLog None Info (LCreating 0 ty)) (new_simulation [])))
  ∧ (∀ bandwidth, get_graph bandwidth true (new_simulation [])
                  = Raise AttributeError (new_simulation [])).
Proof.
  apply (unassigned_bootstrap_peers plain_factory (new_simulation [])).
  reflexivity.
Defined.

Lemma add_peers_no_bootstrap_server_witness :
  ∃ w' x,
    add_peers plain_factory 3 "basic" (prepared_simulation []) = Raise IndexError w'
    ∧ heap w' = <[fresh (dom (heap (prepared_simulation []))) := x]>
                  (heap (prepared_simulation []))
    ∧ sim w' = sim (prepared_simulation []) ∧ calls w' = calls (prepared_simulation [])
    ∧ next_cnx w' = next_cnx (prepared_simulation [])
    ∧ rng w' = rng (prepared_simulation []).
Proof.
  apply (add_peers_no_bootstrap_server plain_factory 2 "basic" (prepared_simulation [])).
  reflexivity.
Defined.

(** ** Starting the recorded peers *)






(** ** The derived graph *)

Lemma has_edge_adj (g : Graph) (a b : string) : has_edge g a b ↔ b ∈ dom (adj g a).
Proof.
  unfold has_edge, adj. split.
  - intros (m & -> & Hb). done.
  - destruct (g !! a) as [m|]; [by exists m|]. cbn. set_solver.
Qed.

Lemma adj_add_node (n a : string) (g : Graph) : adj (add_node n g) a = adj g a.
Proof.
  unfold adj, add_node. destruct (g !! n) as [m|] eqn:Hn; [done|].
  destruct (decide (a = n)) as [->|Hne].
  - by rewrite lookup_insert_eq, Hn.
  - by rewrite lookup_insert_ne.
Qed.

Lemma dom_add_node (n : string) (g : Graph) : dom (add_node n g) = dom g ∪ {[n]}.
Proof.
  unfold add_node. destruct (g !! n) as [m|] eqn:Hn.
  - apply elem_of_dom_2 in Hn. set_solver.
  - rewrite dom_insert_L. set_solver.
Qed.

Lemma adj_insert (k a : string) (m : gmap string Q) (g : Graph) :
  adj (<[k := m]> g) a = if decide (a = k) then m else adj g a.
Proof.
  unfold adj. destruct (decide (a = k)) as [->|Hne].
  - by rewrite lookup_insert_eq.
  - by rewrite lookup_insert_ne.
Qed.

Lemma add_edge_adj (u v : string) (wt : Q) (g : Graph) :
  add_edge u v wt g
  = let g1 := add_node v (add_node u g) in
    let g2 := <[u := <[v := wt]> (adj g1 u)]> g1 in
    <[v := <[u := wt]> (adj g2 v)]> g2.
Proof. reflexivity. Qed.

Lemma has_edge_add_edge (u v : string) (wt : Q) (g : Graph) (a b : string) :
  has_edge (add_edge u v wt g) a b
  ↔ has_edge g a b ∨ (a = u ∧ b = v) ∨ (a = v ∧ b = u).
Proof.
  rewrite !has_edge_adj, add_edge_adj. cbv zeta.
  rewrite !adj_insert, !adj_add_node.
  repeat case_decide; subst; rewrite ?dom_insert_L; set_solver.
Qed.

Lemma dom_add_edge (u v : string) (wt : Q) (g : Graph) :
  dom (add_edge u v wt g) = dom g ∪ {[u; v]}.
Proof.
  unfold add_edge. rewrite !dom_insert_L, !dom_add_node. set_solver.
Qed.

Section GraphShape.
Context (bandwidth : Connection -> Q) (incl : bool) (h : gmap nat Peer).

Lemma graph_step_edges (pn : string) (items : list (nat * Connection)) :
  ∀ (G : Graph) (a b : string),
  has_edge (foldl (graph_step bandwidth incl h pn) G items) a b
  ↔ has_edge G a b
    ∨ ∃ item po, item ∈ items ∧ h !! item.1 = Some po ∧ passes incl po = true
                 ∧ ((a = pn ∧ b = name po) ∨ (a = name po ∧ b = pn)).
Proof.
  induction items as [|item items IH]; intros G a b; cbn [foldl].
  - split; [by left|]. intros [?|(? & ? & []%elem_of_nil & _)]. done.
  - rewrite IH. unfold graph_step. split.
    + intros [Hg|(it & po & Hin & Hpo & Hpass & Hab)].
      * destruct (h !! item.1) as [po|] eqn:Hpo; [|by left].
        destruct (incl || negb (String.prefix "bootstrap" (name po))) eqn:Hpass; [|by left].
        apply has_edge_add_edge in Hg as [Hg|Hab]; [by left|].
        right. exists item, po. split; [apply elem_of_cons; by left|]. done.
      * right. exists it, po. split; [apply elem_of_cons; by right|]. done.
    + intros [Hg|(it & po & [->|Hin]%elem_of_cons & Hpo & Hpass & Hab)].
      * left. destruct (h !! item.1) as [po|]; [|done].
        destruct (incl || negb (String.prefix "bootstrap" (name po))); [|done].
        apply has_edge_add_edge. by left.
      * left. rewrite Hpo. unfold passes in Hpass. rewrite Hpass.
        apply has_edge_add_edge. by right.
      * right. by exists it, po.
Qed.

Lemma graph_step_nodes (pn : string) (items : list (nat * Connection)) :
  ∀ (G : Graph) (n : string),
  n ∈ dom (foldl (graph_step bandwidth incl h pn) G items)
  ↔ n ∈ dom G
    ∨ ∃ item po, item ∈ items ∧ h !! item.1 = Some po ∧ passes incl po = true
                 ∧ (n = pn ∨ n = name po).
Proof.
  induction items as [|item items IH]; intros G n; cbn [foldl].
  - split; [by left|]. intros [?|(? & ? & []%elem_of_nil & _)]. done.
  - rewrite IH. unfold graph_step. split.
    + intros [Hg|(it & po & Hin & Hpo & Hpass & Hab)].
      * destruct (h !! item.1) as [po|] eqn:Hpo; [|by left].
        destruct (incl || negb (String.prefix "bootstrap" (name po))) eqn:Hpass; [|by left].
        rewrite dom_add_edge in Hg.
        apply elem_of_union in Hg as [Hg|Hab]; [by left|].
        right. exists item, po. split; [apply elem_of_cons; by left|].
        split; [done|]. split; [done|]. set_solver.
      * right. exists it, po. split; [apply elem_of_cons; by right|]. done.
    + intros [Hg|(it & po & [->|Hin]%elem_of_cons & Hpo & Hpass & Hab)].
      * left. destruct (h !! item.1) as [po|]; [|done].
        destruct (incl || negb (String.prefix "bootstrap" (name po))); [|done].
        rewrite dom_add_edge. set_solver.
      * left. rewrite Hpo. unfold passes in Hpass. rewrite Hpass.
        rewrite dom_add_edge. set_solver.
      * right. by exists it, po.
Qed.

Lemma graph_of_edges (l : list peer_id) :
  ∀ (G : Graph) (a b : string),
  has_edge (foldl (peer_graph bandwidth incl h) G l) a b
  ↔ has_edge G a b ∨ linked_names incl h l a b ∨ linked_names incl h l b a.
Proof.
  induction l as [|p l IH]; intros G a b; cbn [foldl].
  - split; [by left|].
    intros [?|[(? & ? & ? & ? & []%elem_of_nil & _)|(? & ? & ? & ? & []%elem_of_nil & _)]].
    done.
  - rewrite IH. unfold peer_graph.
    assert (Hcons : ∀ u v, linked_names incl h (p :: l) u v
              ↔ linked_names incl h l u v
                ∨ ∃ pp o po, h !! p = Some pp ∧ o ∈ dom (connections pp)
                             ∧ h !! o = Some po ∧ passes incl po = true
                             ∧ name pp = u ∧ name po = v).
    { intros u v. split.
      - intros (q & pp & o & po & [->|Hin]%elem_of_cons & Hrest).
        + right. by exists pp, o, po.
        + left. by exists q, pp, o, po.
      - intros [(q & pp & o & po & Hin & Hrest)|(pp & o & po & Hrest)].
        + exists q, pp, o, po. split; [apply elem_of_cons; by right|done].
        + exists p, pp, o, po. split; [apply elem_of_cons; by left|done]. }
    rewrite !Hcons. destruct (h !! p) as [pp|] eqn:Hp; cycle 1.
    { split; [intros [?|[?|?]]; auto|].
      intros [?|[[?|(? & ? & ? & [=] & _)]|[?|(? & ? & ? & [=] & _)]]]; auto. }
    rewrite graph_step_edges, has_edge_adj, adj_add_node, <- has_edge_adj.
    split.
    + intros [[Hg|(item & po & Hin & Hpo & Hpass & Hab)]|[?|?]]; auto.
      destruct item as [o c]. apply elem_of_map_to_list in Hin.
      apply elem_of_dom_2 in Hin. cbn [fst] in Hpo.
      destruct Hab as [[-> ->]|[-> ->]].
      * right. left. right. by exists pp, o, po.
      * right. right. right. by exists pp, o, po.
    + intros [?|[[?|(pp' & o & po & [= <-] & [c Hc]%elem_of_dom & Hpo & Hpass & <- & <-)]
                |[?|(pp' & o & po & [= <-] & [c Hc]%elem_of_dom & Hpo & Hpass & <- & <-)]]];
        auto; left; right; exists (o, c), po;
        (split; [by apply elem_of_map_to_list|]); auto.
Qed.

Lemma graph_of_nodes (l : list peer_id) :
  ∀ (G : Graph) (n : string),
  n ∈ dom (foldl (peer_graph bandwidth incl h) G l)
  ↔ n ∈ dom G ∨ named h l n ∨ ∃ u, linked_names incl h l u n.
Proof.
  induction l as [|p l IH]; intros G n; cbn [foldl].
  - split; [by left|].
    intros [?|[(? & ? & []%elem_of_nil & _)|(? & ? & ? & ? & ? & []%elem_of_nil & _)]].
    done.
  - rewrite IH. unfold peer_graph. split.
    + intros [Hg|[(q & pq & Hin & Hq & Hn)|(u & q & pq & o & po & Hin & Hrest)]].
      * destruct (h !! p) as [pp|] eqn:Hp; [|by left].
        apply graph_step_nodes in Hg as [Hg|(item & po & Hin & Hpo & Hpass & Hn)].
        -- rewrite dom_add_node in Hg. apply elem_of_union in Hg as [Hg|Hg]; [by left|].
           right. left. exists p, pp. split; [apply elem_of_cons; by left|].
           split; [done|]. set_solver.
        -- destruct Hn as [->| ->].
           ++ right. left. exists p, pp. split; [apply elem_of_cons; by left|]. done.
           ++ right. right. destruct item as [o c]. apply elem_of_map_to_list in Hin.
              apply elem_of_dom_2 in Hin. cbn [fst] in Hpo.
              exists (name pp), p, pp, o, po. split; [apply elem_of_cons; by left|]. done.
      * right. left. exists q, pq. split; [apply elem_of_cons; by right|]. done.
      * right. right. exists u, q, pq, o, po. split; [apply elem_of_cons; by right|]. done.
    + intros [Hg|[(q & pq & [->|Hin]%elem_of_cons & Hq & Hn)
                 |(u & q & pq & o & po & [->|Hin]%elem_of_cons & Hq & Ho & Hpo & Hpass & Hu & Hn)]].
      * left. destruct (h !! p) as [pp|]; [|done].
        apply graph_step_nodes. left. rewrite dom_add_node. set_solver.
      * left. rewrite Hq. apply graph_step_nodes. left. rewrite dom_add_node. set_solver.
      * right. left. by exists q, pq.
      * left. rewrite Hq. apply graph_step_nodes. right.
        apply elem_of_dom in Ho as [c Hc].
        exists (o, c), po. split; [by apply elem_of_map_to_list|]. auto.
      * right. right. by exists u, q, pq, o, po.
Qed.

End GraphShape.

(** X22. get_graph, when every peer it visits and every peer these are
    connected to is live, returns a graph and changes nothing.  Two names
    are adjacent in it exactly when a visited peer with one of the names
    has a connection to a peer with the other name that passes the
    bootstrap test (always, when bootstrap peers are included; otherwise
    when the name of the other peer does not start with "bootstrap");
    hence adjacency is symmetric.  Its nodes are the names of the visited
    peers and the end points of its edges. *)
Theorem get_graph_shape (bandwidth : Connection -> Q) (incl : bool) (w : World)
    (bs : list peer_id) :
  (incl = true -> bootstrap_peers (sim w) = Some bs) ->
  closed_peers (heap w)
    (concat (map snd (peers (sim w))) ++ (if incl then bs else [])) ->
  ∃ G,
    get_graph bandwidth incl w = Ok G w
    ∧ (∀ u v, has_edge G u v
              ↔ linked_names incl (heap w)
                  (concat (map snd (peers (sim w))) ++ (if incl then bs else [])) u v
                ∨ linked_names incl (heap w)
                    (concat (map snd (peers (sim w))) ++ (if incl then bs else [])) v u)
    ∧ (∀ u v, has_edge G u v -> has_edge G v u)
    ∧ (∀ n, n ∈ dom G
            ↔ named (heap w)
                (concat (map snd (peers (sim w))) ++ (if incl then bs else [])) n
              ∨ ∃ u, has_edge G n u).
Proof.
  intros Hbs Hclosed.
  set (current := concat (map snd (peers (sim w))) ++ (if incl then bs else [])) in *.
  exists (foldl (peer_graph bandwidth incl (heap w)) ∅ current).
  assert (Hedges : ∀ u v,
    has_edge (foldl (peer_graph bandwidth incl (heap w)) ∅ current) u v
    ↔ linked_names incl (heap w) current u v ∨ linked_names incl (heap w) current v u).
  { intros u v. rewrite graph_of_edges. split; [|auto].
    intros [(m & Hm & _)|?]; [|done]. by rewrite lookup_empty in Hm. }
  split; [|split; [done|split]].
  - unfold get_graph. mstep. destruct incl.
    + rewrite Hbs by done. mstep. by apply get_graph_peers.
    + mstep. subst current. rewrite app_nil_r in *. by apply get_graph_peers.
  - intros u v. rewrite !Hedges. tauto.
  - intros n. rewrite graph_of_nodes. split.
    + intros [Hn|[?|(u & Hu)]]; [set_solver|by left|].
      right. exists u. apply Hedges. by right.
    + intros [?|(u & (m & Hm & _))]; [auto|].
      apply elem_of_dom_2 in Hm. apply graph_of_nodes in Hm. done.
Qed.

Lemma closed_peers_intro (h : gmap nat Peer) (l : list peer_id) :
  Forall (fun p => p ∈ dom h
                   ∧ dom (connections (default (Peer_init "" "" 0 0) (h !! p))) ⊆ dom h) l ->
  closed_peers h l.
Proof.
  intros H. eapply Forall_impl; [exact H|]. intros p [[pp Hp]%elem_of_dom Hsub].
  exists pp. split; [done|]. rewrite Hp in Hsub. cbn in Hsub. set_solver.
Qed.


Lemma get_graph_shape_witness :
  ∃ G,
    get_graph unit_bandwidth true small_network = Ok G small_network
    ∧ (∀ u v, has_edge G u v
              ↔ linked_names true (heap small_network)
                  (concat (map snd (peers (sim small_network))) ++ [0]) u v
                ∨ linked_names true (heap small_network)
                    (concat (map snd (peers (sim small_network))) ++ [0]) v u)
    ∧ (∀ u v, has_edge G u v -> has_edge G v u)
    ∧ (∀ n, n ∈ dom G
            ↔ named (heap small_network)
                (concat (map snd (peers (sim small_network))) ++ [0]) n
              ∨ ∃ u, has_edge G n u).
Proof.
  apply (get_graph_shape unit_bandwidth true small_network [0]).
  - intros _. vm_compute. reflexivity.
  - apply closed_peers_intro. refine (bool_decide_unpack _ _). vm_compute. exact I.
Defined.

(** ** After a disconnect *)



(** ** Reading the graph *)

(** X24. get_graph is an observer: whether it returns a graph or raises,
    for either value of the flag and in every world, it leaves the
    simulation, the peers, the random source, the log and the trace of
    calls exactly as they were. *)
Theorem get_graph_read_only (bandwidth : Connection -> Q) (incl : bool) (w : World) :
  match get_graph bandwidth incl w with
  | Ok _ w' => w' = w
  | Raise _ w' => w' = w
  | Stuck => True
  end.
Proof.
  change (wp True (get_graph bandwidth incl) (fun _ w' => w' = w) (fun w' => w' = w) w).
  unfold get_graph. apply wp_bind. unfold wp at 1, get_sim.
  apply wp_bind.
  assert (Hloop : ∀ l,
    wp True
      (fold_m (fun G peer =>
         do pp <- get_peer peer;
         fold_m (fun G item =>
           do po <- get_peer item.1;
           if incl || negb (String.prefix "bootstrap" (name po))
           then ret (add_edge (name pp) (name po) (bandwidth item.2) G)
           else ret G)
           (map_to_list (connections pp)) (add_node (name pp) G)) l ∅)
      (fun _ w' => w' = w) (fun w' => w' = w) w).
  { intros l. apply (wp_fold_m True (fun w' => w' = w)); [done| |done].
    intros G p w' _ ->. apply wp_bind, wp_get_peer; [done|]. intros pp _.
    apply (wp_fold_m True (fun w' => w' = w)); [done| |done].
    intros G' item w' _ ->. apply wp_bind, wp_get_peer; [done|]. intros po _.
    by destruct (incl || negb (String.prefix "bootstrap" (name po))). }
  destruct incl; [destruct (bootstrap_peers (sim w))|]; try done; apply Hloop.
Qed.

(** ** Methods that write to no peer *)

(** X25. On a live peer, receive, send, gossip, broadcast, store and
    start_all_runners, whether they return or raise, leave every field of
    every peer as it was: they only log, draw random numbers and call their
    collaborators.  The same holds for bootstrap_connect between any two
    peers. *)
Theorem messaging_writes_no_peer (w : World) (a : peer_id) :
  a ∈ dom (heap w) ->
  (∀ msg, heap (after (receive a msg) w) = heap w)
  ∧ (∀ r m, heap (after (send a r m) w) = heap w)
  ∧ (∀ m f E, heap (after (gossip a m f E) w) = heap w)
  ∧ (∀ m, heap (after (broadcast a m) w) = heap w)
  ∧ (∀ nm id v, heap (after (store a nm id v) w) = heap w)
  ∧ heap (after (start_all_runners a) w) = heap w
  ∧ (∀ b, heap (after (bootstrap_connect a b) w) = heap w).
Proof.
  intros Ha.
  assert (HD : ({[a]} : gset nat) ⊆ dom (heap w)) by by apply singleton_subseteq_l.
  split; [|split; [|split; [|split; [|split; [|split]]]]]; intros.
  - by apply (keeps_heap_after {[a]}); [apply keeps_heap_receive|].
  - by apply (keeps_heap_after {[a]}); [apply keeps_heap_send|].
  - by apply (keeps_heap_after {[a]}); [apply keeps_heap_gossip|].
  - by apply (keeps_heap_after {[a]}); [apply keeps_heap_broadcast|].
  - by apply (keeps_heap_after {[a]}); [apply keeps_heap_store|].
  - by apply (keeps_heap_after {[a]}); [apply keeps_heap_start_all_runners|].
  - apply (keeps_heap_after ∅); [apply keeps_heap_bootstrap_connect|set_solver].
Qed.

Lemma messaging_writes_no_peer_witness :
  (∀ msg, heap (after (receive 0 msg) serviced_peers) = heap serviced_peers)
  ∧ (∀ r m, heap (after (send 0 r m) serviced_peers) = heap serviced_peers)
  ∧ (∀ m f E, heap (after (gossip 0 m f E) serviced_peers) = heap serviced_peers)
  ∧ (∀ m, heap (after (broadcast 0 m) serviced_peers) = heap serviced_peers)
  ∧ (∀ nm id v, heap (after (store 0 nm id v) serviced_peers) = heap serviced_peers)
  ∧ heap (after (start_all_runners 0) serviced_peers) = heap serviced_peers
  ∧ (∀ b, heap (after (bootstrap_connect 0 b) serviced_peers) = heap serviced_peers).
Proof.
  apply (messaging_writes_no_peer serviced_peers 0).
  refine (bool_decide_unpack _ _). vm_compute. exact I.
Defined.
